(** * npm-bisect: the registry rewriter, the intercepting proxy and the
      bisection driver, embedded from the JavaScript sources.

    The repository holds several revisions of the same two programs:
    - the proxy ([main.js] and two later revisions of it, called
      [Part001] and [Part002] below), with the function
      [removeVersionsFromPackageMetadata] and the mitm request handler;
    - the driver ([npm-bisect.js] and a later revision with the
      [--only]/[--ignore] package specs), with the bisection loop.

    Where the revisions differ, the definitions take a [Variant]. *)

From Stdlib Require Import ZArith List String Ascii Bool Lia.
From Stdlib Require Import DecimalString DecimalNat.
Import ListNotations.

Local Open Scope string_scope.
Local Open Scope Z_scope.

(* ================================================================== *)
(** * Part I: definitions                                              *)
(* ================================================================== *)

(** ** JavaScript objects used as string-keyed maps

    An object is the list of its own properties in the order
    [Object.keys] enumerates them.  Reading a property takes the first
    binding of the key, [delete] removes the key, and an assignment
    replaces the value in place or appends a new property. *)

Module JsObject.

Definition t (V : Type) : Type := list (string * V).

Fixpoint get {V : Type} (k : string) (o : t V) : option V :=
  match o with
  | [] => None
  | (k', v) :: o' => if String.eqb k k' then Some v else get k o'
  end.

Definition delete {V : Type} (k : string) (o : t V) : t V :=
  filter (fun kv => negb (String.eqb k (fst kv))) o.

Fixpoint set {V : Type} (k : string) (v : V) (o : t V) : t V :=
  match o with
  | [] => [(k, v)]
  | (k', v') :: o' =>
      if String.eqb k k' then (k, v) :: o' else (k', v') :: set k v o'
  end.

Definition keys {V : Type} (o : t V) : list string := map fst o.

Definition has {V : Type} (k : string) (o : t V) : bool :=
  existsb (String.eqb k) (keys o).

End JsObject.

(** ** A JavaScript [Set] of strings, in insertion order *)

Definition Set_has (k : string) (s : list string) : bool :=
  existsb (String.eqb k) s.

Definition Set_add (k : string) (s : list string) : list string :=
  if Set_has k s then s else s ++ [k].

(** ** Dates

    A [Date] is its time value in milliseconds since the epoch; [None]
    is the NaN time value of an Invalid Date.  Relational operators on
    two dates compare the time values, and every comparison with NaN is
    false. *)

Definition Date : Type := option Z.

Definition Date_gt (a b : Date) : bool :=
  match a, b with
  | Some x, Some y => x >? y
  | _, _ => false
  end.

(** [new Date(v)] for a property value [v] that is a string, or
    [undefined] when the property is missing.  The parser of date
    strings is the host's. *)
Definition new_Date (Date_parse : string -> Date) (v : option string) : Date :=
  match v with
  | Some s => Date_parse s
  | None => None
  end.

(** A JavaScript string is truthy when it is not empty. *)
Definition truthy (s : string) : bool := negb (String.eqb s EmptyString).

(** [haystack.includes(needle)] *)
Definition String_includes (haystack needle : string) : bool :=
  match String.index 0 needle haystack with
  | Some _ => true
  | None => false
  end.

(** ** The parsed registry document

    [versions] and [time] are either missing or objects; the values of
    [time] are the registry's date strings and the per-version objects
    are kept as opaque payloads.  [latest] is [None] when the property
    is missing or [undefined]. *)

Record DistTags : Type := mkDistTags {
  latest : option string;
  otherTags : JsObject.t string
}.

Record PackageMetadata : Type := mkPackageMetadata {
  name : option string;
  versions : option (JsObject.t string);
  time : option (JsObject.t string);
  dist_tags : option DistTags;
  otherFields : JsObject.t string
}.

(** The revisions of the proxy. *)
Inductive Variant : Type := MainJs | Part001 | Part002.

(** The test guarding the loop body:
    [version !== 'modified' && version !== 'changed'] in [main.js],
    [version !== 'modified' && version !== 'created'] in the later
    revisions. *)
Definition isVersionKey (variant : Variant) (version : string) : bool :=
  match variant with
  | MainJs =>
      negb (String.eqb version "modified") && negb (String.eqb version "changed")
  | Part001 | Part002 =>
      negb (String.eqb version "modified") && negb (String.eqb version "created")
  end.

(** ** removeVersionsFromPackageMetadata

    The second argument [timeByVersion] is a reference: the handler
    passes [obj.time] itself, or the [time] object of a second, full
    metadata response.  The store holds both objects, so that deleting
    from [timeByVersion] shows in [obj.time] exactly when they are the
    same object. *)

Inductive TimeRef : Type := ObjTime | FullMetadataTime.

Record Store : Type := mkStore {
  obj : PackageMetadata;
  fullMetadataTime : option (JsObject.t string)
}.

Definition deref (r : TimeRef) (s : Store) : option (JsObject.t string) :=
  match r with
  | ObjTime => time (obj s)
  | FullMetadataTime => fullMetadataTime s
  end.

(** The variables of the loop, with the two objects it mutates. *)
Record LoopState : Type := mkLoopState {
  timeByVersion : JsObject.t string;
  objVersions : JsObject.t string;
  changesMade : bool;
  deletedVersions : list string;
  latestPreservedVersion : option string;
  latestPreservedVersionTime : option Date
}.

Definition initLoop (tbv vs : JsObject.t string) : LoopState :=
  mkLoopState tbv vs false [] None None.

(** [!latestPreservedVersionTime || time > latestPreservedVersionTime]:
    a Date object is truthy even when invalid, so the first disjunct
    holds only while the variable is [undefined]. *)
Definition isLater (time : Date) (latestTime : option Date) : bool :=
  match latestTime with
  | None => true
  | Some lt => Date_gt time lt
  end.

Definition loopBody (Date_parse : string -> Date) (variant : Variant)
    (ignoreNewerThan : Date) (st : LoopState) (version : string) : LoopState :=
  if isVersionKey variant version then
    let time := new_Date Date_parse (JsObject.get version (timeByVersion st)) in
    if Date_gt time ignoreNewerThan then
      mkLoopState (JsObject.delete version (timeByVersion st))
                  (JsObject.delete version (objVersions st))
                  true
                  (Set_add version (deletedVersions st))
                  (latestPreservedVersion st)
                  (latestPreservedVersionTime st)
    else if isLater time (latestPreservedVersionTime st) then
      mkLoopState (timeByVersion st) (objVersions st) (changesMade st)
                  (deletedVersions st) (Some version) (Some time)
    else st
  else st.

(** The [for ... of Object.keys(timeByVersion)] loop: the keys are
    taken once, before the first deletion. *)
Definition versionLoop (Date_parse : string -> Date) (variant : Variant)
    (ignoreNewerThan : Date) (tbv vs : JsObject.t string) : LoopState :=
  fold_left (loopBody Date_parse variant ignoreNewerThan)
            (JsObject.keys tbv) (initLoop tbv vs).

Definition writeBack (r : TimeRef) (s : Store) (st : LoopState) : Store :=
  let o := obj s in
  match r with
  | ObjTime =>
      mkStore (mkPackageMetadata (name o) (Some (objVersions st))
                 (Some (timeByVersion st)) (dist_tags o) (otherFields o))
              (fullMetadataTime s)
  | FullMetadataTime =>
      mkStore (mkPackageMetadata (name o) (Some (objVersions st))
                 (time o) (dist_tags o) (otherFields o))
              (Some (timeByVersion st))
  end.

(** [changesMade && obj['dist-tags'] && obj['dist-tags'].latest &&
     deletedVersions.has(obj['dist-tags'].latest)] *)
Definition latestWasDeleted (st : LoopState) (o : PackageMetadata) : bool :=
  changesMade st &&
  match dist_tags o with
  | Some tags =>
      match latest tags with
      | Some l => truthy l && Set_has l (deletedVersions st)
      | None => false
      end
  | None => false
  end.

Definition setLatest (o : PackageMetadata) (l : option string) : PackageMetadata :=
  match dist_tags o with
  | Some tags =>
      mkPackageMetadata (name o) (versions o) (time o)
        (Some (mkDistTags l (otherTags tags))) (otherFields o)
  | None => o
  end.

Definition removeVersionsFromPackageMetadata (Date_parse : string -> Date)
    (variant : Variant) (ignoreNewerThan : Date)
    (s : Store) (timeByVersionRef : TimeRef) : bool * Store :=
  match deref timeByVersionRef s, versions (obj s) with
  | Some tbv, Some vs =>
      let st := versionLoop Date_parse variant ignoreNewerThan tbv vs in
      let s1 := writeBack timeByVersionRef s st in
      let s2 :=
        if latestWasDeleted st (obj s1)
        then mkStore (setLatest (obj s1) (latestPreservedVersion st))
                     (fullMetadataTime s1)
        else s1 in
      (changesMade st, s2)
  | _, _ => (false, s)
  end.

(** The call the handler makes when the response itself carries the
    [time] map: the document is the whole store. *)
Definition rewriteDocument (Date_parse : string -> Date) (variant : Variant)
    (ignoreNewerThan : Date) (D : PackageMetadata) : bool * PackageMetadata :=
  let '(changed, s) :=
    removeVersionsFromPackageMetadata Date_parse variant ignoreNewerThan
      (mkStore D None) ObjTime in
  (changed, obj s).

(** ** Strings of digits *)

Definition isDigit (c : ascii) : bool :=
  (48 <=? nat_of_ascii c)%nat && (nat_of_ascii c <=? 57)%nat.

Fixpoint takeWhile (p : ascii -> bool) (s : string) : string :=
  match s with
  | EmptyString => EmptyString
  | String c s' => if p c then String c (takeWhile p s') else EmptyString
  end.

Fixpoint dropWhile (p : ascii -> bool) (s : string) : string :=
  match s with
  | EmptyString => EmptyString
  | String c s' => if p c then dropWhile p s' else s
  end.

(** [String(n)] for a non-negative integer [n]. *)
Definition String_of_nat (n : nat) : string :=
  NilEmpty.string_of_uint (Nat.to_uint n).

(** [parseInt(s, 10)] on a string of decimal digits; NaN otherwise. *)
Definition parseInt (s : string) : option nat :=
  match s with
  | EmptyString => None
  | _ => option_map Nat.of_uint (NilEmpty.uint_of_string s)
  end.

(** ** A date parser to run the definitions with

    The theorems below hold for every parser of date strings.  To
    evaluate the definitions on sample documents, [Date_parse_ISO]
    reads the one format [Date.prototype.toJSON] writes and the registry
    serves, [YYYY-MM-DDTHH:mm:ss.sssZ], and rejects everything else. *)

Fixpoint digitsValue (acc : Z) (s : string) : option Z :=
  match s with
  | EmptyString => Some acc
  | String c s' =>
      if isDigit c
      then digitsValue (10 * acc + (Z.of_nat (nat_of_ascii c) - 48)) s'
      else None
  end.

Definition digitsAt (s : string) (start len : nat) : option Z :=
  let f := substring start len s in
  if Nat.eqb (String.length f) len then digitsValue 0 f else None.

Definition charAt (s : string) (i : nat) (c : string) : bool :=
  String.eqb (substring i 1 s) c.

Definition isLeapYear (y : Z) : bool :=
  ((y mod 4 =? 0) && negb (y mod 100 =? 0)) || (y mod 400 =? 0).

Definition daysInMonth (y m : Z) : Z :=
  if m =? 2 then (if isLeapYear y then 29 else 28)
  else if (m =? 4) || (m =? 6) || (m =? 9) || (m =? 11) then 30
  else 31.

(** Days from 1970-01-01 to the given civil date. *)
Definition daysFromCivil (y m d : Z) : Z :=
  let y' := if m <=? 2 then y - 1 else y in
  let era := y' / 400 in
  let yoe := y' - era * 400 in
  let mp := if m >? 2 then m - 3 else m + 9 in
  let doy := (153 * mp + 2) / 5 + d - 1 in
  let doe := yoe * 365 + yoe / 4 - yoe / 100 + doy in
  era * 146097 + doe - 719468.

Definition Date_parse_ISO (s : string) : Date :=
  if Nat.eqb (String.length s) 24
     && charAt s 4 "-" && charAt s 7 "-" && charAt s 10 "T"
     && charAt s 13 ":" && charAt s 16 ":" && charAt s 19 "."
     && charAt s 23 "Z"
  then
    match digitsAt s 0 4, digitsAt s 5 2, digitsAt s 8 2,
          digitsAt s 11 2, digitsAt s 14 2, digitsAt s 17 2,
          digitsAt s 20 3 with
    | Some y, Some mo, Some d, Some h, Some mi, Some sec, Some ms =>
        if (1 <=? mo) && (mo <=? 12) && (1 <=? d) && (d <=? daysInMonth y mo)
           && (h <=? 23) && (mi <=? 59) && (sec <=? 59)
        then Some ((((daysFromCivil y mo d * 24 + h) * 60 + mi) * 60 + sec)
                     * 1000 + ms)
        else None
    | _, _, _, _, _, _, _ => None
    end
  else None.

(** ** The mitm request handler

    Node lower-cases the names of the headers of an incoming message,
    so that [headers] is keyed by the lower-case spellings.  The
    record of the upstream request holds what the handler computes
    itself; the options picked from the client socket into [metadata]
    are added by [performRequest] (see [requestTarget] below). *)

Record IncomingMessage : Type := mkIncomingMessage {
  req_url : string;
  req_method : string;
  req_headers : JsObject.t string;
  req_encrypted : bool
}.

Record UpstreamRequestOptions : Type := mkUpstreamRequestOptions {
  up_encrypted : bool;
  up_headers : JsObject.t string;
  up_method : string;
  up_host : option string;
  up_port : nat;
  up_path : string;
  up_body : string
}.

Record ResponseResult : Type := mkResponseResult {
  statusCode : nat;
  res_headers : JsObject.t string;
  res_body : string
}.

(** One entry of the proxy's [timeline] array. *)
Record Publication : Type := mkPublication {
  pub_packageName : option string;
  pub_version : string;
  pub_time : Date
}.

(** The match of the [host] header against the handler's regular
    expression (any characters but colons, then optionally a colon and
    digits): the host is the longest prefix free of colons, the port
    the digits after the first colon; each is kept only when the group
    is a non-empty string. *)
Definition isColon (c : ascii) : bool := Ascii.eqb c ":"%char.

Definition parseHostHeader (hostHeader : option string)
    : option string * option nat :=
  match hostHeader with
  | None => (None, None)
  | Some h =>
      if truthy h then
        let g1 := takeWhile (fun c => negb (isColon c)) h in
        let rest := dropWhile (fun c => negb (isColon c)) h in
        let g2 :=
          match rest with
          | String _ afterColon => takeWhile isDigit afterColon
          | EmptyString => EmptyString
          end in
        (if truthy g1 then Some g1 else None,
         if truthy g2 then parseInt g2 else None)
      else (None, None)
  end.

Definition isRegistryHostname (variant : Variant) (host : option string) : bool :=
  match host with
  | None => false
  | Some h =>
      match variant with
      | MainJs | Part002 => String.eqb h "registry.npmjs.org"
      | Part001 =>
          String.eqb h "registry.npmjs.org" || String.eqb h "registry.yarnpkg.com"
      end
  end.

Definition compactMediaType : string := "application/vnd.npm.install-v1+json".

Definition npmAcceptHeader : string :=
  "application/vnd.npm.install-v1+json; q=1.0, application/json; q=0.8, */*".

(** The rewrite of the [accept] header.  [main.js] and [Part002] do it
    for the path [/messy] and the exact header npm sends; [Part001]
    does it whenever the header names the compact media type, and
    throws a TypeError ([None]) when the request has no [accept]. *)
Definition rewriteAccept (variant : Variant) (url : string)
    (headers : JsObject.t string) : option (JsObject.t string) :=
  match variant with
  | MainJs | Part002 =>
      if String.eqb url "/messy" &&
         match JsObject.get "accept" headers with
         | Some a => String.eqb a npmAcceptHeader
         | None => false
         end
      then Some (JsObject.set "accept" "application/json" headers)
      else Some headers
  | Part001 =>
      match JsObject.get "accept" headers with
      | Some a =>
          if String_includes a compactMediaType
          then Some (JsObject.set "accept" "application/json" headers)
          else Some headers
      | None => None
      end
  end.

(** The block guarded by the registry test: the headers after it and
    [couldBePackageMetadataRequest]. *)
Definition normalizeHeaders (variant : Variant) (host : option string)
    (req : IncomingMessage) : option (JsObject.t string * bool) :=
  if isRegistryHostname variant host then
    let h := JsObject.delete "connection"
               (JsObject.delete "if-none-match"
                  (JsObject.delete "accept-encoding" (req_headers req))) in
    match rewriteAccept variant (req_url req) h with
    | Some h' => Some (h', true)
    | None => None
    end
  else Some (req_headers req, false).

Definition upstreamRequestOptions (req : IncomingMessage) (body : string)
    (headers : JsObject.t string) (host : option string) (port : option nat)
    : UpstreamRequestOptions :=
  mkUpstreamRequestOptions (req_encrypted req) headers (req_method req) host
    (match port with
     | Some (S p) => S p
     | _ => if req_encrypted req then 443%nat else 80%nat
     end)
    (req_url req) body.

(** [/json/.test(responseResult.headers['content-type'])]; a missing
    header is tested as the string [undefined]. *)
Definition isJson (headers : JsObject.t string) : bool :=
  match JsObject.get "content-type" headers with
  | Some ct => String_includes ct "json"
  | None => false
  end.

(** [updateTimeline(obj.name, timeByVersion)], in [Part001] and
    [Part002]. *)
Definition updateTimeline (Date_parse : string -> Date)
    (packageName : option string) (tbv : JsObject.t string) : list Publication :=
  map (fun version =>
         mkPublication packageName version
           (new_Date Date_parse (JsObject.get version tbv)))
      (filter (fun version =>
                 negb (String.eqb version "modified") &&
                 negb (String.eqb version "created"))
              (JsObject.keys tbv)).

(** The statements under [if (changesMade)]. *)
Definition patchResponse (JSON_stringify : PackageMetadata -> string)
    (o : PackageMetadata) (responseResult : ResponseResult) : ResponseResult :=
  let body := JSON_stringify o in
  mkResponseResult (statusCode responseResult)
    (JsObject.set "connection" "close"
       (JsObject.delete "content-encoding"
          (JsObject.delete "transfer-encoding"
             (JsObject.set "content-length" (String_of_nat (String.length body))
                (res_headers responseResult)))))
    body.

(** [res.statusCode = ...; for (const headerName of Object.keys(headers))
     res.setHeader(headerName, headers[headerName]); res.end(body)] *)
Definition setHeader (headers : JsObject.t string)
    (acc : JsObject.t string) (headerName : string) : JsObject.t string :=
  match JsObject.get headerName headers with
  | Some v => JsObject.set headerName v acc
  | None => acc
  end.

Definition sendResponse (responseResult : ResponseResult) : ResponseResult :=
  mkResponseResult (statusCode responseResult)
    (fold_left (setHeader (res_headers responseResult))
       (JsObject.keys (res_headers responseResult)) [])
    (res_body responseResult).

(** What one run of the handler does: the upstream requests in the
    order they were issued, the publications pushed on the timeline,
    what the rewriter returned when it was called, and how the run
    ended. *)
Inductive Outcome : Type :=
  | Responded (r : ResponseResult)
  | SocketError
  | Thrown.

Record HandlerRun : Type := mkHandlerRun {
  upstream : list UpstreamRequestOptions;
  pushed : list Publication;
  rewriterReturned : option bool;
  outcome : Outcome
}.

Section Handler.

Variable Date_parse : string -> Date.
(** [JSON.parse(body.toString('utf-8'))] read as a document; [None]
    when it throws. *)
Variable JSON_parse : string -> option PackageMetadata.
(** [JSON.stringify(obj, undefined, '  ')] as UTF-8 bytes. *)
Variable JSON_stringify : PackageMetadata -> string.
(** [performRequest]: the answer to the n-th upstream request of the
    run; [None] when the promise is rejected. *)
Variable performRequest : nat -> UpstreamRequestOptions -> option ResponseResult.
Variable variant : Variant.
Variable ignoreNewerThan : Date.

(** The second, full metadata request: made when the first response
    has no [time] and the request's [accept] names the compact media
    type. *)
Definition needsFullMetadata (o : PackageMetadata)
    (opts : UpstreamRequestOptions) : bool :=
  match time o with
  | Some _ => false
  | None =>
      match JsObject.get "accept" (up_headers opts) with
      | Some a => truthy a && String_includes a compactMediaType
      | None => false
      end
  end.

Definition withAcceptJson (opts : UpstreamRequestOptions) : UpstreamRequestOptions :=
  mkUpstreamRequestOptions (up_encrypted opts)
    (JsObject.set "accept" "application/json" (up_headers opts))
    (up_method opts) (up_host opts) (up_port opts) (up_path opts) (up_body opts).

(** The rest of the [setImmediate] callback once [timeByVersion] is
    known. *)
Definition rewriteAndSend (requests : list UpstreamRequestOptions)
    (s : Store) (r : TimeRef) (responseResult : ResponseResult) : HandlerRun :=
  let events :=
    match variant, deref r s with
    | MainJs, _ => []
    | _, Some tbv => updateTimeline Date_parse (name (obj s)) tbv
    | _, None => []
    end in
  let '(changed, s') :=
    removeVersionsFromPackageMetadata Date_parse variant ignoreNewerThan s r in
  let responseResult' :=
    if changed then patchResponse JSON_stringify (obj s') responseResult
    else responseResult in
  mkHandlerRun requests events (Some changed)
    (Responded (sendResponse responseResult')).

Definition onResponse (opts : UpstreamRequestOptions)
    (couldBePackageMetadataRequest : bool) (responseResult : ResponseResult)
    : HandlerRun :=
  if couldBePackageMetadataRequest && isJson (res_headers responseResult) then
    match JSON_parse (res_body responseResult) with
    | None => mkHandlerRun [opts] [] None Thrown
    | Some o =>
        if needsFullMetadata o opts then
          let opts2 := withAcceptJson opts in
          match performRequest 1 opts2 with
          | None => mkHandlerRun [opts; opts2] [] None Thrown
          | Some fullMetadataResult =>
              match JSON_parse (res_body fullMetadataResult) with
              | None => mkHandlerRun [opts; opts2] [] None Thrown
              | Some full =>
                  rewriteAndSend [opts; opts2] (mkStore o (time full))
                    FullMetadataTime responseResult
              end
          end
        else rewriteAndSend [opts] (mkStore o None) ObjTime responseResult
    end
  else mkHandlerRun [opts] [] None (Responded (sendResponse responseResult)).

Definition onRequest (req : IncomingMessage) (body : string) : HandlerRun :=
  let '(host, port) := parseHostHeader (JsObject.get "host" (req_headers req)) in
  match normalizeHeaders variant host req with
  | None => mkHandlerRun [] [] None Thrown
  | Some (headers, couldBePackageMetadataRequest) =>
      let opts := upstreamRequestOptions req body headers host port in
      match performRequest 0 opts with
      | None => mkHandlerRun [opts] [] None SocketError
      | Some responseResult =>
          onResponse opts couldBePackageMetadataRequest responseResult
      end
  end.

End Handler.

(** ** The driver: package specs and the bisection loop

    The loop is the same in [npm-bisect.js] and in its later revision.
    (The README also carries an early draft of the driver, which rounds
    with [Math.ceil], stops at a difference of one and reports nothing;
    it is not modelled.) *)

Module Driver.

Record TimelineEvent : Type := mkTimelineEvent {
  packageName : string;
  version : string;
  time : Z   (* [time.getTime()]; the filter on the good and bad times
                keeps valid dates only *)
}.

Record PackageSpec : Type := mkPackageSpec {
  specPackageName : string;
  versionRange : string
}.

Definition isAt (c : ascii) : bool := Ascii.eqb c "@"%char.

Definition LF : string := String (ascii_of_nat 10) EmptyString.
Definition CR : string := String (ascii_of_nat 13) EmptyString.
Definition LS : string :=
  String (ascii_of_nat 226) (String (ascii_of_nat 128)
    (String (ascii_of_nat 168) EmptyString)).
Definition PS : string :=
  String (ascii_of_nat 226) (String (ascii_of_nat 128)
    (String (ascii_of_nat 169) EmptyString)).

(** The dot of a regular expression matches everything but the four
    line terminators (U+2028 and U+2029 in their UTF-8 bytes). *)
Definition hasLineTerminator (s : string) : bool :=
  String_includes s LF || String_includes s CR ||
  String_includes s LS || String_includes s PS.

(** [packageName.match(/^([^@]+)@(.+)$/)]: the first group is the
    longest prefix free of [@] and cannot be empty, an [@] follows it,
    and the second group is the non-empty rest of the input. *)
Definition matchVersion (packageName : string) : option (string * string) :=
  let g1 := takeWhile (fun c => negb (isAt c)) packageName in
  match dropWhile (fun c => negb (isAt c)) packageName with
  | String _ g2 =>
      if truthy g1 && truthy g2 && negb (hasLineTerminator g2)
      then Some (g1, g2)
      else None
  | EmptyString => None
  end.

Definition parsePackageAndVersionRange (packageName : string) : PackageSpec :=
  match matchVersion packageName with
  | Some (packageName', versionRange') => mkPackageSpec packageName' versionRange'
  | None => mkPackageSpec packageName "*"
  end.

Section Specs.

(** [semver.satisfies(version, range)], from the semver package. *)
Variable semver_satisfies : string -> string -> bool.

Definition matchesPackageSpec (event : TimelineEvent) (spec : PackageSpec) : bool :=
  String.eqb (packageName event) (specPackageName spec) &&
  semver_satisfies (version event) (versionRange spec).

(** The two filters of the timeline, for [--only] and [--ignore]. *)
Definition filterOnly (only : list string) (timeline : list TimelineEvent)
    : list TimelineEvent :=
  match only with
  | [] => timeline
  | _ =>
      let onlySpecs := map parsePackageAndVersionRange only in
      filter (fun event => existsb (matchesPackageSpec event) onlySpecs) timeline
  end.

Definition filterIgnore (ignore : list string) (timeline : list TimelineEvent)
    : list TimelineEvent :=
  let ignoreSpecs := map parsePackageAndVersionRange ignore in
  filter (fun event => negb (existsb (matchesPackageSpec event) ignoreSpecs))
         timeline.

End Specs.

(** [Math.round(n / 2)] for an integer [n]: halves round up. *)
Definition Math_round_half (n : Z) : Z := (n + 1) / 2.

(** [Math.round(goodBeforeIndex + (badAfterIndex - goodBeforeIndex) / 2)] *)
Definition tryBeforeIndex (goodBeforeIndex badAfterIndex : Z) : Z :=
  Math_round_half (2 * goodBeforeIndex + (badAfterIndex - goodBeforeIndex)).

(** [timeline[i]], [undefined] outside the array. *)
Definition item (timeline : list TimelineEvent) (i : Z) : option TimelineEvent :=
  if i <? 0 then None else nth_error timeline (Z.to_nat i).

(** The two assignments that end an iteration. *)
Definition narrow (works : bool) (goodBeforeIndex badAfterIndex : Z) : Z * Z :=
  let try := tryBeforeIndex goodBeforeIndex badAfterIndex in
  if works then (try, badAfterIndex) else (goodBeforeIndex, try - 1).

Inductive LoopResult : Type :=
  | Exited (goodBeforeIndex badAfterIndex : Z)
  | Rejected      (* an exception ended the run *)
  | OutOfFuel.

Inductive Report : Type :=
  | NoRelevantPackages
  | Culprit (badEvent : TimelineEvent)
  | Failed
  | Unfinished.

Section Bisect.

(** The n-th probe of the run: [installDependencies] with the cutoff
    [ignoreNewerThan], in milliseconds, then [checkWorkingState];
    [None] when either promise is rejected. *)
Variable probe : nat -> Z -> option bool.

Fixpoint searchLoop (fuel : nat) (n : nat) (timeline : list TimelineEvent)
    (goodBeforeIndex badAfterIndex : Z) : LoopResult :=
  if badAfterIndex >? goodBeforeIndex then
    match fuel with
    | O => OutOfFuel
    | S fuel' =>
        match item timeline (tryBeforeIndex goodBeforeIndex badAfterIndex) with
        | None => Rejected
        | Some event =>
            let ignoreNewerThan := time event - 1 in
            match probe n ignoreNewerThan with
            | None => Rejected
            | Some works =>
                let '(g, b) := narrow works goodBeforeIndex badAfterIndex in
                searchLoop fuel' (S n) timeline g b
            end
        end
    end
  else Exited goodBeforeIndex badAfterIndex.

(** The end of the driver, from the test on the empty timeline on. *)
Definition bisect (fuel : nat) (timeline : list TimelineEvent) : Report :=
  match timeline with
  | [] => NoRelevantPackages
  | _ =>
      match searchLoop fuel 0 timeline 0 (Z.of_nat (List.length timeline) - 1) with
      | Exited goodBeforeIndex _ =>
          match item timeline goodBeforeIndex with
          | Some badEvent => Culprit badEvent
          | None => Failed
          end
      | Rejected => Failed
      | OutOfFuel => Unfinished
      end
  end.

End Bisect.

(** The timeline is in ascending order of time. *)
Fixpoint sortedByTime (timeline : list TimelineEvent) : bool :=
  match timeline with
  | [] => true
  | e :: rest =>
      match rest with
      | [] => true
      | e' :: _ => (time e <=? time e') && sortedByTime rest
      end
  end.

(** The oracle of the claim: it works exactly when the cutoff is before
    the publication of the culprit. *)
Definition culpritOracle (culprit : TimelineEvent) : nat -> Z -> option bool :=
  fun _ ignoreNewerThan => Some (ignoreNewerThan <? time culprit).

End Driver.

(** ** Notions used in the statements *)

(** A key the loop deletes: it passes the guard and its date, read in
    the [time] object [tbv], is after the cutoff. *)
Definition isNewer (Date_parse : string -> Date) (variant : Variant)
    (ignoreNewerThan : Date) (tbv : JsObject.t string) (k : string) : bool :=
  isVersionKey variant k &&
  Date_gt (new_Date Date_parse (JsObject.get k tbv)) ignoreNewerThan.

(** The keys of [D.versions]. *)
Definition versionKeys (D : PackageMetadata) : list string :=
  match versions D with
  | Some vs => JsObject.keys vs
  | None => []
  end.

(** [D.time[v]] *)
Definition timeOf (D : PackageMetadata) (v : string) : option string :=
  match time D with
  | Some tbv => JsObject.get v tbv
  | None => None
  end.

(** The invariant of the loop over the keys of [tbv0], with [vs0] the
    initial [obj.versions]: both objects are the initial ones less the
    keys in [deletedVersions], which are all newer than the cutoff. *)
Definition loopInv (Date_parse : string -> Date) (variant : Variant)
    (ignoreNewerThan : Date) (tbv0 vs0 : JsObject.t string)
    (st : LoopState) : Prop :=
  timeByVersion st =
    filter (fun kv => negb (Set_has (fst kv) (deletedVersions st))) tbv0 /\
  objVersions st =
    filter (fun kv => negb (Set_has (fst kv) (deletedVersions st))) vs0 /\
  (forall k, Set_has k (deletedVersions st) = true ->
             isNewer Date_parse variant ignoreNewerThan tbv0 k = true) /\
  changesMade st = negb (Nat.eqb (List.length (deletedVersions st)) 0) /\
  (forall k, latestPreservedVersion st = Some k ->
             isVersionKey variant k = true).

(** [D.versions[v]] *)
Definition versionOf (D : PackageMetadata) (v : string) : option string :=
  match versions D with
  | Some vs => JsObject.get v vs
  | None => None
  end.

(** Every version left in the rewritten document has an entry in its
    [time] map, with a date that is not after the cutoff. *)
Definition keptVersionsAreDated (Date_parse : string -> Date)
    (variant : Variant) (ignoreNewerThan : Date) (D : PackageMetadata) : Prop :=
  let D' := snd (rewriteDocument Date_parse variant ignoreNewerThan D) in
  forall v, In v (versionKeys D') ->
    exists tv, timeOf D' v = Some tv /\
               Date_gt (Date_parse tv) ignoreNewerThan = false.

(** The rewriter leaves the key [k] alone: its entries in [time] and
    [versions] stay as they were, it is not put in [deletedVersions]
    and it is not the [latestPreservedVersion]. *)
Definition leftAlone (Date_parse : string -> Date) (variant : Variant)
    (ignoreNewerThan : Date) (D : PackageMetadata) (k : string) : Prop :=
  let D' := snd (rewriteDocument Date_parse variant ignoreNewerThan D) in
  timeOf D' k = timeOf D k /\
  versionOf D' k = versionOf D k /\
  match time D, versions D with
  | Some tbv, Some vs =>
      let st := versionLoop Date_parse variant ignoreNewerThan tbv vs in
      Set_has k (deletedVersions st) = false /\
      latestPreservedVersion st <> Some k
  | _, _ => True
  end.

(** ** Sample documents *)

Definition sampleCutoff : Date := Date_parse_ISO "2020-01-01T00:00:00.000Z".

(** A document whose [time] map misses one of its versions. *)
Definition sampleUndated : PackageMetadata :=
  mkPackageMetadata (Some "a")
    (Some [("1.0.0", "{}"); ("1.1.0", "{}")])
    (Some [("modified", "2020-03-01T00:00:00.000Z");
           ("created", "2019-01-01T00:00:00.000Z");
           ("1.0.0", "2019-01-01T00:00:00.000Z")])
    (Some (mkDistTags (Some "1.0.0") []))
    [].

(** A document with a version named like one of the registry's own
    keys. *)
Definition sampleOddVersion : PackageMetadata :=
  mkPackageMetadata (Some "a")
    (Some [("1.0.0", "{}"); ("modified", "{}")])
    (Some [("modified", "2020-03-01T00:00:00.000Z");
           ("created", "2019-01-01T00:00:00.000Z");
           ("1.0.0", "2019-01-01T00:00:00.000Z")])
    (Some (mkDistTags (Some "1.0.0") []))
    [].

(** A document with the three spellings of the registry's own keys. *)
Definition sampleReserved : PackageMetadata :=
  mkPackageMetadata (Some "a")
    (Some [("1.0.0", "{}"); ("2.0.0", "{}")])
    (Some [("modified", "2020-03-01T00:00:00.000Z");
           ("created", "2020-02-01T00:00:00.000Z");
           ("changed", "2020-03-01T00:00:00.000Z");
           ("1.0.0", "2019-06-01T00:00:00.000Z");
           ("2.0.0", "2020-03-01T00:00:00.000Z")])
    (Some (mkDistTags (Some "2.0.0") []))
    [].

(** ** Sample timelines *)

Definition event_a : Driver.TimelineEvent :=
  Driver.mkTimelineEvent "a" "1.0.1" 1577923200000. (* 2020-01-02 *)

Definition event_b : Driver.TimelineEvent :=
  Driver.mkTimelineEvent "b" "2.3.0" 1578096000000. (* 2020-01-04 *)

(** Published in the same millisecond as [event_a]. *)
Definition event_c : Driver.TimelineEvent :=
  Driver.mkTimelineEvent "c" "0.9.0" 1577923200000.

(** ** Sample requests and a sample registry *)

(** npm asking for the metadata of lodash. *)
Definition sampleRequest : IncomingMessage :=
  mkIncomingMessage "/lodash" "GET"
    [("host", "registry.npmjs.org");
     ("accept", npmAcceptHeader);
     ("accept-encoding", "gzip");
     ("connection", "keep-alive")]
    true.

(** The answer of the registry in the compact format, without the
    [time] map, and the parsed document. *)
Definition compactResponse : ResponseResult :=
  mkResponseResult 200
    [("content-type", "application/vnd.npm.install-v1+json");
     ("transfer-encoding", "chunked");
     ("connection", "keep-alive")]
    "{compact}".

Definition sampleCompact : PackageMetadata :=
  mkPackageMetadata (Some "a")
    (Some [("1.0.0", "{}"); ("2.0.0", "{}")])
    None
    (Some (mkDistTags (Some "2.0.0") []))
    [].

(** The answer in the full format, parsed as [sampleReserved]. *)
Definition fullResponse : ResponseResult :=
  mkResponseResult 200
    [("content-type", "application/json");
     ("transfer-encoding", "chunked");
     ("connection", "keep-alive")]
    "{full}".

(** A registry that serves the full format when asked for
    [application/json] and the compact one otherwise. *)
Definition sampleNetwork : nat -> UpstreamRequestOptions -> option ResponseResult :=
  fun _ opts =>
    match JsObject.get "accept" (up_headers opts) with
    | Some a =>
        if String.eqb a "application/json" then Some fullResponse
        else Some compactResponse
    | None => Some fullResponse
    end.

Definition sampleParse : string -> option PackageMetadata :=
  fun body =>
    if String.eqb body "{compact}" then Some sampleCompact
    else if String.eqb body "{full}" then Some sampleReserved
    else None.

Definition sampleStringify : PackageMetadata -> string :=
  fun _ => "{rewritten}".

Definition lateCutoff : Date := Date_parse_ISO "2021-01-01T00:00:00.000Z".

(** Every character of the string passes the test. *)
Fixpoint allChars (p : ascii -> bool) (s : string) : bool :=
  match s with
  | EmptyString => true
  | String c s' => p c && allChars p s'
  end.

(** ** More of the proxy: the connect hook *)

(** The keys of an object are distinct. *)
Fixpoint distinctKeys {V : Type} (o : JsObject.t V) : bool :=
  match o with
  | [] => true
  | (k, _) :: o' => negb (JsObject.has k o') && distinctKeys o'
  end.

(** What the [connect] listener does with a socket: [socket.bypass()]
    lets it through to its real destination, otherwise mitm keeps it
    and the request handler serves it. *)
Inductive ConnectAction : Type := Bypassed | Intercepted.

(** The [connect] listener, with the flag [bypassNextConnect] before
    and after. *)
Definition onConnect (variant : Variant) (bypassNextConnect : bool)
    (servername : option string) : ConnectAction * bool :=
  if bypassNextConnect then (Bypassed, false)
  else if isRegistryHostname variant servername then (Intercepted, true)
  else (Bypassed, false).

(** What touches the flag: a connection attempt, or the request
    handler setting [bypassNextConnect = true] before it dials
    upstream. *)
Inductive ProxyEvent : Type :=
  | Connect (servername : option string)
  | Dial.

(** The actions taken on the connections of a sequence of events, and
    the flag at the end. *)
Fixpoint runEvents (variant : Variant) (bypassNextConnect : bool)
    (events : list ProxyEvent) : list ConnectAction * bool :=
  match events with
  | [] => ([], bypassNextConnect)
  | Connect servername :: rest =>
      let '(action, flag) := onConnect variant bypassNextConnect servername in
      let '(actions, final) := runEvents variant flag rest in
      (action :: actions, final)
  | Dial :: rest => runEvents variant true rest
  end.

(** No two neighbours of the list are both [Intercepted]. *)
Fixpoint noTwoIntercepted (actions : list ConnectAction) : bool :=
  match actions with
  | Intercepted :: ((Intercepted :: _) as rest) => false
  | _ :: rest => noTwoIntercepted rest
  | [] => true
  end.

(** ** More of the driver: the candidate timeline *)

Module Candidates.

Import Driver.

(** [time <= badTime] on dates; false when [badTime] is invalid. *)
Definition Date_le (a b : Date) : bool :=
  match a, b with
  | Some x, Some y => x <=? y
  | _, _ => false
  end.

(** [timeline.filter(({ time }) => time > goodTime && time <= badTime)] *)
Definition filterWindow (goodTime badTime : Date)
    (timeline : list TimelineEvent) : list TimelineEvent :=
  filter (fun event => Date_gt (Some (time event)) goodTime &&
                       Date_le (Some (time event)) badTime)
         timeline.

(** The timeline the loop bisects: the window, then [--only], then
    [--ignore] (from the command line or from the prompt). *)
Definition candidateTimeline (semver_satisfies : string -> string -> bool)
    (goodTime badTime : Date) (only ignore : list string)
    (timeline : list TimelineEvent) : list TimelineEvent :=
  filterIgnore semver_satisfies ignore
    (filterOnly semver_satisfies only
       (filterWindow goodTime badTime timeline)).

(** The key of [uniqBy]: the template string of name, [@] and
    version. *)
Definition eventKey (event : TimelineEvent) : string :=
  packageName event ++ String "@" (version event).

(** lodash's [uniqBy]: the first element of each key is kept. *)
Fixpoint uniqByFrom {A : Type} (key : A -> string) (seen : list string)
    (l : list A) : list A :=
  match l with
  | [] => []
  | x :: rest =>
      if Set_has (key x) seen then uniqByFrom key seen rest
      else x :: uniqByFrom key (key x :: seen) rest
  end.

Definition uniqBy {A : Type} (key : A -> string) (l : list A) : list A :=
  uniqByFrom key [] l.

(** The end of [installDependencies] in first-probe mode: the arrays
    read from the JSON files are flattened, sorted by time and made
    unique.  [sort] stands for [Array.prototype.sort] with the
    comparator on the times. *)
Definition collectTimeline
    (sort : list TimelineEvent -> list TimelineEvent)
    (files : list (list TimelineEvent)) : list TimelineEvent :=
  uniqBy eventKey (sort (List.concat files)).

(** An insertion sort by time, to run [collectTimeline] with. *)
Fixpoint insertByTime (e : TimelineEvent) (l : list TimelineEvent)
    : list TimelineEvent :=
  match l with
  | [] => [e]
  | x :: rest =>
      if time e <? time x then e :: l else x :: insertByTime e rest
  end.

Definition sortByTime (l : list TimelineEvent) : list TimelineEvent :=
  fold_right insertByTime [] l.

End Candidates.

(** ** The wrapper of [index.js] *)

Module Wrapper.

(** [s.endsWith(suffix)] *)
Definition endsWith (s suffix : string) : bool :=
  let n := String.length s in
  let m := String.length suffix in
  (m <=? n)%nat && String.eqb (substring (n - m) m s) suffix.

(** The test of the regular expression on an argument: the argument is
    [npm], or ends with [/npm]. *)
Definition isNpm (option : string) : bool :=
  String.eqb option "npm" || endsWith option "/npm".

(** [array.findIndex(p)], [None] for -1. *)
Fixpoint findIndex {A : Type} (p : A -> bool) (l : list A) : option nat :=
  match l with
  | [] => None
  | x :: rest =>
      if p x then Some O else option_map S (findIndex p rest)
  end.

(** How the wrapper ends. *)
Inductive WrapperResult : Type :=
  | NpmNotFound                 (* throws: npm not found in the command line *)
  | TimeMissing                 (* yargs refuses: [--time] is demanded *)
  | InvalidDate (time : string) (* throws: Invalid date *)
  | Spawned (ignoreNewerThan : Z) (command : string) (args : list string).

(** The wrapper from [process.argv] on.  [yargs_time] stands for yargs
    reading the demanded string option [--time] in the arguments before
    npm, [None] when it is missing.  The child is spawned with the
    cutoff in [NPM_BISECT_IGNORE_NEWER_THAN], the command
    [argv[indexOfNpm]] and the arguments after it. *)
Definition runWrapper (Date_parse : string -> Date)
    (yargs_time : list string -> option string) (argv : list string)
    : WrapperResult :=
  match findIndex isNpm argv with
  | None => NpmNotFound
  | Some indexOfNpm =>
      match yargs_time (firstn indexOfNpm argv) with
      | None => TimeMissing
      | Some time =>
          match Date_parse time with
          | None => InvalidDate time
          | Some ignoreNewerThan =>
              Spawned ignoreNewerThan
                (nth indexOfNpm argv EmptyString)
                (skipn (S indexOfNpm) argv)
          end
      end
  end.

End Wrapper.

(** ** More samples *)

Definition event_a_again : Driver.TimelineEvent :=
  Driver.mkTimelineEvent "a" "1.0.1" 1578000000000.

(** What the loop knows about [latestPreservedVersion] after the keys
    [done]: it is one of them, it was not deleted, its date is the one
    remembered, and no key kept so far has a later valid date. *)
Definition latestInv (Date_parse : string -> Date) (variant : Variant)
    (ignoreNewerThan : Date) (tbv0 : JsObject.t string)
    (done : list string) (st : LoopState) : Prop :=
  (forall k, Set_has k (deletedVersions st) = true -> In k done) /\
  (forall k, latestPreservedVersion st = Some k ->
     In k done /\
     isNewer Date_parse variant ignoreNewerThan tbv0 k = false /\
     latestPreservedVersionTime st =
       Some (new_Date Date_parse (JsObject.get k tbv0))) /\
  (latestPreservedVersion st = None ->
     latestPreservedVersionTime st = None /\
     forall k, In k done -> isVersionKey variant k = true ->
       isNewer Date_parse variant ignoreNewerThan tbv0 k = true) /\
  (forall t, latestPreservedVersionTime st = Some (Some t) ->
     forall k t', In k done -> isVersionKey variant k = true ->
       isNewer Date_parse variant ignoreNewerThan tbv0 k = false ->
       new_Date Date_parse (JsObject.get k tbv0) = Some t' -> t' <= t).

(** ** Well-formed documents *)

(** The keys of [D.time]. *)
Definition timeKeys (D : PackageMetadata) : list string :=
  match time D with
  | Some tbv => JsObject.keys tbv
  | None => []
  end.

Definition isSome {A : Type} (x : option A) : bool :=
  match x with
  | Some _ => true
  | None => false
  end.

(** [versions] and [time] list the same versions: every key of
    [versions] passes the guard of the loop and has an entry in [time],
    and every key of [time] that passes the guard is a key of
    [versions]. *)
Definition versionsMatchTime (variant : Variant) (D : PackageMetadata) : bool :=
  forallb (fun v => isSome (timeOf D v) && isVersionKey variant v)
          (versionKeys D) &&
  forallb (fun k => negb (isVersionKey variant k) || isSome (versionOf D k))
          (timeKeys D).

(** A document as the registry serves them. *)
Definition sampleRegularVersions : JsObject.t string :=
  [("1.0.0", "{}"); ("1.1.0", "{}"); ("2.0.0", "{}")].

Definition sampleRegularTime : JsObject.t string :=
  [("modified", "2020-03-01T00:00:00.000Z");
   ("created", "2019-06-01T00:00:00.000Z");
   ("1.0.0", "2019-06-01T00:00:01.000Z");
   ("1.1.0", "2019-09-01T00:00:00.000Z");
   ("2.0.0", "2020-03-01T00:00:00.000Z")].

Definition sampleRegular : PackageMetadata :=
  mkPackageMetadata (Some "a")
    (Some sampleRegularVersions)
    (Some sampleRegularTime)
    (Some (mkDistTags (Some "2.0.0") [("next", "2.0.0")]))
    [("readme", "...")].

Definition earlyCutoff : Date := Date_parse_ISO "2019-01-01T00:00:00.000Z".

(** [D['dist-tags'].latest] *)
Definition latestOf (D : PackageMetadata) : option string :=
  match dist_tags D with
  | Some tags => latest tags
  | None => None
  end.

(** Every key of the [time] map that passes the guard is dated after
    the cutoff: no version is left. *)
Definition allNewer (Date_parse : string -> Date) (variant : Variant)
    (ignoreNewerThan : Date) (tbv : JsObject.t string) : bool :=
  forallb (fun k => negb (isVersionKey variant k) ||
                    isNewer Date_parse variant ignoreNewerThan tbv k)
          (JsObject.keys tbv).

(** A request that is not for the registry. *)
Definition otherRequest : IncomingMessage :=
  mkIncomingMessage "/tarball.tgz" "GET"
    [("host", "example.com:8080");
     ("accept-encoding", "gzip");
     ("connection", "keep-alive")]
    false.

(** The first upstream request of [main.js] for [sampleRequest]. *)
Definition sampleFirstUpstream : UpstreamRequestOptions :=
  upstreamRequestOptions sampleRequest EmptyString
    [("host", "registry.npmjs.org"); ("accept", npmAcceptHeader)]
    (Some "registry.npmjs.org") None.

(** The upstream request of [Part001] for [sampleRequest]. *)
Definition sampleJsonUpstream : UpstreamRequestOptions :=
  upstreamRequestOptions sampleRequest EmptyString
    [("host", "registry.npmjs.org"); ("accept", "application/json")]
    (Some "registry.npmjs.org") None.

Definition sampleReservedTime : JsObject.t string :=
  [("modified", "2020-03-01T00:00:00.000Z");
   ("created", "2020-02-01T00:00:00.000Z");
   ("changed", "2020-03-01T00:00:00.000Z");
   ("1.0.0", "2019-06-01T00:00:00.000Z");
   ("2.0.0", "2020-03-01T00:00:00.000Z")].

(** The server names of the connection attempts, in order. *)
Fixpoint connectsOf (events : list ProxyEvent) : list (option string) :=
  match events with
  | [] => []
  | Connect servername :: rest => servername :: connectsOf rest
  | Dial :: rest => connectsOf rest
  end.

(** The properties of [metadata] that collide with the handler's own:
    [performRequest] spreads [metadata] after [host] and [port], so that
    a [host] or a [port] picked from the options of the client socket
    (or of its agent) replaces the one read in the [host] header.
    [None] is a property the options do not have. *)
Record Metadata : Type := mkMetadata {
  md_host : option string;
  md_port : option nat
}.

(** The [host] and [port] of the object [performRequest] passes to
    [http.request] or [https.request]. *)
Definition requestTarget (metadata : Metadata) (opts : UpstreamRequestOptions)
    : option string * nat :=
  (match md_host metadata with
   | Some h => Some h
   | None => up_host opts
   end,
   match md_port metadata with
   | Some p => p
   | None => up_port opts
   end).

(** The target of the upstream request when the handler reads the
    given [host] header on a socket that is encrypted or not. *)
Definition targetOfRequest (metadata : Metadata) (hostHeader : option string)
    (encrypted : bool) : option string * nat :=
  let '(host, port) := parseHostHeader hostHeader in
  requestTarget metadata
    (upstreamRequestOptions
       (mkIncomingMessage EmptyString EmptyString [] encrypted)
       EmptyString [] host port).

(** ** The older filter of the driver *)

(** [timeline.filter(({ packageName }) => !ignore.includes(packageName))],
    the filter of [npm-bisect.js] before package specs. *)
Definition filterIgnoreNames (ignore : list string)
    (timeline : list Driver.TimelineEvent) : list Driver.TimelineEvent :=
  filter (fun event =>
            negb (existsb (String.eqb (Driver.packageName event)) ignore))
         timeline.

(** An entry that is read as a package name: it has no [@], or it
    begins with one. *)
Definition isPlainName (entry : string) : bool :=
  allChars (fun c => negb (Driver.isAt c)) entry ||
  match entry with
  | String c _ => Driver.isAt c
  | EmptyString => false
  end.

(** A semver implementation for the samples: every version satisfies
    every range. *)
Definition anyVersion : string -> string -> bool := fun _ _ => true.

(** An oracle that always says it works. *)
Definition alwaysWorks : nat -> Z -> option bool := fun _ _ => Some true.

(** A registry that serves a tarball. *)
Definition tarballResponse : ResponseResult :=
  mkResponseResult 200
    [("content-type", "application/octet-stream");
     ("content-length", "9")]
    "<tarball>".

Definition tarballNetwork : nat -> UpstreamRequestOptions -> option ResponseResult :=
  fun _ _ => Some tarballResponse.

(** A parser that rejects every body. *)
Definition failingParse : string -> option PackageMetadata := fun _ => None.

(** A registry request without an [accept] header. *)
Definition noAcceptRequest : IncomingMessage :=
  mkIncomingMessage "/lodash" "GET" [("host", "registry.npmjs.org")] true.

Definition event_underscore : Driver.TimelineEvent :=
  Driver.mkTimelineEvent "underscore" "1.2.4" 1577923200000.

(** ** Samples for longer runs *)

Definition event_d : Driver.TimelineEvent :=
  Driver.mkTimelineEvent "d" "3.0.0" 1578200000000.

(** Four events in ascending order of time. *)
Definition sampleTimeline : list Driver.TimelineEvent :=
  [event_a; event_a_again; event_b; event_d].

(** A compact document that lists one version only. *)
Definition sampleCompactOld : PackageMetadata :=
  mkPackageMetadata (Some "a")
    (Some [("1.0.0", "{}")])
    None
    (Some (mkDistTags (Some "1.0.0") []))
    [].

(** A reader of [--time value] for the samples: the argument after the
    first [--time]. *)
Fixpoint sampleYargsTime (args : list string) : option string :=
  match args with
  | [] => None
  | a :: rest =>
      if String.eqb a "--time"
      then match rest with
           | v :: _ => Some v
           | [] => Some EmptyString
           end
      else sampleYargsTime rest
  end.

Definition sampleArgv : list string :=
  ["/usr/bin/node"; "/usr/lib/npm-bisect/index.js"; "--time";
   "2020-01-01T00:00:00.000Z"; "/usr/bin/npm"; "install"; "--no-audit"].

(** The options of a client socket that name their own target. *)
Definition socketTarget : Metadata :=
  mkMetadata (Some "104.16.0.35") (Some 443%nat).

Definition noSocketTarget : Metadata := mkMetadata None None.

(* ================================================================== *)
(** * Part II: lemmas and theorems                                     *)
(* ================================================================== *)

(** ** Objects *)

Lemma filter_filter_and {A : Type} (f g : A -> bool) (l : list A) :
  filter g (filter f l) = filter (fun x => f x && g x) l.
Proof.
  induction l as [|x l IH]; simpl; [reflexivity|].
  destruct (f x); simpl; [destruct (g x)|]; rewrite IH; reflexivity.
Qed.

Lemma filter_all_true {A : Type} (f : A -> bool) (l : list A) :
  (forall x, In x l -> f x = true) -> filter f l = l.
Proof.
  induction l as [|x l IH]; simpl; intros H; [reflexivity|].
  rewrite (H x (or_introl eq_refl)), IH; [reflexivity|].
  intros y Hy. apply H. right. exact Hy.
Qed.

Module JsObjectFacts.
Import JsObject.

Lemma get_filter {V : Type} (p : string -> bool) (k : string) (o : t V) :
  get k (filter (fun kv => p (fst kv)) o) = if p k then get k o else None.
Proof.
  induction o as [|[k' v] o IH]; simpl.
  - destruct (p k); reflexivity.
  - destruct (String.eqb_spec k k') as [->|Hne].
    + destruct (p k') eqn:Hp; simpl.
      * rewrite String.eqb_refl. reflexivity.
      * exact IH.
    + destruct (p k'); simpl; [|exact IH].
      destruct (String.eqb_spec k k'); [contradiction|exact IH].
Qed.

Lemma get_delete {V : Type} (k k' : string) (o : t V) :
  get k (delete k' o) = if String.eqb k' k then None else get k o.
Proof.
  unfold delete.
  rewrite (get_filter (fun x => negb (String.eqb k' x))).
  destruct (String.eqb k' k); reflexivity.
Qed.

Lemma get_set {V : Type} (k k' : string) (v : V) (o : t V) :
  get k (set k' v o) = if String.eqb k k' then Some v else get k o.
Proof.
  induction o as [|[k0 v0] o IH]; simpl.
  - reflexivity.
  - destruct (String.eqb_spec k' k0) as [->|Hne]; simpl.
    + destruct (String.eqb k k0); reflexivity.
    + rewrite IH. destruct (String.eqb_spec k k0) as [->|Hne'].
      * destruct (String.eqb_spec k0 k'); [congruence|reflexivity].
      * reflexivity.
Qed.

Lemma get_Some_In {V : Type} (k : string) (v : V) (o : t V) :
  get k o = Some v -> In k (keys o).
Proof.
  induction o as [|[k' v'] o IH]; simpl; [discriminate|].
  destruct (String.eqb_spec k k') as [->|Hne]; intros H; [left; reflexivity|].
  right. apply IH. exact H.
Qed.

Lemma In_get_Some {V : Type} (k : string) (o : t V) :
  In k (keys o) -> exists v, get k o = Some v.
Proof.
  induction o as [|[k' v'] o IH]; simpl; [contradiction|].
  intros [->|H].
  - rewrite String.eqb_refl. eauto.
  - destruct (String.eqb k k'); eauto.
Qed.

Lemma In_keys_filter {V : Type} (p : string -> bool) (k : string) (o : t V) :
  In k (keys (filter (fun kv => p (fst kv)) o)) <-> In k (keys o) /\ p k = true.
Proof.
  unfold keys. rewrite !in_map_iff. split.
  - intros [[k' v] [Hk Hin]]. simpl in Hk. subst k'.
    apply filter_In in Hin. destruct Hin as [Hin Hp]. split; [|exact Hp].
    exists (k, v). split; [reflexivity|exact Hin].
  - intros [[[k' v] [Hk Hin]] Hp]. simpl in Hk. subst k'.
    exists (k, v). split; [reflexivity|]. apply filter_In. split; assumption.
Qed.

End JsObjectFacts.

Lemma Set_has_add (x k : string) (s : list string) :
  Set_has x (Set_add k s) = String.eqb x k || Set_has x s.
Proof.
  unfold Set_add. destruct (Set_has k s) eqn:Hk.
  - destruct (String.eqb_spec x k) as [->|]; [rewrite Hk|]; reflexivity.
  - unfold Set_has. rewrite existsb_app. simpl.
    rewrite orb_false_r. apply orb_comm.
Qed.

Lemma Set_add_not_nil (k : string) (s : list string) : Set_add k s <> [].
Proof.
  unfold Set_add. destruct (Set_has k s) eqn:Hk.
  - destruct s; [discriminate|discriminate].
  - destruct s; discriminate.
Qed.

(** ** The loop of the rewriter *)

Section VersionLoop.

Variable Date_parse : string -> Date.
Variable variant : Variant.
Variable C : Date.
Variables tbv0 vs0 : JsObject.t string.

Local Abbreviation newer := (isNewer Date_parse variant C tbv0).
Local Abbreviation Inv := (loopInv Date_parse variant C tbv0 vs0).
Local Abbreviation body := (loopBody Date_parse variant C).

Lemma newer_In_keys (k : string) : newer k = true -> In k (JsObject.keys tbv0).
Proof.
  unfold isNewer. intros H. apply andb_prop in H. destruct H as [_ H].
  destruct (JsObject.get k tbv0) as [v|] eqn:Hg.
  - eapply JsObjectFacts.get_Some_In. exact Hg.
  - simpl in H. discriminate.
Qed.

Lemma initLoop_inv : Inv (initLoop tbv0 vs0).
Proof.
  unfold loopInv, initLoop; simpl. repeat split.
  - symmetry. apply filter_all_true. reflexivity.
  - symmetry. apply filter_all_true. reflexivity.
  - discriminate.
  - discriminate.
Qed.

Lemma delete_filter_deleted (k : string) (d : list string) (o : JsObject.t string) :
  JsObject.delete k (filter (fun kv => negb (Set_has (fst kv) d)) o) =
  filter (fun kv => negb (Set_has (fst kv) (Set_add k d))) o.
Proof.
  unfold JsObject.delete. rewrite filter_filter_and.
  apply filter_ext. intros [k' v]. simpl.
  rewrite Set_has_add, negb_orb, (String.eqb_sym k' k). apply andb_comm.
Qed.

Lemma loopBody_inv (st : LoopState) (k : string) :
  Inv st ->
  Inv (body st k) /\
  (newer k = true -> Set_has k (deletedVersions (body st k)) = true) /\
  (forall k', Set_has k' (deletedVersions st) = true ->
              Set_has k' (deletedVersions (body st k)) = true).
Proof.
  intros (Ht & Hv & Hd & Hc & Hl).
  unfold loopBody.
  destruct (isVersionKey variant k) eqn:Hk.
  2:{ split; [repeat split; assumption|]. split; [|auto].
      unfold isNewer. rewrite Hk. discriminate. }
  assert (Hget : JsObject.get k (timeByVersion st) =
                 if Set_has k (deletedVersions st) then None
                 else JsObject.get k tbv0).
  { rewrite Ht at 1.
    rewrite (JsObjectFacts.get_filter
               (fun x => negb (Set_has x (deletedVersions st)))).
    destruct (Set_has k (deletedVersions st)); reflexivity. }
  rewrite Hget.
  destruct (Set_has k (deletedVersions st)) eqn:Hin; simpl.
  - (* the key was deleted before: its date is now invalid *)
    destruct (isLater None (latestPreservedVersionTime st)); simpl.
    + split; [|auto]. repeat split; try assumption.
      simpl. intros k' Hk'. injection Hk' as <-. exact Hk.
    + split; [repeat split; assumption|auto].
  - destruct (Date_gt (new_Date Date_parse (JsObject.get k tbv0)) C) eqn:Hgt.
    + split; [|split].
      * unfold loopInv; simpl. repeat split.
        -- rewrite Ht at 1. apply delete_filter_deleted.
        -- rewrite Hv at 1. apply delete_filter_deleted.
        -- intros k'. rewrite Set_has_add. intros Hk'.
           apply orb_prop in Hk'. destruct Hk' as [Heq|Hk'].
           ++ apply String.eqb_eq in Heq. subst k'.
              unfold isNewer. rewrite Hk, Hgt. reflexivity.
           ++ apply Hd. exact Hk'.
        -- pose proof (Set_add_not_nil k (deletedVersions st)) as Hnn.
           destruct (Set_add k (deletedVersions st)); [contradiction|reflexivity].
        -- exact Hl.
      * intros _. simpl. rewrite Set_has_add, String.eqb_refl. reflexivity.
      * intros k' Hk'. simpl. rewrite Set_has_add, Hk'. apply orb_true_r.
    + assert (Hn : newer k = true -> False).
      { unfold isNewer. rewrite Hk, Hgt. discriminate. }
      destruct (isLater _ (latestPreservedVersionTime st)); simpl.
      * split; [|split; [intros H; destruct (Hn H)|auto]].
        repeat split; try assumption.
        simpl. intros k' Hk'. injection Hk' as <-. exact Hk.
      * split; [repeat split; assumption|].
        split; [intros H; destruct (Hn H)|auto].
Qed.

Lemma fold_loopBody_inv (ks : list string) :
  forall st, Inv st ->
  Inv (fold_left body ks st) /\
  (forall k, In k ks -> newer k = true ->
             Set_has k (deletedVersions (fold_left body ks st)) = true) /\
  (forall k', Set_has k' (deletedVersions st) = true ->
              Set_has k' (deletedVersions (fold_left body ks st)) = true).
Proof.
  induction ks as [|k ks IH]; simpl; intros st HI.
  - split; [exact HI|]. split; [contradiction|auto].
  - destruct (loopBody_inv st k HI) as (HI1 & Hk1 & Hmono1).
    destruct (IH _ HI1) as (HI2 & Hks & Hmono2).
    split; [exact HI2|]. split.
    + intros k' [<-|Hin] Hn.
      * apply Hmono2. apply Hk1. exact Hn.
      * apply Hks; assumption.
    + intros k' Hk'. apply Hmono2. apply Hmono1. exact Hk'.
Qed.

(** What the loop leaves behind, in closed form. *)
Lemma versionLoop_spec :
  let st := versionLoop Date_parse variant C tbv0 vs0 in
  timeByVersion st = filter (fun kv => negb (newer (fst kv))) tbv0 /\
  objVersions st = filter (fun kv => negb (newer (fst kv))) vs0 /\
  (forall k, Set_has k (deletedVersions st) = newer k) /\
  changesMade st = existsb newer (JsObject.keys tbv0) /\
  (forall k, latestPreservedVersion st = Some k ->
             isVersionKey variant k = true).
Proof.
  intros st.
  destruct (fold_loopBody_inv (JsObject.keys tbv0) _ initLoop_inv)
    as ((Ht & Hv & Hd & Hc & Hl) & Hcov & _).
  fold (versionLoop Date_parse variant C tbv0 vs0) in *. fold st in Ht, Hv, Hd, Hc, Hl, Hcov.
  assert (Hhas : forall k, Set_has k (deletedVersions st) = newer k).
  { intros k. destruct (newer k) eqn:Hn.
    - apply Hcov; [apply newer_In_keys|]; exact Hn.
    - destruct (Set_has k (deletedVersions st)) eqn:Hs; [|reflexivity].
      rewrite (Hd k Hs) in Hn. discriminate. }
  split; [|split; [|split; [exact Hhas|split; [|exact Hl]]]].
  - rewrite Ht. apply filter_ext. intros kv. rewrite Hhas. reflexivity.
  - rewrite Hv. apply filter_ext. intros kv. rewrite Hhas. reflexivity.
  - rewrite Hc. destruct (deletedVersions st) as [|d ds] eqn:Hds; simpl.
    + symmetry. apply not_true_is_false. intros Hex.
      apply existsb_exists in Hex. destruct Hex as (k & _ & Hn).
      rewrite <- Hhas in Hn. discriminate.
    + symmetry. apply existsb_exists. exists d.
      assert (Hn : newer d = true).
      { rewrite <- Hhas. simpl. rewrite String.eqb_refl. reflexivity. }
      split; [apply newer_In_keys|]; exact Hn.
Qed.

End VersionLoop.

(** ** The rewriter *)

Section Rewriter.

Variable Date_parse : string -> Date.
Variable variant : Variant.

Local Abbreviation remove := (removeVersionsFromPackageMetadata Date_parse variant).
Local Abbreviation rewrite_ := (rewriteDocument Date_parse variant).
Local Abbreviation newer := (isNewer Date_parse variant).

(** Without a [time] object or without [versions] nothing happens. *)
Lemma remove_missing (C : Date) (s : Store) (r : TimeRef) :
  deref r s = None \/ versions (obj s) = None -> remove C s r = (false, s).
Proof.
  unfold removeVersionsFromPackageMetadata.
  intros [H|H]; rewrite H; [reflexivity|].
  destruct (deref r s); reflexivity.
Qed.

Lemma remove_spec (C : Date) (s : Store) (r : TimeRef)
    (tbv vs : JsObject.t string) :
  deref r s = Some tbv -> versions (obj s) = Some vs ->
  fst (remove C s r) = existsb (newer C tbv) (JsObject.keys tbv) /\
  deref r (snd (remove C s r)) =
    Some (filter (fun kv => negb (newer C tbv (fst kv))) tbv) /\
  versions (obj (snd (remove C s r))) =
    Some (filter (fun kv => negb (newer C tbv (fst kv))) vs).
Proof.
  intros Hr Hv. unfold removeVersionsFromPackageMetadata. rewrite Hr, Hv.
  destruct (versionLoop_spec Date_parse variant C tbv vs)
    as (Ht & Hvs & _ & Hc & _).
  cbv zeta in Ht, Hvs, Hc. simpl fst. simpl snd.
  split; [exact Hc|].
  rewrite <- Ht, <- Hvs.
  destruct (latestWasDeleted _ _); destruct r; simpl;
    unfold setLatest; simpl; destruct (dist_tags (obj s)); simpl; auto.
Qed.

(** A second look at the same object finds nothing newer. *)
Lemma newer_after_filter (C : Date) (tbv : JsObject.t string) (k : string) :
  newer C (filter (fun kv => negb (newer C tbv (fst kv))) tbv) k = false.
Proof.
  unfold isNewer at 1.
  rewrite (JsObjectFacts.get_filter (fun x => negb (newer C tbv x))).
  destruct (newer C tbv k) eqn:Hn; simpl.
  - apply andb_false_r.
  - exact Hn.
Qed.

Lemma remove_noop (C : Date) (s : Store) (r : TimeRef)
    (tbv vs : JsObject.t string) :
  deref r s = Some tbv -> versions (obj s) = Some vs ->
  (forall k, newer C tbv k = false) ->
  remove C s r = (false, s).
Proof.
  intros Hr Hv Hn. unfold removeVersionsFromPackageMetadata. rewrite Hr, Hv.
  destruct (versionLoop_spec Date_parse variant C tbv vs)
    as (Ht & Hvs & _ & Hc & _).
  cbv zeta in Ht, Hvs, Hc.
  assert (Hc' : changesMade (versionLoop Date_parse variant C tbv vs) = false).
  { rewrite Hc. apply not_true_is_false. intros Hex.
    apply existsb_exists in Hex. destruct Hex as (k & _ & Hk).
    rewrite Hn in Hk. discriminate. }
  rewrite filter_all_true in Ht by (intros kv _; rewrite Hn; reflexivity).
  rewrite filter_all_true in Hvs by (intros kv _; rewrite Hn; reflexivity).
  cbv zeta. unfold latestWasDeleted. rewrite Hc'. simpl.
  f_equal. unfold writeBack. rewrite Ht, Hvs.
  destruct s as [o f]. destruct o as [n v t d x]. simpl in *.
  destruct r; simpl in *; subst; reflexivity.
Qed.

(** Running the rewriter again on what it left changes nothing. *)
Lemma remove_twice (C : Date) (s : Store) (r : TimeRef) :
  remove C (snd (remove C s r)) r = (false, snd (remove C s r)).
Proof.
  destruct (deref r s) as [tbv|] eqn:Hr.
  2:{ rewrite (remove_missing C s r) by (left; exact Hr). simpl.
      apply remove_missing. left. exact Hr. }
  destruct (versions (obj s)) as [vs|] eqn:Hv.
  2:{ rewrite (remove_missing C s r) by (right; exact Hv). simpl.
      apply remove_missing. right. exact Hv. }
  destruct (remove_spec C s r tbv vs Hr Hv) as (_ & Hr' & Hv').
  eapply remove_noop; [exact Hr'|exact Hv'|].
  intros k. apply newer_after_filter.
Qed.

Lemma rewriteDocument_remove (C : Date) (D : PackageMetadata) :
  rewrite_ C D =
  (fst (remove C (mkStore D None) ObjTime),
   obj (snd (remove C (mkStore D None) ObjTime))).
Proof.
  unfold rewriteDocument.
  destruct (remove C (mkStore D None) ObjTime). reflexivity.
Qed.

Lemma remove_ObjTime_store (C : Date) (D : PackageMetadata) :
  fullMetadataTime (snd (remove C (mkStore D None) ObjTime)) = None.
Proof.
  unfold removeVersionsFromPackageMetadata. simpl.
  destruct (time D); [|reflexivity].
  destruct (versions D); [|reflexivity].
  simpl. destruct (latestWasDeleted _ _); reflexivity.
Qed.

Lemma rewriteDocument_missing (C : Date) (D : PackageMetadata) :
  time D = None \/ versions D = None -> rewrite_ C D = (false, D).
Proof.
  intros H. rewrite rewriteDocument_remove.
  rewrite remove_missing by exact H. reflexivity.
Qed.

Lemma rewriteDocument_spec (C : Date) (D : PackageMetadata)
    (tbv vs : JsObject.t string) :
  time D = Some tbv -> versions D = Some vs ->
  fst (rewrite_ C D) = existsb (newer C tbv) (JsObject.keys tbv) /\
  time (snd (rewrite_ C D)) =
    Some (filter (fun kv => negb (newer C tbv (fst kv))) tbv) /\
  versions (snd (rewrite_ C D)) =
    Some (filter (fun kv => negb (newer C tbv (fst kv))) vs).
Proof.
  intros Ht Hv. rewrite rewriteDocument_remove. simpl.
  exact (remove_spec C (mkStore D None) ObjTime tbv vs Ht Hv).
Qed.

End Rewriter.

(** ** Properties of the rewritten document *)

(** A key the guard of the loop skips is left alone, whatever its
    value. *)
Lemma guarded_key_leftAlone (Date_parse : string -> Date) (variant : Variant)
    (C : Date) (D : PackageMetadata) (k : string) :
  isVersionKey variant k = false -> leftAlone Date_parse variant C D k.
Proof.
  intros Hk. unfold leftAlone. cbv zeta.
  assert (Hn : forall tbv, isNewer Date_parse variant C tbv k = false).
  { intros tbv. unfold isNewer. rewrite Hk. reflexivity. }
  destruct (time D) as [tbv|] eqn:Ht.
  2:{ rewrite rewriteDocument_missing by (left; exact Ht). simpl. auto. }
  destruct (versions D) as [vs|] eqn:Hv.
  2:{ rewrite rewriteDocument_missing by (right; exact Hv). simpl. auto. }
  destruct (rewriteDocument_spec Date_parse variant C D tbv vs Ht Hv)
    as (_ & Ht' & Hv').
  unfold timeOf, versionOf. rewrite Ht', Hv', Ht, Hv.
  rewrite !(JsObjectFacts.get_filter
              (fun x => negb (isNewer Date_parse variant C tbv x))).
  rewrite Hn. simpl. split; [reflexivity|]. split; [reflexivity|].
  destruct (versionLoop_spec Date_parse variant C tbv vs)
    as (_ & _ & Hd & _ & Hl).
  cbv zeta in Hd, Hl. split.
  - rewrite Hd. apply Hn.
  - intros Hlk. apply Hl in Hlk. congruence.
Qed.

(** C2, as amended.  After the rewrite, a version key left in
    [versions] that the [time] map dated before the rewrite, and that
    passes the guard of the loop, still has its entry in [time], and the
    date is not after the cutoff.  (A version the [time] map does not
    list stays in [versions] with no entry at all.) *)
Theorem kept_versions_not_newer (Date_parse : string -> Date)
    (variant : Variant) (C : Date) (D : PackageMetadata) (v tv : string) :
  In v (versionKeys (snd (rewriteDocument Date_parse variant C D))) ->
  isVersionKey variant v = true ->
  timeOf D v = Some tv ->
  timeOf (snd (rewriteDocument Date_parse variant C D)) v = Some tv /\
  Date_gt (Date_parse tv) C = false.
Proof.
  intros Hin Hk Htv.
  destruct (time D) as [tbv|] eqn:Ht.
  2:{ unfold timeOf in Htv. rewrite Ht in Htv. discriminate. }
  destruct (versions D) as [vs|] eqn:Hv.
  2:{ rewrite rewriteDocument_missing in Hin by (right; exact Hv).
      unfold versionKeys in Hin. simpl in Hin. rewrite Hv in Hin.
      contradiction. }
  destruct (rewriteDocument_spec Date_parse variant C D tbv vs Ht Hv)
    as (_ & Ht' & Hv').
  unfold versionKeys in Hin. rewrite Hv' in Hin.
  apply (JsObjectFacts.In_keys_filter
           (fun x => negb (isNewer Date_parse variant C tbv x))) in Hin.
  destruct Hin as [_ Hn]. apply negb_true_iff in Hn.
  unfold timeOf in *. rewrite Ht in Htv. rewrite Ht'.
  rewrite (JsObjectFacts.get_filter
             (fun x => negb (isNewer Date_parse variant C tbv x))).
  rewrite Hn. simpl. split; [exact Htv|].
  unfold isNewer in Hn. rewrite Hk, Htv in Hn. exact Hn.
Qed.

Lemma kept_versions_not_newer_witness :
  timeOf (snd (rewriteDocument Date_parse_ISO Part001 sampleCutoff sampleReserved))
         "1.0.0" = Some "2019-06-01T00:00:00.000Z" /\
  Date_gt (Date_parse_ISO "2019-06-01T00:00:00.000Z") sampleCutoff = false.
Proof.
  apply (kept_versions_not_newer Date_parse_ISO Part001 sampleCutoff
           sampleReserved "1.0.0" "2019-06-01T00:00:00.000Z").
  - vm_compute. left. reflexivity.
  - reflexivity.
  - reflexivity.
Defined.

(** C2 as stated fails: version 1.1.0 of the first sample document has
    no entry in the [time] map, and the rewriter keeps it, undated; in
    the second one the key [modified] of [versions] is kept although
    [time.modified] is after the cutoff. *)
Lemma kept_version_without_time :
  ~ keptVersionsAreDated Date_parse_ISO Part001 sampleCutoff sampleUndated /\
  ~ keptVersionsAreDated Date_parse_ISO Part001 sampleCutoff sampleOddVersion.
Proof.
  split; intros H.
  - destruct (H "1.1.0") as (tv & Htv & _).
    + vm_compute. right. left. reflexivity.
    + vm_compute in Htv. discriminate.
  - destruct (H "modified") as (tv & Htv & Hgt).
    + vm_compute. right. left. reflexivity.
    + vm_compute in Htv. injection Htv as <-.
      vm_compute in Hgt. discriminate.
Qed.

(** C3, as amended.  The key [modified], in every revision, and the key
    [created], in the two later revisions, are left alone by the
    rewriter whatever their values: their entries in [time] and
    [versions] stay, they are not in [deletedVersions] and they are not
    selected as the latest preserved version. *)
Theorem reserved_keys_left_alone (Date_parse : string -> Date)
    (variant : Variant) (C : Date) (D : PackageMetadata) (k : string) :
  k = "modified" \/ (k = "created" /\ variant <> MainJs) ->
  leftAlone Date_parse variant C D k.
Proof.
  intros H. apply guarded_key_leftAlone.
  destruct H as [->|[-> Hv]].
  - destruct variant; reflexivity.
  - destruct variant; [contradiction|reflexivity|reflexivity].
Qed.

Lemma reserved_keys_left_alone_witness :
  leftAlone Date_parse_ISO Part001 sampleCutoff sampleReserved "created".
Proof.
  apply (reserved_keys_left_alone Date_parse_ISO Part001 sampleCutoff
           sampleReserved "created").
  right. split; [reflexivity|discriminate].
Defined.

(** C3 as stated fails: no revision guards all three keys.  With a date
    after the cutoff, the later revisions delete [changed] from the
    [time] map, and [main.js] deletes [created]. *)
Lemma third_reserved_key_deleted :
  ~ leftAlone Date_parse_ISO Part001 sampleCutoff sampleReserved "changed" /\
  ~ leftAlone Date_parse_ISO Part002 sampleCutoff sampleReserved "changed" /\
  ~ leftAlone Date_parse_ISO MainJs sampleCutoff sampleReserved "created".
Proof.
  repeat split; intros (Ht & _); vm_compute in Ht; discriminate.
Qed.

(** C5.  Rewriting the rewritten document again, with the same cutoff,
    leaves it as it is and returns [false]. *)
Theorem rewrite_idempotent (Date_parse : string -> Date) (variant : Variant)
    (C : Date) (D : PackageMetadata) :
  rewriteDocument Date_parse variant C
    (snd (rewriteDocument Date_parse variant C D)) =
  (false, snd (rewriteDocument Date_parse variant C D)).
Proof.
  rewrite (rewriteDocument_remove Date_parse variant C D). simpl.
  rewrite rewriteDocument_remove.
  pose proof (remove_twice Date_parse variant C (mkStore D None) ObjTime) as H.
  pose proof (remove_ObjTime_store Date_parse variant C D) as Hf.
  destruct (snd (removeVersionsFromPackageMetadata Date_parse variant C
                   (mkStore D None) ObjTime)) as [D1 f1].
  simpl in Hf. subst f1. simpl. rewrite H. reflexivity.
Qed.

(** C6.  With an earlier cutoff the rewriter keeps no version that it
    does not keep with a later one. *)
Theorem preserved_versions_monotone (Date_parse : string -> Date)
    (variant : Variant) (D : PackageMetadata) (C1 C2 : Z) :
  C1 < C2 ->
  incl (versionKeys (snd (rewriteDocument Date_parse variant (Some C1) D)))
       (versionKeys (snd (rewriteDocument Date_parse variant (Some C2) D))).
Proof.
  intros Hlt v Hin.
  destruct (time D) as [tbv|] eqn:Ht.
  2:{ rewrite rewriteDocument_missing in * by (left; exact Ht). exact Hin. }
  destruct (versions D) as [vs|] eqn:Hv.
  2:{ rewrite rewriteDocument_missing in * by (right; exact Hv). exact Hin. }
  destruct (rewriteDocument_spec Date_parse variant (Some C1) D tbv vs Ht Hv)
    as (_ & _ & Hv1).
  destruct (rewriteDocument_spec Date_parse variant (Some C2) D tbv vs Ht Hv)
    as (_ & _ & Hv2).
  unfold versionKeys in *. rewrite Hv1 in Hin. rewrite Hv2.
  apply (JsObjectFacts.In_keys_filter
           (fun x => negb (isNewer Date_parse variant (Some C1) tbv x))) in Hin.
  apply (JsObjectFacts.In_keys_filter
           (fun x => negb (isNewer Date_parse variant (Some C2) tbv x))).
  destruct Hin as [Hin Hn]. split; [exact Hin|].
  apply negb_true_iff in Hn. apply negb_true_iff.
  unfold isNewer in *. destruct (isVersionKey variant v); [simpl in *|reflexivity].
  destruct (new_Date Date_parse (JsObject.get v tbv)) as [t|]; [simpl in *|reflexivity].
  rewrite Z.gtb_ltb in Hn |- *.
  apply Z.ltb_ge in Hn. apply Z.ltb_ge. lia.
Qed.

Lemma preserved_versions_monotone_witness :
  incl (versionKeys (snd (rewriteDocument Date_parse_ISO Part001
                            (Some 1577836800000) sampleReserved)))
       (versionKeys (snd (rewriteDocument Date_parse_ISO Part001
                            (Some 1590000000000) sampleReserved))).
Proof.
  apply (preserved_versions_monotone Date_parse_ISO Part001 sampleReserved
           1577836800000 1590000000000).
  lia.
Defined.

(** ** The bisection loop *)

Section Bisection.

Import Driver.

Lemma tryBeforeIndex_between (g b : Z) :
  b > g -> g < tryBeforeIndex g b <= b.
Proof.
  intros H. unfold tryBeforeIndex, Math_round_half.
  Z.to_euclidean_division_equations. lia.
Qed.

Lemma narrow_shrinks (works : bool) (g b : Z) :
  b > g ->
  g <= fst (narrow works g b) /\
  fst (narrow works g b) <= snd (narrow works g b) /\
  snd (narrow works g b) <= b /\
  snd (narrow works g b) - fst (narrow works g b) < b - g.
Proof.
  intros H. pose proof (tryBeforeIndex_between g b H) as Ht.
  unfold narrow. destruct works; simpl; lia.
Qed.

Lemma searchLoop_terminates (probe : nat -> Z -> option bool)
    (timeline : list TimelineEvent) (fuel : nat) :
  forall n g b, b - g <= Z.of_nat fuel ->
  searchLoop probe fuel n timeline g b <> OutOfFuel.
Proof.
  induction fuel as [|fuel IH]; intros n g b Hf; simpl.
  - destruct (b >? g) eqn:Hbg; [|discriminate].
    apply Z.gtb_lt in Hbg. lia.
  - destruct (b >? g) eqn:Hbg; [|discriminate].
    apply Z.gtb_lt in Hbg.
    destruct (item timeline (tryBeforeIndex g b)); [|discriminate].
    destruct (probe n (time t - 1)) as [works|]; [|discriminate].
    pose proof (narrow_shrinks works g b ltac:(lia)) as Hs.
    destruct (narrow works g b) as [g' b']. simpl in Hs.
    apply IH. lia.
Qed.

(** Once the loop has ended, more fuel changes nothing. *)
Lemma searchLoop_more_fuel (probe : nat -> Z -> option bool)
    (timeline : list TimelineEvent) (fuel : nat) :
  forall extra n g b,
  searchLoop probe fuel n timeline g b <> OutOfFuel ->
  searchLoop probe (fuel + extra) n timeline g b =
  searchLoop probe fuel n timeline g b.
Proof.
  induction fuel as [|fuel IH]; intros extra n g b Hne.
  - simpl in Hne. destruct extra as [|extra]; [reflexivity|]. simpl.
    destruct (b >? g); [contradiction|reflexivity].
  - simpl in *. destruct (b >? g); [|reflexivity].
    destruct (item timeline (tryBeforeIndex g b)); [|reflexivity].
    destruct (probe n (time t - 1)) as [works|]; [|reflexivity].
    destruct (narrow works g b) as [g' b']. apply IH. exact Hne.
Qed.

Lemma item_Some (timeline : list TimelineEvent) (i : Z) :
  0 <= i < Z.of_nat (List.length timeline) ->
  exists e, item timeline i = Some e.
Proof.
  intros H. unfold item.
  destruct (i <? 0) eqn:Hi; [apply Z.ltb_lt in Hi; lia|].
  destruct (nth_error timeline (Z.to_nat i)) as [e|] eqn:He; [eauto|].
  apply nth_error_None in He. lia.
Qed.

Lemma item_range (timeline : list TimelineEvent) (i : Z) (e : TimelineEvent) :
  item timeline i = Some e -> 0 <= i < Z.of_nat (List.length timeline).
Proof.
  unfold item. destruct (i <? 0) eqn:Hi; [discriminate|].
  apply Z.ltb_ge in Hi. intros H.
  assert (Hn : nth_error timeline (Z.to_nat i) <> None) by congruence.
  apply nth_error_Some in Hn. lia.
Qed.

Lemma sorted_head_le (e : TimelineEvent) (rest : list TimelineEvent) :
  sortedByTime (e :: rest) = true ->
  forall e', In e' rest -> time e <= time e'.
Proof.
  revert e. induction rest as [|x rest IH]; intros e Hs e' Hin.
  - contradiction.
  - simpl in Hs. apply andb_prop in Hs. destruct Hs as [Hle Hs].
    apply Z.leb_le in Hle. destruct Hin as [<-|Hin]; [exact Hle|].
    specialize (IH x Hs e' Hin). lia.
Qed.

Lemma sorted_tail (e : TimelineEvent) (rest : list TimelineEvent) :
  sortedByTime (e :: rest) = true -> sortedByTime rest = true.
Proof.
  simpl. destruct rest; [reflexivity|].
  intros H. apply andb_prop in H. apply H.
Qed.

Lemma sorted_nth (timeline : list TimelineEvent) :
  sortedByTime timeline = true ->
  forall (i j : nat) ei ej, (i <= j)%nat ->
    nth_error timeline i = Some ei -> nth_error timeline j = Some ej ->
    time ei <= time ej.
Proof.
  induction timeline as [|e rest IH]; intros Hs i j ei ej Hij Hi Hj.
  - destruct i; discriminate.
  - destruct i as [|i]; destruct j as [|j]; simpl in Hi, Hj.
    + injection Hi as <-. injection Hj as <-. lia.
    + injection Hi as <-. apply (sorted_head_le e rest Hs).
      eapply nth_error_In. exact Hj.
    + lia.
    + apply (IH (sorted_tail e rest Hs) i j); [lia|assumption|assumption].
Qed.

Lemma sorted_item (timeline : list TimelineEvent) :
  sortedByTime timeline = true ->
  forall i j ei ej, i <= j ->
    item timeline i = Some ei -> item timeline j = Some ej ->
    time ei <= time ej.
Proof.
  intros Hs i j ei ej Hij Hi Hj.
  pose proof (item_range _ _ _ Hi) as Ri.
  pose proof (item_range _ _ _ Hj) as Rj.
  unfold item in Hi, Hj.
  destruct (i <? 0); [discriminate|]. destruct (j <? 0); [discriminate|].
  apply (sorted_nth timeline Hs (Z.to_nat i) (Z.to_nat j)); [lia|assumption|assumption].
Qed.

(** The loop under the oracle of a culprit published at [T]: the
    bounds close in on the last event published at or before [T]. *)
Lemma searchLoop_culprit (probe : nat -> Z -> option bool)
    (timeline : list TimelineEvent) (T : Z) :
  sortedByTime timeline = true ->
  (forall n t, probe n t = Some (t <? T)) ->
  forall fuel n g b,
    0 <= g -> g <= b -> b < Z.of_nat (List.length timeline) ->
    b - g <= Z.of_nat fuel ->
    (exists eg, item timeline g = Some eg /\ time eg <= T) ->
    (forall i e, b < i -> item timeline i = Some e -> T < time e) ->
    exists j ej,
      searchLoop probe fuel n timeline g b = Exited j j /\
      g <= j <= b /\
      item timeline j = Some ej /\ time ej <= T /\
      (forall i e, j < i -> item timeline i = Some e -> T < time e).
Proof.
  intros Hs Hp.
  induction fuel as [|fuel IH]; intros n g b Hg Hgb Hb Hf Hlow Hup.
  - assert (b = g) by lia. subst b. simpl.
    rewrite Z.gtb_ltb, Z.ltb_irrefl.
    destruct Hlow as (eg & Heg & Hle). exists g, eg. repeat split; auto; lia.
  - simpl. destruct (b >? g) eqn:Hbg.
    2:{ rewrite Z.gtb_ltb in Hbg. apply Z.ltb_ge in Hbg.
        assert (b = g) by lia. subst b.
        destruct Hlow as (eg & Heg & Hle).
        exists g, eg. repeat split; auto; lia. }
    apply Z.gtb_lt in Hbg.
    pose proof (tryBeforeIndex_between g b ltac:(lia)) as Ht.
    destruct (item_Some timeline (tryBeforeIndex g b) ltac:(lia)) as (ev & Hev).
    rewrite Hev, Hp. unfold narrow.
    destruct (time ev - 1 <? T) eqn:Hw.
    + apply Z.ltb_lt in Hw.
      destruct (IH (S n) (tryBeforeIndex g b) b) as (j & ej & H1 & H2 & H3);
        try lia; auto.
      { exists ev. split; [exact Hev|lia]. }
      exists j, ej. split; [exact H1|]. split; [lia|exact H3].
    + apply Z.ltb_ge in Hw.
      destruct (IH (S n) g (tryBeforeIndex g b - 1)) as (j & ej & H1 & H2 & H3);
        try lia; auto.
      { intros i e Hi He.
        pose proof (sorted_item timeline Hs (tryBeforeIndex g b) i ev e
                      ltac:(lia) Hev He). lia. }
      exists j, ej. split; [exact H1|]. split; [lia|exact H3].
Qed.

Lemma searchLoop_bounds (probe : nat -> Z -> option bool)
    (timeline : list TimelineEvent) :
  (forall n t, probe n t <> None) ->
  forall fuel n g b,
    0 <= g -> g <= b -> b < Z.of_nat (List.length timeline) ->
    b - g <= Z.of_nat fuel ->
    exists j, searchLoop probe fuel n timeline g b = Exited j j /\ g <= j <= b.
Proof.
  intros Htotal.
  induction fuel as [|fuel IH]; intros n g b Hg Hgb Hb Hf; simpl.
  - assert (b = g) by lia. subst b.
    rewrite Z.gtb_ltb, Z.ltb_irrefl. exists g. split; [reflexivity|lia].
  - destruct (b >? g) eqn:Hbg.
    2:{ rewrite Z.gtb_ltb in Hbg. apply Z.ltb_ge in Hbg.
        assert (b = g) by lia. subst b. exists g. split; [reflexivity|lia]. }
    apply Z.gtb_lt in Hbg.
    pose proof (tryBeforeIndex_between g b ltac:(lia)) as Ht.
    destruct (item_Some timeline (tryBeforeIndex g b) ltac:(lia)) as (ev & ->).
    destruct (probe n (time ev - 1)) as [works|] eqn:Hp;
      [|destruct (Htotal _ _ Hp)].
    unfold narrow. destruct works.
    + destruct (IH (S n) (tryBeforeIndex g b) b) as (j & Hj & Hr); try lia.
      exists j. split; [exact Hj|lia].
    + destruct (IH (S n) g (tryBeforeIndex g b - 1)) as (j & Hj & Hr); try lia.
      exists j. split; [exact Hj|lia].
Qed.

(** When the loop ends by its test, the two bounds are equal and lie in
    the interval it was entered with. *)
Lemma searchLoop_exit (probe : nat -> Z -> option bool)
    (timeline : list TimelineEvent) (fuel : nat) :
  forall n g b g' b', g <= b ->
  searchLoop probe fuel n timeline g b = Exited g' b' ->
  g' = b' /\ g <= g' <= b.
Proof.
  induction fuel as [|fuel IH]; intros n g b g' b' Hgb; simpl.
  - destruct (b >? g) eqn:Hbg; [discriminate|].
    rewrite Z.gtb_ltb in Hbg. apply Z.ltb_ge in Hbg.
    intros H. injection H as <- <-. lia.
  - destruct (b >? g) eqn:Hbg.
    2:{ rewrite Z.gtb_ltb in Hbg. apply Z.ltb_ge in Hbg.
        intros H. injection H as <- <-. lia. }
    apply Z.gtb_lt in Hbg.
    destruct (item timeline (tryBeforeIndex g b)); [|discriminate].
    destruct (probe n (time t - 1)) as [works|]; [|discriminate].
    pose proof (narrow_shrinks works g b ltac:(lia)) as Hs.
    destruct (narrow works g b) as [g1 b1]. simpl in Hs.
    intros H. apply IH in H; [|lia]. destruct H as [He Hr].
    split; [exact He|lia].
Qed.

End Bisection.

(** C7.  An iteration of the loop entered with
    [badAfterIndex > goodBeforeIndex] probes right before
    [timeline[tryBeforeIndex]] and goes on with the interval of
    [narrow], which lies inside the old one and is strictly smaller:
    when the install works [goodBeforeIndex] grows, otherwise
    [badAfterIndex] drops.  Hence, whatever the oracle answers, the loop
    is over after at most [badAfterIndex - goodBeforeIndex] iterations:
    it ends on an exception (a missing event, a rejected probe) or with
    the two bounds equal, inside the interval it was entered with; with
    the bounds in the timeline and an oracle that always answers, it
    ends with the two bounds equal. *)
Theorem bisection_interval_shrinks (probe : nat -> Z -> option bool)
    (timeline : list Driver.TimelineEvent) (n fuel : nat)
    (goodBeforeIndex badAfterIndex : Z) :
  badAfterIndex > goodBeforeIndex ->
  badAfterIndex - goodBeforeIndex <= Z.of_nat fuel ->
  (forall works,
     let g' := fst (Driver.narrow works goodBeforeIndex badAfterIndex) in
     let b' := snd (Driver.narrow works goodBeforeIndex badAfterIndex) in
     (goodBeforeIndex <= g' /\ g' <= b' /\ b' <= badAfterIndex /\
      b' - g' < badAfterIndex - goodBeforeIndex) /\
     (works = true -> goodBeforeIndex < g' /\ b' = badAfterIndex) /\
     (works = false -> g' = goodBeforeIndex /\ b' < badAfterIndex)) /\
  (forall event works,
     Driver.item timeline
       (Driver.tryBeforeIndex goodBeforeIndex badAfterIndex) = Some event ->
     probe n (Driver.time event - 1) = Some works ->
     Driver.searchLoop probe fuel n timeline goodBeforeIndex badAfterIndex =
     Driver.searchLoop probe (Nat.pred fuel) (S n) timeline
       (fst (Driver.narrow works goodBeforeIndex badAfterIndex))
       (snd (Driver.narrow works goodBeforeIndex badAfterIndex))) /\
  (Driver.item timeline
     (Driver.tryBeforeIndex goodBeforeIndex badAfterIndex) = None ->
   Driver.searchLoop probe fuel n timeline goodBeforeIndex badAfterIndex =
   Driver.Rejected) /\
  (forall event,
     Driver.item timeline
       (Driver.tryBeforeIndex goodBeforeIndex badAfterIndex) = Some event ->
     probe n (Driver.time event - 1) = None ->
     Driver.searchLoop probe fuel n timeline goodBeforeIndex badAfterIndex =
     Driver.Rejected) /\
  Driver.searchLoop probe fuel n timeline goodBeforeIndex badAfterIndex
    <> Driver.OutOfFuel /\
  (forall g' b',
     Driver.searchLoop probe fuel n timeline goodBeforeIndex badAfterIndex =
     Driver.Exited g' b' ->
     g' = b' /\ goodBeforeIndex <= g' <= badAfterIndex) /\
  ((forall n' t, probe n' t <> None) ->
   0 <= goodBeforeIndex ->
   badAfterIndex < Z.of_nat (List.length timeline) ->
   exists j,
     Driver.searchLoop probe fuel n timeline goodBeforeIndex badAfterIndex =
     Driver.Exited j j /\
     goodBeforeIndex <= j <= badAfterIndex).
Proof.
  intros Hgt Hfuel.
  pose proof (tryBeforeIndex_between goodBeforeIndex badAfterIndex Hgt) as Ht.
  assert (Hb : (badAfterIndex >? goodBeforeIndex) = true)
    by (apply Z.gtb_lt; lia).
  destruct fuel as [|fuel]; [simpl in Hfuel; lia|].
  split; [|split; [|split; [|split; [|split; [|split]]]]].
  - intros works g' b'.
    split; [apply narrow_shrinks; exact Hgt|].
    subst g' b'. unfold Driver.narrow. split; intros ->; simpl.
    + split; [lia|reflexivity].
    + split; [reflexivity|lia].
  - intros event works Hev Hp. simpl. rewrite Hb, Hev, Hp.
    destruct (Driver.narrow works goodBeforeIndex badAfterIndex).
    reflexivity.
  - intros Hev. simpl. rewrite Hb, Hev. reflexivity.
  - intros event Hev Hp. simpl. rewrite Hb, Hev, Hp. reflexivity.
  - apply searchLoop_terminates. exact Hfuel.
  - intros g' b'. apply searchLoop_exit. lia.
  - intros Htotal Hg Hlen.
    apply (searchLoop_bounds probe timeline Htotal); lia.
Qed.

Lemma bisection_interval_shrinks_witness :
  (forall works,
     let g' := fst (Driver.narrow works 0 3) in
     let b' := snd (Driver.narrow works 0 3) in
     (0 <= g' /\ g' <= b' /\ b' <= 3 /\ b' - g' < 3 - 0) /\
     (works = true -> 0 < g' /\ b' = 3) /\
     (works = false -> g' = 0 /\ b' < 3)) /\
  (forall event works,
     Driver.item sampleTimeline (Driver.tryBeforeIndex 0 3) = Some event ->
     Driver.culpritOracle event_b 0%nat (Driver.time event - 1) = Some works ->
     Driver.searchLoop (Driver.culpritOracle event_b) 3 0 sampleTimeline 0 3 =
     Driver.searchLoop (Driver.culpritOracle event_b) (Nat.pred 3) 1
       sampleTimeline
       (fst (Driver.narrow works 0 3)) (snd (Driver.narrow works 0 3))) /\
  (Driver.item sampleTimeline (Driver.tryBeforeIndex 0 3) = None ->
   Driver.searchLoop (Driver.culpritOracle event_b) 3 0 sampleTimeline 0 3 =
   Driver.Rejected) /\
  (forall event,
     Driver.item sampleTimeline (Driver.tryBeforeIndex 0 3) = Some event ->
     Driver.culpritOracle event_b 0%nat (Driver.time event - 1) = None ->
     Driver.searchLoop (Driver.culpritOracle event_b) 3 0 sampleTimeline 0 3 =
     Driver.Rejected) /\
  Driver.searchLoop (Driver.culpritOracle event_b) 3 0 sampleTimeline 0 3
    <> Driver.OutOfFuel /\
  (forall g' b',
     Driver.searchLoop (Driver.culpritOracle event_b) 3 0 sampleTimeline 0 3 =
     Driver.Exited g' b' ->
     g' = b' /\ 0 <= g' <= 3) /\
  ((forall n' t, Driver.culpritOracle event_b n' t <> None) ->
   0 <= 0 ->
   3 < Z.of_nat (List.length sampleTimeline) ->
   exists j,
     Driver.searchLoop (Driver.culpritOracle event_b) 3 0 sampleTimeline 0 3 =
     Driver.Exited j j /\
     0 <= j <= 3).
Proof.
  apply (bisection_interval_shrinks (Driver.culpritOracle event_b)
           sampleTimeline 0 3 0 3); lia.
Defined.

(** The run of the witness: two probes, right before [event_b] (it
    works) and right before [event_d] (it does not), and the loop ends
    on [event_b]. *)
Example bisection_sample_run :
  Driver.tryBeforeIndex 0 3 = 2 /\
  Driver.narrow true 0 3 = (2, 3) /\
  Driver.tryBeforeIndex 2 3 = 3 /\
  Driver.narrow false 2 3 = (2, 2) /\
  Driver.searchLoop (Driver.culpritOracle event_b) 3 0 sampleTimeline 0 3 =
    Driver.Exited 2 2 /\
  Driver.searchLoop (Driver.culpritOracle event_b) 2 0 sampleTimeline 0 3 =
    Driver.Exited 2 2 /\
  Driver.searchLoop (Driver.culpritOracle event_b) 1 0 sampleTimeline 0 3 =
    Driver.OutOfFuel.
Proof. repeat split; reflexivity. Qed.

(** C1, as amended.  On a non-empty timeline in ascending order of
    time, with an oracle that works exactly when the cutoff is before
    the publish time of the culprit, the loop ends with
    [badAfterIndex = goodBeforeIndex] and the driver reports the last
    event of the timeline published at the culprit's publish time.
    That event is the culprit itself when every later event was
    published strictly later. *)
Theorem bisect_reports_last_at_culprit_time
    (probe : nat -> Z -> option bool)
    (timeline : list Driver.TimelineEvent) (c : Z)
    (culprit : Driver.TimelineEvent) :
  Driver.sortedByTime timeline = true ->
  Driver.item timeline c = Some culprit ->
  (forall n cutoff, probe n cutoff = Some (cutoff <? Driver.time culprit)) ->
  exists j badEvent,
    Driver.searchLoop probe (List.length timeline) 0 timeline 0
      (Z.of_nat (List.length timeline) - 1) = Driver.Exited j j /\
    Driver.item timeline j = Some badEvent /\
    Driver.bisect probe (List.length timeline) timeline = Driver.Culprit badEvent /\
    Driver.time badEvent = Driver.time culprit /\
    c <= j /\
    (forall i e, j < i -> Driver.item timeline i = Some e ->
                 Driver.time culprit < Driver.time e) /\
    ((forall i e, c < i -> Driver.item timeline i = Some e ->
                  Driver.time culprit < Driver.time e) ->
     j = c /\ badEvent = culprit).
Proof.
  intros Hs Hc Hp.
  pose proof (item_range _ _ _ Hc) as Rc.
  destruct (item_Some timeline 0 ltac:(lia)) as (e0 & He0).
  destruct (searchLoop_culprit probe timeline (Driver.time culprit) Hs Hp
              (List.length timeline) 0%nat 0
              (Z.of_nat (List.length timeline) - 1))
    as (j & ej & Hloop & Hj & Hej & Hle & Hup); try lia.
  { exists e0. split; [exact He0|].
    apply (sorted_item timeline Hs 0 c); [lia|assumption|assumption]. }
  { intros i e Hi He. apply item_range in He. lia. }
  assert (Hcj : c <= j).
  { destruct (Z_le_gt_dec c j) as [|Hgt]; [assumption|].
    pose proof (Hup c culprit ltac:(lia) Hc). lia. }
  pose proof (sorted_item timeline Hs c j culprit ej Hcj Hc Hej) as Hge.
  exists j, ej. split; [exact Hloop|]. split; [exact Hej|]. split.
  { unfold Driver.bisect. destruct timeline as [|x xs]; [simpl in Rc; lia|].
    rewrite Hloop, Hej. reflexivity. }
  split; [lia|]. split; [exact Hcj|]. split; [exact Hup|].
  intros Hlater.
  assert (j = c).
  { destruct (Z.eq_dec j c) as [|Hne]; [assumption|].
    pose proof (Hlater j ej ltac:(lia) Hej). lia. }
  subst j. split; [reflexivity|]. congruence.
Qed.

Lemma bisect_reports_last_at_culprit_time_witness :
  exists j badEvent,
    Driver.searchLoop (Driver.culpritOracle event_a) 2 0 [event_a; event_b] 0 1
      = Driver.Exited j j /\
    Driver.item [event_a; event_b] j = Some badEvent /\
    Driver.bisect (Driver.culpritOracle event_a) 2 [event_a; event_b]
      = Driver.Culprit badEvent /\
    Driver.time badEvent = Driver.time event_a /\
    0 <= j /\
    (forall i e, j < i -> Driver.item [event_a; event_b] i = Some e ->
                 Driver.time event_a < Driver.time e) /\
    ((forall i e, 0 < i -> Driver.item [event_a; event_b] i = Some e ->
                  Driver.time event_a < Driver.time e) ->
     j = 0 /\ badEvent = event_a).
Proof.
  apply (bisect_reports_last_at_culprit_time (Driver.culpritOracle event_a)
           [event_a; event_b] 0 event_a).
  - reflexivity.
  - reflexivity.
  - intros n cutoff. reflexivity.
Defined.

(** C1 as stated fails when two events share a publish time: with
    [event_a] and [event_c] published in the same millisecond and
    [event_a] the culprit, the driver reports [event_c]. *)
Lemma bisect_reports_other_event_on_tie :
  Driver.sortedByTime [event_a; event_c] = true /\
  Driver.item [event_a; event_c] 0 = Some event_a /\
  Driver.searchLoop (Driver.culpritOracle event_a) 2 0 [event_a; event_c] 0 1
    = Driver.Exited 1 1 /\
  Driver.bisect (Driver.culpritOracle event_a) 2 [event_a; event_c]
    = Driver.Culprit event_c /\
  event_c <> event_a.
Proof.
  repeat split; try reflexivity. discriminate.
Qed.

(** ** The request handler *)

Lemma parseInt_String_of_nat (n : nat) : parseInt (String_of_nat n) = Some n.
Proof.
  unfold parseInt, String_of_nat.
  destruct (NilEmpty.string_of_uint (Nat.to_uint n)) eqn:E.
  - exfalso. destruct (Nat.to_uint n) eqn:En; try discriminate.
    pose proof (Unsigned.of_to n) as Hn. rewrite En in Hn. simpl in Hn.
    subst n. discriminate.
  - rewrite <- E, NilEmpty.usu. simpl. rewrite Unsigned.of_to. reflexivity.
Qed.

Section HandlerFacts.

Import JsObject.
Local Open Scope list_scope.

Lemma get_None_notin {V : Type} (k : string) (o : t V) :
  get k o = None <-> ~ In k (keys o).
Proof.
  split.
  - intros H Hin. apply JsObjectFacts.In_get_Some in Hin.
    destruct Hin as [v Hv]. congruence.
  - intros H. destruct (get k o) eqn:E; [|reflexivity].
    apply JsObjectFacts.get_Some_In in E. contradiction.
Qed.

(** The copy of the headers onto the response reads, at every name,
    what the upstream headers read. *)
Lemma fold_setHeader_get (h : t string) (k : string) (ks : list string) :
  forall acc, incl ks (keys h) ->
  get k (fold_left (setHeader h) ks acc) =
  if existsb (String.eqb k) ks then get k h else get k acc.
Proof.
  induction ks as [|k0 ks IH]; intros acc Hincl; simpl; [reflexivity|].
  rewrite IH by (intros x Hx; apply Hincl; right; exact Hx).
  destruct (existsb (String.eqb k) ks) eqn:Hex.
  - rewrite orb_true_r. reflexivity.
  - rewrite orb_false_r. unfold setHeader.
    destruct (JsObjectFacts.In_get_Some k0 h (Hincl k0 (or_introl eq_refl)))
      as [v Hv].
    rewrite Hv, JsObjectFacts.get_set.
    destruct (String.eqb_spec k k0) as [->|]; [symmetry; exact Hv|reflexivity].
Qed.

Lemma sendResponse_get (rr : ResponseResult) (k : string) :
  get k (res_headers (sendResponse rr)) = get k (res_headers rr).
Proof.
  unfold sendResponse. simpl.
  rewrite fold_setHeader_get by apply incl_refl. simpl.
  destruct (existsb (String.eqb k) (keys (res_headers rr))) eqn:Hex;
    [reflexivity|].
  symmetry. apply get_None_notin. intros Hin.
  assert (existsb (String.eqb k) (keys (res_headers rr)) = true).
  { apply existsb_exists. exists k. split; [exact Hin|apply String.eqb_refl]. }
  congruence.
Qed.

Lemma get_app_notin {V : Type} (k : string) (o1 o2 : t V) :
  ~ In k (keys o1) -> get k (o1 ++ o2) = get k o2.
Proof.
  induction o1 as [|[k' v'] o1 IH]; simpl; intros H; [reflexivity|].
  destruct (String.eqb_spec k k') as [->|]; [exfalso; apply H; left; reflexivity|].
  apply IH. intros Hin. apply H. right. exact Hin.
Qed.

Lemma set_notin {V : Type} (k : string) (v : V) (o : t V) :
  ~ In k (keys o) -> set k v o = o ++ [(k, v)].
Proof.
  induction o as [|[k' v'] o IH]; simpl; intros H; [reflexivity|].
  destruct (String.eqb_spec k k') as [->|]; [exfalso; apply H; left; reflexivity|].
  rewrite IH; [reflexivity|]. intros Hin. apply H. right. exact Hin.
Qed.

(** With distinct names, as in every object, the copy is the object. *)
Lemma fold_setHeader_copy (o2 : t string) :
  forall o1, NoDup (keys (o1 ++ o2)) ->
  fold_left (setHeader (o1 ++ o2)) (keys o2) o1 = o1 ++ o2.
Proof.
  induction o2 as [|[k v] o2 IH]; intros o1 Hnd; simpl.
  - rewrite app_nil_r. reflexivity.
  - assert (Hk : ~ In k (keys o1)).
    { unfold keys in *. rewrite map_app in Hnd. simpl in Hnd.
      apply NoDup_remove_2 in Hnd. intros Hin. apply Hnd.
      apply in_or_app. left. exact Hin. }
    unfold setHeader at 2. rewrite get_app_notin by exact Hk. simpl.
    rewrite String.eqb_refl, set_notin by exact Hk.
    replace (o1 ++ (k, v) :: o2) with ((o1 ++ [(k, v)]) ++ o2)
      by (rewrite <- app_assoc; reflexivity).
    apply IH. rewrite <- app_assoc. exact Hnd.
Qed.

Lemma sendResponse_id (rr : ResponseResult) :
  NoDup (keys (res_headers rr)) -> sendResponse rr = rr.
Proof.
  intros Hnd. unfold sendResponse.
  pose proof (fold_setHeader_copy (res_headers rr) [] Hnd) as Hcopy.
  simpl in Hcopy. rewrite Hcopy.
  destruct rr; reflexivity.
Qed.

Variable Date_parse : string -> Date.
Variable JSON_parse : string -> option PackageMetadata.
Variable JSON_stringify : PackageMetadata -> string.
Variable performRequest : nat -> UpstreamRequestOptions -> option ResponseResult.
Variable variant : Variant.
Variable ignoreNewerThan : Date.

Local Abbreviation handler :=
  (onRequest Date_parse JSON_parse JSON_stringify performRequest variant
     ignoreNewerThan).
Local Abbreviation finish :=
  (rewriteAndSend Date_parse JSON_stringify variant ignoreNewerThan).

Lemma rewriteAndSend_run (requests : list UpstreamRequestOptions)
    (s : Store) (r : TimeRef) (rr : ResponseResult) :
  let changed :=
    fst (removeVersionsFromPackageMetadata Date_parse variant ignoreNewerThan s r) in
  let s' :=
    snd (removeVersionsFromPackageMetadata Date_parse variant ignoreNewerThan s r) in
  upstream (finish requests s r rr) = requests /\
  rewriterReturned (finish requests s r rr) = Some changed /\
  outcome (finish requests s r rr) =
    Responded (sendResponse
                 (if changed then patchResponse JSON_stringify (obj s') rr
                  else rr)).
Proof.
  unfold rewriteAndSend.
  destruct (removeVersionsFromPackageMetadata Date_parse variant
              ignoreNewerThan s r) as [changed s'].
  simpl. auto.
Qed.

(** The rewriter runs only on the answer to the first upstream
    request. *)
Lemma rewriter_ran (req : IncomingMessage) (body : string) (c : bool) :
  rewriterReturned (handler req body) = Some c ->
  exists opts rr requests s r,
    hd_error requests = Some opts /\
    performRequest 0 opts = Some rr /\
    handler req body = finish requests s r rr.
Proof.
  unfold onRequest.
  destruct (parseHostHeader _) as [host port].
  destruct (normalizeHeaders variant host req) as [[headers could]|];
    [|discriminate].
  set (opts := upstreamRequestOptions req body headers host port).
  destruct (performRequest 0 opts) as [rr|] eqn:Hrr; [|discriminate].
  unfold onResponse.
  destruct (could && isJson (res_headers rr)); [|discriminate].
  destruct (JSON_parse (res_body rr)) as [o|]; [|discriminate].
  destruct (needsFullMetadata o opts).
  - destruct (performRequest 1 (withAcceptJson opts)) as [full|];
      [|discriminate].
    destruct (JSON_parse (res_body full)) as [fo|]; [|discriminate].
    intros _. exists opts, rr. eexists. eexists. eexists.
    split; [|split; [exact Hrr|reflexivity]]. reflexivity.
  - intros _. exists opts, rr. eexists. eexists. eexists.
    split; [|split; [exact Hrr|reflexivity]]. reflexivity.
Qed.

Lemma patchResponse_headers (o : PackageMetadata) (rr : ResponseResult) :
  let r := patchResponse JSON_stringify o rr in
  get "content-length" (res_headers r) =
    Some (String_of_nat (String.length (res_body r))) /\
  get "transfer-encoding" (res_headers r) = None /\
  get "content-encoding" (res_headers r) = None /\
  get "connection" (res_headers r) = Some "close".
Proof.
  unfold patchResponse. simpl.
  repeat rewrite ?JsObjectFacts.get_set, ?JsObjectFacts.get_delete. simpl.
  auto.
Qed.

End HandlerFacts.

Section HandlerClaims.

Variable Date_parse : string -> Date.
Variable JSON_parse : string -> option PackageMetadata.
Variable JSON_stringify : PackageMetadata -> string.
Variable performRequest : nat -> UpstreamRequestOptions -> option ResponseResult.
Variable ignoreNewerThan : Date.

Local Abbreviation handler :=
  (onRequest Date_parse JSON_parse JSON_stringify performRequest).

Lemma onResponse_upstream (variant : Variant) (opts : UpstreamRequestOptions)
    (could : bool) (rr : ResponseResult) :
  exists rest,
    upstream (onResponse Date_parse JSON_parse JSON_stringify performRequest
                variant ignoreNewerThan opts could rr) = opts :: rest.
Proof.
  unfold onResponse.
  destruct (could && isJson (res_headers rr)); [|eexists; reflexivity].
  destruct (JSON_parse (res_body rr)) as [o|]; [|eexists; reflexivity].
  destruct (needsFullMetadata o opts).
  - destruct (performRequest 1 (withAcceptJson opts)) as [full|];
      [|eexists; reflexivity].
    destruct (JSON_parse (res_body full)) as [fo|]; [|eexists; reflexivity].
    eexists. apply rewriteAndSend_run.
  - eexists. apply rewriteAndSend_run.
Qed.

(** C4, as amended.  For a request to a registry host whose [accept]
    header names the compact media type, the first upstream request
    carries [accept: application/json] in the revision [Part001], for
    every path; in [main.js] and [Part002] it does so for the path
    [/messy] with the exact header npm sends, and carries the header of
    the client unchanged otherwise. *)
Theorem accept_header_sent_upstream (variant : Variant)
    (req : IncomingMessage) (body a : string) :
  isRegistryHostname variant
    (fst (parseHostHeader (JsObject.get "host" (req_headers req)))) = true ->
  JsObject.get "accept" (req_headers req) = Some a ->
  String_includes a compactMediaType = true ->
  exists opts rest,
    upstream (handler variant ignoreNewerThan req body) = opts :: rest /\
    JsObject.get "accept" (up_headers opts) =
      Some (match variant with
            | Part001 => "application/json"
            | MainJs | Part002 =>
                if String.eqb (req_url req) "/messy" &&
                   String.eqb a npmAcceptHeader
                then "application/json"
                else a
            end).
Proof.
  intros Hreg Ha Hinc. unfold onRequest.
  destruct (parseHostHeader _) as [host port]. simpl in Hreg.
  unfold normalizeHeaders. rewrite Hreg.
  set (h := JsObject.delete "connection" _).
  assert (Hh : JsObject.get "accept" h = Some a).
  { subst h. rewrite !JsObjectFacts.get_delete. simpl. exact Ha. }
  assert (Hrw : exists h',
             rewriteAccept variant (req_url req) h = Some h' /\
             JsObject.get "accept" h' =
               Some (match variant with
                     | Part001 => "application/json"
                     | MainJs | Part002 =>
                         if String.eqb (req_url req) "/messy" &&
                            String.eqb a npmAcceptHeader
                         then "application/json"
                         else a
                     end)).
  { unfold rewriteAccept. rewrite Hh.
    destruct variant.
    - destruct (String.eqb (req_url req) "/messy" && String.eqb a npmAcceptHeader);
        eexists; (split; [reflexivity|]);
        rewrite ?JsObjectFacts.get_set; simpl; auto.
    - rewrite Hinc. eexists. split; [reflexivity|].
      rewrite JsObjectFacts.get_set. reflexivity.
    - destruct (String.eqb (req_url req) "/messy" && String.eqb a npmAcceptHeader);
        eexists; (split; [reflexivity|]);
        rewrite ?JsObjectFacts.get_set; simpl; auto. }
  destruct Hrw as (h' & -> & Hacc).
  set (opts := upstreamRequestOptions req body h' host port).
  destruct (performRequest 0 opts) as [rr|].
  - destruct (onResponse_upstream variant opts true rr) as [rest Hrest].
    exists opts, rest. split; [exact Hrest|exact Hacc].
  - exists opts, []. split; [reflexivity|exact Hacc].
Qed.

(** C8.  When the rewriter reports a change, the response sent to the
    client has a [content-length] header that is the decimal length of
    the serialized body in bytes, and neither a [transfer-encoding] nor
    a [content-encoding] header. *)
Theorem rewritten_response_consistent (variant : Variant)
    (req : IncomingMessage) (body : string) (r : ResponseResult) :
  rewriterReturned (handler variant ignoreNewerThan req body) = Some true ->
  outcome (handler variant ignoreNewerThan req body) = Responded r ->
  (exists o, res_body r = JSON_stringify o) /\
  JsObject.get "content-length" (res_headers r) =
    Some (String_of_nat (String.length (res_body r))) /\
  parseInt (String_of_nat (String.length (res_body r))) =
    Some (String.length (res_body r)) /\
  JsObject.get "transfer-encoding" (res_headers r) = None /\
  JsObject.get "content-encoding" (res_headers r) = None.
Proof.
  intros Hret Hout.
  destruct (rewriter_ran _ _ _ _ _ _ _ _ _ Hret)
    as (opts & rr & requests & s & tr & _ & _ & Hrun).
  rewrite Hrun in Hret, Hout.
  destruct (rewriteAndSend_run Date_parse JSON_stringify variant
              ignoreNewerThan requests s tr rr) as (_ & Hc & Ho).
  rewrite Hret in Hc. injection Hc as Hc. rewrite <- Hc in Ho.
  rewrite Hout in Ho. injection Ho as ->.
  set (o := obj (snd (removeVersionsFromPackageMetadata Date_parse variant
                        ignoreNewerThan s tr))).
  destruct (patchResponse_headers JSON_stringify o rr) as (Hcl & Hte & Hce & _).
  rewrite !sendResponse_get.
  split; [exists o; reflexivity|].
  split; [exact Hcl|]. split; [apply parseInt_String_of_nat|].
  split; assumption.
Qed.

(** C10.  When the rewriter reports no change, the client gets the
    answer to the first upstream request as it came: the same status
    code, the same body, and the same value under every header name. *)
Theorem unchanged_response_forwarded (variant : Variant)
    (req : IncomingMessage) (body : string) (r : ResponseResult) :
  rewriterReturned (handler variant ignoreNewerThan req body) = Some false ->
  outcome (handler variant ignoreNewerThan req body) = Responded r ->
  exists opts responseResult,
    hd_error (upstream (handler variant ignoreNewerThan req body)) = Some opts /\
    performRequest 0 opts = Some responseResult /\
    statusCode r = statusCode responseResult /\
    res_body r = res_body responseResult /\
    (forall headerName,
       JsObject.get headerName (res_headers r) =
       JsObject.get headerName (res_headers responseResult)) /\
    (NoDup (JsObject.keys (res_headers responseResult)) -> r = responseResult).
Proof.
  intros Hret Hout.
  destruct (rewriter_ran _ _ _ _ _ _ _ _ _ Hret)
    as (opts & rr & requests & s & tr & Hhd & Hrr & Hrun).
  rewrite Hrun in Hret, Hout. rewrite Hrun.
  destruct (rewriteAndSend_run Date_parse JSON_stringify variant
              ignoreNewerThan requests s tr rr) as (Hup & Hc & Ho).
  rewrite Hret in Hc. injection Hc as Hc. rewrite <- Hc in Ho.
  rewrite Hout in Ho. injection Ho as ->.
  exists opts, rr. rewrite Hup.
  split; [exact Hhd|]. split; [exact Hrr|].
  split; [reflexivity|]. split; [reflexivity|].
  split; [intros k; apply sendResponse_get|apply sendResponse_id].
Qed.

End HandlerClaims.

Lemma accept_header_sent_upstream_witness :
  exists opts rest,
    upstream (onRequest Date_parse_ISO sampleParse sampleStringify sampleNetwork
                Part001 sampleCutoff sampleRequest EmptyString) = opts :: rest /\
    JsObject.get "accept" (up_headers opts) = Some "application/json".
Proof.
  apply (accept_header_sent_upstream Date_parse_ISO sampleParse sampleStringify
           sampleNetwork sampleCutoff Part001 sampleRequest EmptyString
           npmAcceptHeader).
  - reflexivity.
  - reflexivity.
  - reflexivity.
Defined.

(** C4 as stated fails in [main.js] and in [Part002]: for the path
    [/lodash] the first upstream request still asks for the compact
    format; the publish times come from a second request. *)
Lemma compact_accept_sent_upstream :
  isRegistryHostname MainJs
    (fst (parseHostHeader (JsObject.get "host" (req_headers sampleRequest))))
    = true /\
  String_includes npmAcceptHeader compactMediaType = true /\
  map (fun opts => JsObject.get "accept" (up_headers opts))
      (upstream (onRequest Date_parse_ISO sampleParse sampleStringify
                   sampleNetwork MainJs sampleCutoff sampleRequest EmptyString))
    = [Some npmAcceptHeader; Some "application/json"] /\
  map (fun opts => JsObject.get "accept" (up_headers opts))
      (upstream (onRequest Date_parse_ISO sampleParse sampleStringify
                   sampleNetwork Part002 sampleCutoff sampleRequest EmptyString))
    = [Some npmAcceptHeader; Some "application/json"].
Proof.
  repeat split; vm_compute; reflexivity.
Qed.

Lemma rewritten_response_consistent_witness :
  (exists o, "{rewritten}" = sampleStringify o) /\
  JsObject.get "content-length"
    (res_headers (mkResponseResult 200
       [("content-type", "application/vnd.npm.install-v1+json");
        ("connection", "close"); ("content-length", "11")] "{rewritten}"))
    = Some (String_of_nat 11) /\
  parseInt (String_of_nat 11) = Some 11%nat /\
  JsObject.get "transfer-encoding"
    [("content-type", "application/vnd.npm.install-v1+json");
     ("connection", "close"); ("content-length", "11")] = None /\
  JsObject.get "content-encoding"
    [("content-type", "application/vnd.npm.install-v1+json");
     ("connection", "close"); ("content-length", "11")] = None.
Proof.
  apply (rewritten_response_consistent Date_parse_ISO sampleParse
           sampleStringify sampleNetwork sampleCutoff MainJs sampleRequest
           EmptyString
           (mkResponseResult 200
              [("content-type", "application/vnd.npm.install-v1+json");
               ("connection", "close"); ("content-length", "11")]
              "{rewritten}")).
  - vm_compute. reflexivity.
  - vm_compute. reflexivity.
Defined.

Lemma unchanged_response_forwarded_witness :
  exists opts responseResult,
    hd_error (upstream (onRequest Date_parse_ISO sampleParse sampleStringify
                          sampleNetwork Part001 lateCutoff sampleRequest
                          EmptyString)) = Some opts /\
    sampleNetwork 0 opts = Some responseResult /\
    statusCode fullResponse = statusCode responseResult /\
    res_body fullResponse = res_body responseResult /\
    (forall headerName,
       JsObject.get headerName (res_headers fullResponse) =
       JsObject.get headerName (res_headers responseResult)) /\
    (NoDup (JsObject.keys (res_headers responseResult)) ->
     fullResponse = responseResult).
Proof.
  apply (unchanged_response_forwarded Date_parse_ISO sampleParse
           sampleStringify sampleNetwork lateCutoff Part001 sampleRequest
           EmptyString fullResponse).
  - vm_compute. reflexivity.
  - vm_compute. reflexivity.
Defined.

(** ** Package specs *)

Section PackageSpecs.

Import Driver.

Lemma string_neq_append (s : string) (c : ascii) (r : string) :
  s <> s ++ String c r.
Proof.
  induction s as [|a s IH]; simpl; intros H; [discriminate|].
  injection H as H. exact (IH H).
Qed.

Lemma takeWhile_append (p : ascii -> bool) (s : string) (c : ascii) (r : string) :
  allChars p s = true -> p c = false ->
  takeWhile p (s ++ String c r) = s /\
  dropWhile p (s ++ String c r) = String c r.
Proof.
  intros Hs Hc. induction s as [|a s IH]; simpl.
  - rewrite Hc. auto.
  - simpl in Hs. apply andb_prop in Hs. destruct Hs as [Ha Hs].
    rewrite Ha. destruct (IH Hs) as [-> ->]. auto.
Qed.

Lemma dropWhile_all (p : ascii -> bool) (s : string) :
  allChars p s = true -> dropWhile p s = EmptyString.
Proof.
  induction s as [|a s IH]; simpl; [reflexivity|].
  intros H. apply andb_prop in H. destruct H as [Ha Hs].
  rewrite Ha. exact (IH Hs).
Qed.

(** An entry [name@range] with a name free of [@] is split at the
    [@]. *)
Lemma parse_name_and_range (name range : string) :
  allChars (fun c => negb (isAt c)) name = true ->
  truthy name = true -> truthy range = true ->
  hasLineTerminator range = false ->
  parsePackageAndVersionRange (name ++ String "@" range) =
  mkPackageSpec name range.
Proof.
  intros Hn Hname Hrange Hlt.
  unfold parsePackageAndVersionRange, matchVersion.
  destruct (takeWhile_append (fun c => negb (isAt c)) name "@"%char range Hn
              eq_refl) as [-> ->].
  rewrite Hname, Hrange, Hlt. reflexivity.
Qed.

(** An entry without [@] is a name, with the range [*]. *)
Lemma parse_name_only (name : string) :
  allChars (fun c => negb (isAt c)) name = true ->
  parsePackageAndVersionRange name = mkPackageSpec name "*".
Proof.
  intros Hn. unfold parsePackageAndVersionRange, matchVersion.
  rewrite dropWhile_all by exact Hn. reflexivity.
Qed.

End PackageSpecs.

(** C9 fails on the code for scoped names.  An entry that begins with
    [@] and carries a range is not split: the whole entry becomes the
    package name, with the range [*], and it matches no event of the
    scoped package, whatever the version and whatever semver says. *)
Theorem scoped_entry_with_range_matches_nothing
    (semver_satisfies : string -> string -> bool)
    (scopedName range version : string) (time : Z) :
  let entry := String "@" (scopedName ++ String "@" range) in
  Driver.parsePackageAndVersionRange entry = Driver.mkPackageSpec entry "*" /\
  Driver.matchesPackageSpec semver_satisfies
    (Driver.mkTimelineEvent (String "@" scopedName) version time)
    (Driver.parsePackageAndVersionRange entry) = false.
Proof.
  intros entry.
  assert (Hp : Driver.parsePackageAndVersionRange entry =
               Driver.mkPackageSpec entry "*") by reflexivity.
  split; [exact Hp|]. rewrite Hp.
  unfold Driver.matchesPackageSpec. simpl Driver.packageName.
  simpl Driver.specPackageName.
  assert (Hne : String.eqb (String "@" scopedName) entry = false).
  { apply String.eqb_neq. unfold entry. intros H. injection H as H.
    exact (string_neq_append _ _ _ H). }
  rewrite Hne. reflexivity.
Qed.

(** The same, on the entry [@babel/core@^7.0.0] and the publication of
    [@babel/core] 7.1.0. *)
Lemma scoped_entry_example (semver_satisfies : string -> string -> bool) :
  Driver.parsePackageAndVersionRange "@babel/core@^7.0.0" =
    Driver.mkPackageSpec "@babel/core@^7.0.0" "*" /\
  Driver.matchesPackageSpec semver_satisfies
    (Driver.mkTimelineEvent "@babel/core" "7.1.0" 1577923200000)
    (Driver.parsePackageAndVersionRange "@babel/core@^7.0.0") = false /\
  Driver.parsePackageAndVersionRange "underscore@^1.2.3" =
    Driver.mkPackageSpec "underscore" "^1.2.3".
Proof.
  split; [reflexivity|]. split; [|reflexivity].
  unfold Driver.matchesPackageSpec. simpl. reflexivity.
Qed.

(** ** The definitions at work *)

(** A single candidate. *)
Example bisect_single_candidate :
  Driver.bisect (Driver.culpritOracle event_a) 1 [event_a]
  = Driver.Culprit event_a.
Proof. reflexivity. Qed.

(** Two candidates, the culprit first, then second. *)
Example bisect_culprit_first :
  Driver.bisect (Driver.culpritOracle event_a) 2 [event_a; event_b]
  = Driver.Culprit event_a.
Proof. reflexivity. Qed.

Example bisect_culprit_second :
  Driver.bisect (Driver.culpritOracle event_b) 2 [event_a; event_b]
  = Driver.Culprit event_b.
Proof. reflexivity. Qed.

(** No candidate at all. *)
Example bisect_no_candidate (probe : nat -> Z -> option bool) :
  Driver.bisect probe 0 [] = Driver.NoRelevantPackages.
Proof. reflexivity. Qed.

(** The later revisions hide version 2.0.0 and the key [changed] of
    the sample document, and move [latest] to 1.0.0. *)
Example rewrite_sample :
  rewriteDocument Date_parse_ISO Part001 sampleCutoff sampleReserved =
  (true,
   mkPackageMetadata (Some "a")
     (Some [("1.0.0", "{}")])
     (Some [("modified", "2020-03-01T00:00:00.000Z");
            ("created", "2020-02-01T00:00:00.000Z");
            ("1.0.0", "2019-06-01T00:00:00.000Z")])
     (Some (mkDistTags (Some "1.0.0") []))
     []).
Proof. vm_compute. reflexivity. Qed.

(** With the compact answer the times come from the second request,
    and only [versions] of the answer is edited. *)
Example rewrite_compact_sample :
  removeVersionsFromPackageMetadata Date_parse_ISO MainJs sampleCutoff
    (mkStore sampleCompact (time sampleReserved)) FullMetadataTime =
  (true,
   mkStore
     (mkPackageMetadata (Some "a") (Some [("1.0.0", "{}")]) None
        (Some (mkDistTags (Some "1.0.0") [])) [])
     (Some [("modified", "2020-03-01T00:00:00.000Z");
            ("changed", "2020-03-01T00:00:00.000Z");
            ("1.0.0", "2019-06-01T00:00:00.000Z")])).
Proof. vm_compute. reflexivity. Qed.

(* ================================================================== *)
(** * Part III: more properties of the code                            *)
(* ================================================================== *)

(** ** The choice of the latest preserved version *)

Lemma fold_left_prefix {A B : Type} (f : A -> B -> A)
    (P : list B -> A -> Prop) (l : list B) (a0 : A) :
  P [] a0 ->
  (forall done x rest a, l = (done ++ x :: rest)%list -> P done a ->
     P (done ++ [x])%list (f a x)) ->
  P l (fold_left f l a0).
Proof.
  intros H0 Hstep.
  assert (G : forall rest done a, l = (done ++ rest)%list -> P done a ->
                P l (fold_left f rest a)).
  { induction rest as [|x rest IH]; intros done a Hl Ha; simpl.
    - rewrite app_nil_r in Hl. subst l. exact Ha.
    - apply (IH (done ++ [x])%list).
      + rewrite <- app_assoc. exact Hl.
      + eapply Hstep; [exact Hl|exact Ha]. }
  apply (G l [] a0); [reflexivity|exact H0].
Qed.

Lemma distinctKeys_NoDup {V : Type} (o : JsObject.t V) :
  distinctKeys o = true -> NoDup (JsObject.keys o).
Proof.
  induction o as [|[k v] o IH]; simpl; intros H; [constructor|].
  apply andb_prop in H. destruct H as [Hk Ho].
  constructor; [|exact (IH Ho)].
  intros Hin. apply negb_true_iff in Hk.
  unfold JsObject.has in Hk.
  assert (existsb (String.eqb k) (JsObject.keys o) = true).
  { apply existsb_exists. exists k. split; [exact Hin|apply String.eqb_refl]. }
  congruence.
Qed.

Section LatestChoice.

Variable Date_parse : string -> Date.
Variable variant : Variant.
Variable C : Date.
Variables tbv0 vs0 : JsObject.t string.
Hypothesis distinct : NoDup (JsObject.keys tbv0).

Local Abbreviation newer := (isNewer Date_parse variant C tbv0).
Local Abbreviation LInv := (latestInv Date_parse variant C tbv0).
Local Abbreviation Inv := (loopInv Date_parse variant C tbv0 vs0).
Local Abbreviation body := (loopBody Date_parse variant C).

Lemma latestTime_None (done : list string) (st : LoopState) :
  LInv done st -> latestPreservedVersionTime st = None ->
  latestPreservedVersion st = None.
Proof.
  intros (_ & H2 & _) Hn.
  destruct (latestPreservedVersion st) as [k|] eqn:Hk; [|reflexivity].
  destruct (H2 k eq_refl) as (_ & _ & Ht). congruence.
Qed.

Lemma loopBody_latestInv (done : list string) (x : string) (st : LoopState) :
  ~ In x done -> Inv st -> LInv done st ->
  LInv (done ++ [x])%list (body st x).
Proof.
  intros Hx (Ht & _ & _ & _ & _) HL.
  pose proof (latestTime_None done st HL) as HtN.
  destruct HL as (H1 & H2 & H3 & H4).
  assert (Hdone : forall k, In k done -> In k (done ++ [x])%list).
  { intros k Hk. apply in_or_app. left. exact Hk. }
  assert (Hlast : In x (done ++ [x])%list).
  { apply in_or_app. right. left. reflexivity. }
  assert (Hsplit : forall k, In k (done ++ [x])%list -> In k done \/ k = x).
  { intros k Hk. apply in_app_or in Hk. destruct Hk as [Hk|Hk]; [left; exact Hk|].
    destruct Hk as [Hk|Hk]; [right; symmetry; exact Hk|contradiction]. }
  assert (Hnot : Set_has x (deletedVersions st) = false).
  { destruct (Set_has x (deletedVersions st)) eqn:E; [|reflexivity].
    destruct (Hx (H1 x E)). }
  assert (Hget : JsObject.get x (timeByVersion st) = JsObject.get x tbv0).
  { rewrite Ht at 1.
    rewrite (JsObjectFacts.get_filter
               (fun y => negb (Set_has y (deletedVersions st)))).
    rewrite Hnot. reflexivity. }
  (* the state is kept and [x] is no kept version key *)
  assert (Hsame : (isVersionKey variant x = true -> newer x = true) ->
                  (forall k, Set_has k (deletedVersions st) = true ->
                             In k (done ++ [x])%list) /\
                  (forall k, latestPreservedVersion st = Some k ->
                     In k (done ++ [x])%list /\ newer k = false /\
                     latestPreservedVersionTime st =
                       Some (new_Date Date_parse (JsObject.get k tbv0))) /\
                  (latestPreservedVersion st = None ->
                     latestPreservedVersionTime st = None /\
                     forall k, In k (done ++ [x])%list ->
                       isVersionKey variant k = true -> newer k = true) /\
                  (forall t, latestPreservedVersionTime st = Some (Some t) ->
                     forall k t', In k (done ++ [x])%list ->
                       isVersionKey variant k = true -> newer k = false ->
                       new_Date Date_parse (JsObject.get k tbv0) = Some t' ->
                       t' <= t)).
  { intros Hxn. split; [|split; [|split]].
    - intros k Hk. auto.
    - intros k Hk. destruct (H2 k Hk) as (Ha & Hb & Hc). auto.
    - intros Hnone. destruct (H3 Hnone) as [Ha Hb]. split; [exact Ha|].
      intros k Hk Hgk. destruct (Hsplit k Hk) as [Hk' | ->]; auto.
    - intros t Hlt k t' Hk Hgk Hnk Hd.
      destruct (Hsplit k Hk) as [Hk' | ->].
      + apply (H4 t Hlt k t' Hk' Hgk Hnk Hd).
      + rewrite (Hxn Hgk) in Hnk. discriminate. }
  unfold loopBody. destruct (isVersionKey variant x) eqn:Hg.
  2:{ apply Hsame. discriminate. }
  rewrite Hget.
  destruct (Date_gt (new_Date Date_parse (JsObject.get x tbv0)) C) eqn:Hgt.
  - assert (Hn : newer x = true) by (unfold isNewer; rewrite Hg, Hgt; reflexivity).
    destruct (Hsame (fun _ => Hn)) as (_ & S2 & S3 & S4).
    unfold latestInv; simpl. split; [|split; [|split]]; auto.
    intros k. rewrite Set_has_add. intros Hk.
    apply orb_prop in Hk. destruct Hk as [Hk|Hk].
    + apply String.eqb_eq in Hk. subst k. exact Hlast.
    + auto.
  - assert (Hn : newer x = false) by (unfold isNewer; rewrite Hg, Hgt; reflexivity).
    destruct (isLater (new_Date Date_parse (JsObject.get x tbv0))
                      (latestPreservedVersionTime st)) eqn:Hlater.
    + unfold latestInv; simpl. split; [|split; [|split]].
      * intros k Hk. auto.
      * intros k Hk. injection Hk as <-. auto.
      * discriminate.
      * intros t Hlt k t' Hk Hgk Hnk Hd. injection Hlt as Hlt.
        destruct (Hsplit k Hk) as [Hk' | ->].
        -- destruct (latestPreservedVersionTime st) as [lt|] eqn:Hold.
           ++ simpl in Hlater. rewrite Hlt in Hlater.
              destruct lt as [told|]; simpl in Hlater; [|discriminate].
              apply Z.gtb_lt in Hlater.
              pose proof (H4 told eq_refl k t' Hk' Hgk Hnk Hd). lia.
           ++ destruct (H3 (HtN eq_refl)) as [_ Hall].
              rewrite (Hall k Hk' Hgk) in Hnk. discriminate.
        -- rewrite Hlt in Hd. injection Hd as <-. lia.
    + destruct (latestPreservedVersionTime st) as [lt|] eqn:Hold;
        [|simpl in Hlater; discriminate].
      simpl in Hlater.
      unfold latestInv. rewrite Hold. split; [|split; [|split]].
      * intros k Hk. auto.
      * intros k Hk. destruct (H2 k Hk) as (Ha & Hb & Hc). auto.
      * intros Hnone. destruct (H3 Hnone) as [Ha _]. discriminate.
      * intros t Hlt k t' Hk Hgk Hnk Hd. injection Hlt as ->.
        destruct (Hsplit k Hk) as [Hk' | ->].
        -- apply (H4 t eq_refl k t' Hk' Hgk Hnk Hd).
        -- rewrite Hd in Hlater. simpl in Hlater.
           rewrite Z.gtb_ltb in Hlater. apply Z.ltb_ge in Hlater. exact Hlater.
Qed.

Lemma versionLoop_latest :
  let st := versionLoop Date_parse variant C tbv0 vs0 in
  LInv (JsObject.keys tbv0) st.
Proof.
  intros st. unfold st, versionLoop.
  assert (H : Inv (fold_left body (JsObject.keys tbv0) (initLoop tbv0 vs0)) /\
              LInv (JsObject.keys tbv0)
                   (fold_left body (JsObject.keys tbv0) (initLoop tbv0 vs0))).
  { apply (fold_left_prefix body (fun done s => Inv s /\ LInv done s)).
    - split; [apply initLoop_inv|].
      unfold latestInv, initLoop; simpl. repeat split; try discriminate.
      intros k [].
    - intros done x rest a Hl [HI HL]. split.
      + apply (loopBody_inv Date_parse variant C tbv0 vs0 a x HI).
      + apply loopBody_latestInv; [|exact HI|exact HL].
        intros Hin. rewrite Hl in distinct.
        apply NoDup_remove_2 in distinct. apply distinct.
        apply in_or_app. left. exact Hin. }
  apply H.
Qed.

End LatestChoice.

(** ** The rewritten document, in full *)

Lemma has_In {V : Type} (k : string) (o : JsObject.t V) :
  JsObject.has k o = true <-> In k (JsObject.keys o).
Proof.
  unfold JsObject.has. rewrite existsb_exists. split.
  - intros (x & Hx & He). apply String.eqb_eq in He. subst x. exact Hx.
  - intros H. exists k. split; [exact H|apply String.eqb_refl].
Qed.

Lemma isSome_get_In {V : Type} (k : string) (o : JsObject.t V) :
  isSome (JsObject.get k o) = true <-> In k (JsObject.keys o).
Proof.
  split.
  - destruct (JsObject.get k o) eqn:E; [|discriminate].
    intros _. eapply JsObjectFacts.get_Some_In. exact E.
  - intros H. apply JsObjectFacts.In_get_Some in H. destruct H as [v ->].
    reflexivity.
Qed.

Lemma rewriteDocument_full (Date_parse : string -> Date) (variant : Variant)
    (C : Date) (D : PackageMetadata) (tbv vs : JsObject.t string) :
  time D = Some tbv -> versions D = Some vs ->
  let st := versionLoop Date_parse variant C tbv vs in
  let D1 := mkPackageMetadata (name D) (Some (objVersions st))
              (Some (timeByVersion st)) (dist_tags D) (otherFields D) in
  rewriteDocument Date_parse variant C D =
  (changesMade st,
   if latestWasDeleted st D1 then setLatest D1 (latestPreservedVersion st)
   else D1).
Proof.
  intros Ht Hv. unfold rewriteDocument, removeVersionsFromPackageMetadata.
  simpl. rewrite Ht, Hv. simpl.
  destruct (latestWasDeleted _ _); reflexivity.
Qed.

Lemma not_newer_outside (Date_parse : string -> Date) (variant : Variant)
    (C : Date) (tbv : JsObject.t string) :
  existsb (isNewer Date_parse variant C tbv) (JsObject.keys tbv) = false ->
  forall k, isNewer Date_parse variant C tbv k = false.
Proof.
  intros Hex k. destruct (isNewer Date_parse variant C tbv k) eqn:Hn;
    [|reflexivity].
  assert (existsb (isNewer Date_parse variant C tbv) (JsObject.keys tbv) = true).
  { apply existsb_exists. exists k. split; [|exact Hn].
    eapply newer_In_keys. exact Hn. }
  congruence.
Qed.

Lemma kept_iff_not_newer_aux (Date_parse : string -> Date) (variant : Variant)
    (C : Date) (D : PackageMetadata) (tbv vs : JsObject.t string) (k : string) :
  time D = Some tbv -> versions D = Some vs ->
  (In k (versionKeys (snd (rewriteDocument Date_parse variant C D))) <->
   In k (JsObject.keys vs) /\ isNewer Date_parse variant C tbv k = false).
Proof.
  intros Ht Hv.
  destruct (rewriteDocument_spec Date_parse variant C D tbv vs Ht Hv)
    as (_ & _ & Hv').
  unfold versionKeys. rewrite Hv'.
  rewrite (JsObjectFacts.In_keys_filter
             (fun x => negb (isNewer Date_parse variant C tbv x))).
  rewrite negb_true_iff. tauto.
Qed.

(** X1.  A key of [versions] survives the rewrite exactly when it is
    not a guarded key of the [time] map dated after the cutoff, and the
    same holds for the keys of [time]. *)
Theorem kept_iff_not_newer (Date_parse : string -> Date) (variant : Variant)
    (C : Date) (D : PackageMetadata) (tbv vs : JsObject.t string) (k : string) :
  time D = Some tbv -> versions D = Some vs ->
  (In k (versionKeys (snd (rewriteDocument Date_parse variant C D))) <->
   In k (JsObject.keys vs) /\ isNewer Date_parse variant C tbv k = false) /\
  (In k (timeKeys (snd (rewriteDocument Date_parse variant C D))) <->
   In k (JsObject.keys tbv) /\ isNewer Date_parse variant C tbv k = false).
Proof.
  intros Ht Hv.
  destruct (rewriteDocument_spec Date_parse variant C D tbv vs Ht Hv)
    as (_ & Ht' & Hv').
  unfold versionKeys, timeKeys. rewrite Ht', Hv'.
  rewrite !(JsObjectFacts.In_keys_filter
              (fun x => negb (isNewer Date_parse variant C tbv x))).
  rewrite negb_true_iff. tauto.
Qed.

Lemma kept_iff_not_newer_witness :
  (In "2.0.0" (versionKeys (snd (rewriteDocument Date_parse_ISO Part001
                                   sampleCutoff sampleRegular))) <->
   In "2.0.0" (JsObject.keys sampleRegularVersions) /\
   isNewer Date_parse_ISO Part001 sampleCutoff sampleRegularTime "2.0.0"
     = false) /\
  (In "2.0.0" (timeKeys (snd (rewriteDocument Date_parse_ISO Part001
                                sampleCutoff sampleRegular))) <->
   In "2.0.0" (JsObject.keys sampleRegularTime) /\
   isNewer Date_parse_ISO Part001 sampleCutoff sampleRegularTime "2.0.0"
     = false).
Proof.
  apply (kept_iff_not_newer Date_parse_ISO Part001 sampleCutoff sampleRegular
           sampleRegularTime sampleRegularVersions "2.0.0"); reflexivity.
Defined.

Lemma remove_false_iff (Date_parse : string -> Date) (variant : Variant)
    (C : Date) (s : Store) (r : TimeRef) :
  fst (removeVersionsFromPackageMetadata Date_parse variant C s r) = false <->
  snd (removeVersionsFromPackageMetadata Date_parse variant C s r) = s.
Proof.
  destruct (deref r s) as [tbv|] eqn:Hr.
  2:{ rewrite remove_missing by (left; exact Hr). simpl. tauto. }
  destruct (versions (obj s)) as [vs|] eqn:Hv.
  2:{ rewrite remove_missing by (right; exact Hv). simpl. tauto. }
  destruct (remove_spec Date_parse variant C s r tbv vs Hr Hv)
    as (Hc & Hr' & _).
  split.
  - intros Hf. rewrite Hc in Hf.
    pose proof (not_newer_outside Date_parse variant C tbv Hf) as Hn.
    rewrite (remove_noop Date_parse variant C s r tbv vs Hr Hv Hn).
    reflexivity.
  - intros Hs. rewrite Hs, Hr in Hr'. injection Hr' as Hr'.
    rewrite Hc. apply not_true_is_false. intros Hex.
    apply existsb_exists in Hex. destruct Hex as (k & Hk & Hn).
    rewrite Hr' in Hk.
    apply (JsObjectFacts.In_keys_filter
             (fun x => negb (isNewer Date_parse variant C tbv x))) in Hk.
    destruct Hk as [_ Hk]. rewrite Hn in Hk. discriminate.
Qed.

(** In the fall-back call the document stays as it is when no key of
    its [versions] and not its [latest] tag is newer in the other
    [time] map. *)
Lemma fallback_document_untouched (Date_parse : string -> Date)
    (variant : Variant) (C : Date) (o : PackageMetadata)
    (tbv vs : JsObject.t string) :
  versions o = Some vs ->
  forallb (fun k => negb (isNewer Date_parse variant C tbv k))
          (JsObject.keys vs) = true ->
  match latestOf o with
  | Some l => negb (isNewer Date_parse variant C tbv l)
  | None => true
  end = true ->
  obj (snd (removeVersionsFromPackageMetadata Date_parse variant C
              (mkStore o (Some tbv)) FullMetadataTime)) = o.
Proof.
  intros Hv Hvs Hl. rewrite forallb_forall in Hvs.
  destruct (versionLoop_spec Date_parse variant C tbv vs)
    as (_ & Hov & Hd & _ & _). cbv zeta in Hov, Hd.
  rewrite filter_all_true in Hov.
  2:{ intros [k x] Hin. apply Hvs. unfold JsObject.keys.
      apply in_map_iff. exists (k, x). auto. }
  assert (Hlw : latestWasDeleted
                  (versionLoop Date_parse variant C tbv vs)
                  (obj (writeBack FullMetadataTime (mkStore o (Some tbv))
                          (versionLoop Date_parse variant C tbv vs))) = false).
  { unfold latestWasDeleted, latestOf in *. simpl.
    destruct (dist_tags o) as [tags|]; [|apply andb_false_r].
    destruct (latest tags) as [l|]; [|apply andb_false_r].
    rewrite Hd. apply negb_true_iff in Hl. rewrite Hl.
    rewrite !andb_false_r. reflexivity. }
  unfold removeVersionsFromPackageMetadata.
  change (deref FullMetadataTime (mkStore o (Some tbv))) with (Some tbv).
  change (obj (mkStore o (Some tbv))) with o at 1.
  rewrite Hv. cbv zeta. rewrite Hlw.
  unfold writeBack. cbn [snd obj]. rewrite Hov.
  destruct o as [n v t d x]. simpl in *. subst v. reflexivity.
Qed.

(** X2.  The flag the rewriter returns is exact about the two objects
    it edits: it is [false] exactly when the document and the object
    [timeByVersion] are left as they were.  When [timeByVersion] is the
    document's own [time] this means that the document is unchanged.  In
    the fall-back call, where [timeByVersion] comes from the second
    answer, the flag is [true] as soon as that map has a newer key: the
    document itself is still untouched when none of its versions and not
    its [latest] tag is newer. *)
Theorem unchanged_iff_returns_false (Date_parse : string -> Date)
    (variant : Variant) (C : Date) (D o : PackageMetadata)
    (tbv vs : JsObject.t string) :
  versions o = Some vs ->
  forallb (fun k => negb (isNewer Date_parse variant C tbv k))
          (JsObject.keys vs) = true ->
  match latestOf o with
  | Some l => negb (isNewer Date_parse variant C tbv l)
  | None => true
  end = true ->
  (fst (rewriteDocument Date_parse variant C D) = false <->
   snd (rewriteDocument Date_parse variant C D) = D) /\
  (forall s r,
     fst (removeVersionsFromPackageMetadata Date_parse variant C s r) = false <->
     snd (removeVersionsFromPackageMetadata Date_parse variant C s r) = s) /\
  fst (removeVersionsFromPackageMetadata Date_parse variant C
         (mkStore o (Some tbv)) FullMetadataTime) =
    existsb (isNewer Date_parse variant C tbv) (JsObject.keys tbv) /\
  obj (snd (removeVersionsFromPackageMetadata Date_parse variant C
              (mkStore o (Some tbv)) FullMetadataTime)) = o.
Proof.
  intros Hv Hvs Hl. split; [|split; [|split]].
  - rewrite rewriteDocument_remove. simpl.
    pose proof (remove_false_iff Date_parse variant C (mkStore D None) ObjTime)
      as H.
    pose proof (remove_ObjTime_store Date_parse variant C D) as Hf.
    destruct (snd (removeVersionsFromPackageMetadata Date_parse variant C
                     (mkStore D None) ObjTime)) as [D1 f1].
    simpl in *. subst f1. rewrite H. split; [intros E; injection E; auto|].
    intros ->. reflexivity.
  - intros s r. apply remove_false_iff.
  - apply (remove_spec Date_parse variant C (mkStore o (Some tbv))
             FullMetadataTime tbv vs eq_refl Hv).
  - apply (fallback_document_untouched Date_parse variant C o tbv vs Hv Hvs Hl).
Qed.

Lemma unchanged_iff_returns_false_witness :
  (fst (rewriteDocument Date_parse_ISO MainJs sampleCutoff sampleRegular)
     = false <->
   snd (rewriteDocument Date_parse_ISO MainJs sampleCutoff sampleRegular)
     = sampleRegular) /\
  (forall s r,
     fst (removeVersionsFromPackageMetadata Date_parse_ISO MainJs
            sampleCutoff s r) = false <->
     snd (removeVersionsFromPackageMetadata Date_parse_ISO MainJs
            sampleCutoff s r) = s) /\
  fst (removeVersionsFromPackageMetadata Date_parse_ISO MainJs sampleCutoff
         (mkStore sampleCompactOld (Some sampleReservedTime))
         FullMetadataTime) =
    existsb (isNewer Date_parse_ISO MainJs sampleCutoff sampleReservedTime)
            (JsObject.keys sampleReservedTime) /\
  obj (snd (removeVersionsFromPackageMetadata Date_parse_ISO MainJs
              sampleCutoff
              (mkStore sampleCompactOld (Some sampleReservedTime))
              FullMetadataTime)) = sampleCompactOld.
Proof.
  apply (unchanged_iff_returns_false Date_parse_ISO MainJs sampleCutoff
           sampleRegular sampleCompactOld sampleReservedTime
           [("1.0.0", "{}")]).
  - reflexivity.
  - vm_compute. reflexivity.
  - vm_compute. reflexivity.
Defined.

(** The fall-back call of the witness returns [true] and edits only
    the [time] map of the second answer. *)
Example fallback_true_document_untouched :
  removeVersionsFromPackageMetadata Date_parse_ISO MainJs sampleCutoff
    (mkStore sampleCompactOld (Some sampleReservedTime)) FullMetadataTime =
  (true,
   mkStore sampleCompactOld
     (Some [("modified", "2020-03-01T00:00:00.000Z");
            ("changed", "2020-03-01T00:00:00.000Z");
            ("1.0.0", "2019-06-01T00:00:00.000Z")])).
Proof. vm_compute. reflexivity. Qed.

(** X3.  With an invalid cutoff (the environment variable missing or
    not a date) the rewriter hides nothing and returns [false]. *)
Theorem invalid_cutoff_hides_nothing (Date_parse : string -> Date)
    (variant : Variant) (D : PackageMetadata) :
  rewriteDocument Date_parse variant None D = (false, D).
Proof.
  assert (Hn : forall tbv k, isNewer Date_parse variant None tbv k = false).
  { intros tbv k. unfold isNewer.
    destruct (new_Date Date_parse (JsObject.get k tbv)); simpl;
      apply andb_false_r. }
  destruct (time D) as [tbv|] eqn:Ht.
  2:{ apply rewriteDocument_missing. left. exact Ht. }
  destruct (versions D) as [vs|] eqn:Hv.
  2:{ apply rewriteDocument_missing. right. exact Hv. }
  rewrite rewriteDocument_remove.
  rewrite (remove_noop Date_parse variant None (mkStore D None) ObjTime tbv vs
             Ht Hv (Hn tbv)). reflexivity.
Qed.

(** X4.  A version whose [time] entry is missing or does not parse as
    a date is never hidden, whatever the cutoff. *)
Theorem undated_version_kept (Date_parse : string -> Date)
    (variant : Variant) (C : Date) (D : PackageMetadata) (v : string) :
  In v (versionKeys D) ->
  new_Date Date_parse (timeOf D v) = None ->
  In v (versionKeys (snd (rewriteDocument Date_parse variant C D))) /\
  versionOf (snd (rewriteDocument Date_parse variant C D)) v = versionOf D v /\
  timeOf (snd (rewriteDocument Date_parse variant C D)) v = timeOf D v.
Proof.
  intros Hin Hd.
  destruct (time D) as [tbv|] eqn:Ht.
  2:{ rewrite rewriteDocument_missing by (left; exact Ht). simpl. auto. }
  destruct (versions D) as [vs|] eqn:Hv.
  2:{ rewrite rewriteDocument_missing by (right; exact Hv). simpl. auto. }
  destruct (rewriteDocument_spec Date_parse variant C D tbv vs Ht Hv)
    as (_ & Ht' & Hv').
  assert (Hn : isNewer Date_parse variant C tbv v = false).
  { unfold isNewer. unfold timeOf in Hd. rewrite Ht in Hd. rewrite Hd.
    simpl. apply andb_false_r. }
  unfold versionKeys, versionOf, timeOf in *. rewrite Ht', Hv', ?Ht, ?Hv.
  rewrite Hv in Hin.
  rewrite !(JsObjectFacts.get_filter
              (fun x => negb (isNewer Date_parse variant C tbv x))).
  rewrite Hn. simpl. split; [|auto].
  apply (JsObjectFacts.In_keys_filter
           (fun x => negb (isNewer Date_parse variant C tbv x))).
  rewrite Hn. auto.
Qed.

Lemma undated_version_kept_witness :
  In "1.1.0" (versionKeys (snd (rewriteDocument Date_parse_ISO Part001
                                  earlyCutoff sampleUndated))) /\
  versionOf (snd (rewriteDocument Date_parse_ISO Part001 earlyCutoff
                    sampleUndated)) "1.1.0" = versionOf sampleUndated "1.1.0" /\
  timeOf (snd (rewriteDocument Date_parse_ISO Part001 earlyCutoff
                 sampleUndated)) "1.1.0" = timeOf sampleUndated "1.1.0".
Proof.
  apply (undated_version_kept Date_parse_ISO Part001 earlyCutoff sampleUndated
           "1.1.0").
  - simpl. right. left. reflexivity.
  - reflexivity.
Defined.

(** X5.  When [versions] and [time] list the same versions before the
    rewrite, they still do after it. *)
Theorem versions_match_time_preserved (Date_parse : string -> Date)
    (variant : Variant) (C : Date) (D : PackageMetadata) :
  versionsMatchTime variant D = true ->
  versionsMatchTime variant (snd (rewriteDocument Date_parse variant C D)) = true.
Proof.
  intros H.
  destruct (time D) as [tbv|] eqn:Ht.
  2:{ rewrite rewriteDocument_missing by (left; exact Ht). exact H. }
  destruct (versions D) as [vs|] eqn:Hv.
  2:{ rewrite rewriteDocument_missing by (right; exact Hv). exact H. }
  destruct (rewriteDocument_spec Date_parse variant C D tbv vs Ht Hv)
    as (_ & Ht' & Hv').
  unfold versionsMatchTime, versionKeys, timeKeys, timeOf, versionOf in *.
  rewrite Ht, Hv in H. rewrite Ht', Hv'.
  apply andb_prop in H. destruct H as [H1 H2].
  rewrite forallb_forall in H1, H2.
  apply andb_true_intro. split; apply forallb_forall; intros k Hk;
    apply (JsObjectFacts.In_keys_filter
             (fun x => negb (isNewer Date_parse variant C tbv x))) in Hk;
    destruct Hk as [Hk Hn];
    rewrite (JsObjectFacts.get_filter
               (fun x => negb (isNewer Date_parse variant C tbv x)));
    rewrite Hn; auto.
Qed.

Lemma versions_match_time_preserved_witness :
  versionsMatchTime Part001
    (snd (rewriteDocument Date_parse_ISO Part001 sampleCutoff sampleRegular))
  = true.
Proof.
  apply (versions_match_time_preserved Date_parse_ISO Part001 sampleCutoff
           sampleRegular).
  reflexivity.
Defined.

Lemma rewrite_only_removes_tags (Date_parse : string -> Date)
    (variant : Variant) (C : Date) (D : PackageMetadata) :
  option_map otherTags (dist_tags (snd (rewriteDocument Date_parse variant C D)))
  = option_map otherTags (dist_tags D).
Proof.
  destruct (time D) as [tbv|] eqn:Ht.
  2:{ rewrite rewriteDocument_missing by (left; exact Ht). reflexivity. }
  destruct (versions D) as [vs|] eqn:Hv.
  2:{ rewrite rewriteDocument_missing by (right; exact Hv). reflexivity. }
  rewrite (rewriteDocument_full Date_parse variant C D tbv vs Ht Hv).
  simpl snd.
  destruct (latestWasDeleted _ _); unfold setLatest; simpl;
    destruct (dist_tags D); reflexivity.
Qed.

(** X6.  The rewriter only removes: the name, the other fields and the
    other dist-tags stay, and an entry of [versions] or [time] that is
    still there has the value it had. *)
Theorem rewrite_only_removes (Date_parse : string -> Date)
    (variant : Variant) (C : Date) (D : PackageMetadata) :
  let D' := snd (rewriteDocument Date_parse variant C D) in
  name D' = name D /\
  otherFields D' = otherFields D /\
  option_map otherTags (dist_tags D') = option_map otherTags (dist_tags D) /\
  (forall v x, versionOf D' v = Some x -> versionOf D v = Some x) /\
  (forall k x, timeOf D' k = Some x -> timeOf D k = Some x).
Proof.
  intros D'. subst D'.
  destruct (time D) as [tbv|] eqn:Ht.
  2:{ rewrite rewriteDocument_missing by (left; exact Ht). simpl. auto. }
  destruct (versions D) as [vs|] eqn:Hv.
  2:{ rewrite rewriteDocument_missing by (right; exact Hv). simpl. auto. }
  destruct (rewriteDocument_spec Date_parse variant C D tbv vs Ht Hv)
    as (_ & Ht' & Hv').
  assert (Hget : (forall v x, versionOf (snd (rewriteDocument Date_parse variant C D)) v = Some x ->
                              versionOf D v = Some x) /\
                 (forall k x, timeOf (snd (rewriteDocument Date_parse variant C D)) k = Some x ->
                              timeOf D k = Some x)).
  { unfold versionOf, timeOf. rewrite Ht', Hv', Ht, Hv.
    split; intros k x;
      rewrite (JsObjectFacts.get_filter
                 (fun y => negb (isNewer Date_parse variant C tbv y)));
      destruct (negb (isNewer Date_parse variant C tbv k)); auto; discriminate. }
  destruct Hget as [Hg1 Hg2].
  rewrite (rewriteDocument_full Date_parse variant C D tbv vs Ht Hv) in *.
  simpl snd in *.
  destruct (latestWasDeleted _ _); unfold setLatest; simpl;
    destruct (dist_tags D); simpl; auto.
Qed.

Section LatestTag.

Variable Date_parse : string -> Date.
Variable variant : Variant.
Variable C : Date.
Variable D : PackageMetadata.
Variables tbv vs : JsObject.t string.
Hypothesis Htime : time D = Some tbv.
Hypothesis Hversions : versions D = Some vs.
Hypothesis Hdistinct : distinctKeys tbv = true.

Local Abbreviation D' := (snd (rewriteDocument Date_parse variant C D)).
Local Abbreviation st := (versionLoop Date_parse variant C tbv vs).
Local Abbreviation newer := (isNewer Date_parse variant C tbv).

(** The tag after the rewrite: the version the loop selected when the
    old one was deleted, the old one otherwise. *)
Lemma latestOf_rewritten (l : string) :
  latestOf D = Some l -> truthy l = true ->
  latestOf D' = if newer l then latestPreservedVersion st else Some l.
Proof.
  intros Hl Htr.
  destruct (versionLoop_spec Date_parse variant C tbv vs)
    as (_ & _ & Hd & Hc & _). cbv zeta in Hd, Hc.
  rewrite (rewriteDocument_full Date_parse variant C D tbv vs Htime Hversions).
  simpl snd. unfold latestOf in *. unfold latestWasDeleted. simpl dist_tags.
  destruct (dist_tags D) as [tags|] eqn:Htags; [|discriminate].
  rewrite Hl, Htr, Hd, Hc. simpl.
  destruct (newer l) eqn:Hn.
  - assert (Hex : existsb newer (JsObject.keys tbv) = true).
    { apply existsb_exists. exists l. split; [|exact Hn].
      eapply newer_In_keys. exact Hn. }
    rewrite Hex. simpl. unfold setLatest. simpl. reflexivity.
  - rewrite andb_false_r. simpl. exact Hl.
Qed.

Lemma selected_is_kept (k : string) :
  latestPreservedVersion st = Some k ->
  In k (JsObject.keys tbv) /\ isVersionKey variant k = true /\
  newer k = false /\
  latestPreservedVersionTime st =
    Some (new_Date Date_parse (JsObject.get k tbv)).
Proof.
  intros Hk.
  destruct (versionLoop_spec Date_parse variant C tbv vs)
    as (_ & _ & _ & _ & Hg). cbv zeta in Hg.
  destruct (versionLoop_latest Date_parse variant C tbv vs
              (distinctKeys_NoDup tbv Hdistinct)) as (_ & H2 & _).
  destruct (H2 k Hk) as (Ha & Hb & Hc). auto.
Qed.

End LatestTag.

(** X7.  In a document whose [versions] and [time] list the same
    versions under distinct keys, a [latest] tag that names a version
    before the rewrite names a version that is still there after it,
    when the tag is still defined. *)
Theorem latest_names_kept_version (Date_parse : string -> Date)
    (variant : Variant) (C : Date) (D : PackageMetadata)
    (tbv vs : JsObject.t string) (l l' : string) :
  time D = Some tbv -> versions D = Some vs ->
  distinctKeys tbv = true ->
  versionsMatchTime variant D = true ->
  latestOf D = Some l -> truthy l = true -> In l (versionKeys D) ->
  latestOf (snd (rewriteDocument Date_parse variant C D)) = Some l' ->
  In l' (versionKeys (snd (rewriteDocument Date_parse variant C D))).
Proof.
  intros Ht Hv Hdist Hwf Hl Htr Hin Hl'.
  rewrite (latestOf_rewritten Date_parse variant C D tbv vs Ht Hv l Hl Htr) in Hl'.
  apply (proj2 (kept_iff_not_newer_aux Date_parse variant C D tbv vs l' Ht Hv)).
  unfold versionsMatchTime in Hwf. apply andb_prop in Hwf.
  destruct Hwf as [_ Hwf]. rewrite forallb_forall in Hwf.
  unfold timeKeys, versionOf, versionKeys in *. rewrite Ht in Hwf.
  rewrite Hv in Hwf, Hin.
  destruct (isNewer Date_parse variant C tbv l) eqn:Hn.
  - destruct (selected_is_kept Date_parse variant C tbv vs Hdist l' Hl')
      as (Hk & Hg & Hnk & _).
    split; [|exact Hnk].
    specialize (Hwf l' Hk). rewrite Hg in Hwf. simpl in Hwf.
    apply isSome_get_In. exact Hwf.
  - injection Hl' as <-. split; [exact Hin|exact Hn].
Qed.

Lemma latest_names_kept_version_witness :
  In "1.1.0" (versionKeys (snd (rewriteDocument Date_parse_ISO Part001
                                  sampleCutoff sampleRegular))).
Proof.
  apply (latest_names_kept_version Date_parse_ISO Part001 sampleCutoff
           sampleRegular sampleRegularTime sampleRegularVersions
           "2.0.0" "1.1.0").
  - reflexivity.
  - reflexivity.
  - reflexivity.
  - reflexivity.
  - reflexivity.
  - reflexivity.
  - simpl. right. right. left. reflexivity.
  - vm_compute. reflexivity.
Defined.

(** X8.  When the version [latest] names is hidden, the version the tag
    is moved to, if its date is valid, has the greatest publish time
    among the guarded keys of [time] that are dated at or before the
    cutoff. *)
Theorem new_latest_is_most_recent (Date_parse : string -> Date)
    (variant : Variant) (C : Date) (D : PackageMetadata)
    (tbv vs : JsObject.t string) (l l' k : string) (t t' : Z) :
  time D = Some tbv -> versions D = Some vs ->
  distinctKeys tbv = true ->
  latestOf D = Some l -> truthy l = true ->
  isNewer Date_parse variant C tbv l = true ->
  latestOf (snd (rewriteDocument Date_parse variant C D)) = Some l' ->
  new_Date Date_parse (JsObject.get l' tbv) = Some t' ->
  isVersionKey variant k = true ->
  new_Date Date_parse (JsObject.get k tbv) = Some t ->
  Date_gt (Some t) C = false ->
  t <= t' /\ isNewer Date_parse variant C tbv l' = false.
Proof.
  intros Ht Hv Hdist Hl Htr Hn Hl' Ht' Hg Hk Hgt.
  rewrite (latestOf_rewritten Date_parse variant C D tbv vs Ht Hv l Hl Htr),
    Hn in Hl'.
  destruct (selected_is_kept Date_parse variant C tbv vs Hdist l' Hl')
    as (_ & _ & Hnl & Hlt).
  split; [|exact Hnl].
  destruct (versionLoop_latest Date_parse variant C tbv vs
              (distinctKeys_NoDup tbv Hdist)) as (_ & _ & _ & H4).
  rewrite Ht' in Hlt.
  apply (H4 t' Hlt k t).
  - destruct (JsObject.get k tbv) as [tv|] eqn:E; [|discriminate].
    eapply JsObjectFacts.get_Some_In. exact E.
  - exact Hg.
  - unfold isNewer. rewrite Hg, Hk, Hgt. reflexivity.
  - exact Hk.
Qed.

Lemma new_latest_is_most_recent_witness :
  1559347201000 <= 1567296000000 /\
  isNewer Date_parse_ISO Part001 sampleCutoff sampleRegularTime "1.1.0" = false.
Proof.
  apply (new_latest_is_most_recent Date_parse_ISO Part001 sampleCutoff
           sampleRegular sampleRegularTime sampleRegularVersions
           "2.0.0" "1.1.0" "1.0.0" 1559347201000 1567296000000).
  - reflexivity.
  - reflexivity.
  - reflexivity.
  - reflexivity.
  - reflexivity.
  - vm_compute. reflexivity.
  - vm_compute. reflexivity.
  - vm_compute. reflexivity.
  - reflexivity.
  - vm_compute. reflexivity.
  - vm_compute. reflexivity.
Defined.

(** X9.  When every version is hidden, the one [latest] names among
    them, the tag is left undefined and the rewriter reports a
    change. *)
Theorem latest_undefined_when_nothing_left (Date_parse : string -> Date)
    (variant : Variant) (C : Date) (D : PackageMetadata)
    (tbv vs : JsObject.t string) (l : string) :
  time D = Some tbv -> versions D = Some vs ->
  distinctKeys tbv = true ->
  latestOf D = Some l -> truthy l = true ->
  isNewer Date_parse variant C tbv l = true ->
  allNewer Date_parse variant C tbv = true ->
  fst (rewriteDocument Date_parse variant C D) = true /\
  latestOf (snd (rewriteDocument Date_parse variant C D)) = None /\
  (exists tags, dist_tags (snd (rewriteDocument Date_parse variant C D))
                = Some tags).
Proof.
  intros Ht Hv Hdist Hl Htr Hn Hall.
  split; [|split].
  - destruct (rewriteDocument_spec Date_parse variant C D tbv vs Ht Hv)
      as (Hc & _). rewrite Hc. apply existsb_exists. exists l.
    split; [|exact Hn]. eapply newer_In_keys. exact Hn.
  - rewrite (latestOf_rewritten Date_parse variant C D tbv vs Ht Hv l Hl Htr),
      Hn.
    destruct (latestPreservedVersion
                (versionLoop Date_parse variant C tbv vs)) as [k|] eqn:Hk;
      [|reflexivity].
    destruct (selected_is_kept Date_parse variant C tbv vs Hdist k Hk)
      as (Hin & Hg & Hnk & _).
    unfold allNewer in Hall. rewrite forallb_forall in Hall.
    specialize (Hall k Hin). rewrite Hg, Hnk in Hall. discriminate.
  - pose proof (rewrite_only_removes_tags Date_parse variant C D) as Htags.
    unfold latestOf in Hl.
    destruct (dist_tags D) as [tags|]; [|discriminate].
    destruct (dist_tags (snd (rewriteDocument Date_parse variant C D)))
      as [tags'|]; [eauto|discriminate].
Qed.

Lemma latest_undefined_when_nothing_left_witness :
  fst (rewriteDocument Date_parse_ISO Part001 earlyCutoff sampleRegular) = true /\
  latestOf (snd (rewriteDocument Date_parse_ISO Part001 earlyCutoff
                   sampleRegular)) = None /\
  (exists tags, dist_tags (snd (rewriteDocument Date_parse_ISO Part001
                                  earlyCutoff sampleRegular)) = Some tags).
Proof.
  apply (latest_undefined_when_nothing_left Date_parse_ISO Part001 earlyCutoff
           sampleRegular sampleRegularTime sampleRegularVersions "2.0.0").
  - reflexivity.
  - reflexivity.
  - reflexivity.
  - reflexivity.
  - reflexivity.
  - vm_compute. reflexivity.
  - vm_compute. reflexivity.
Defined.

(** ** More on the request handler *)

Section HandlerMore.

Variable Date_parse : string -> Date.
Variable JSON_parse : string -> option PackageMetadata.
Variable JSON_stringify : PackageMetadata -> string.
Variable performRequest : nat -> UpstreamRequestOptions -> option ResponseResult.

Local Abbreviation handler :=
  (onRequest Date_parse JSON_parse JSON_stringify performRequest).
Local Abbreviation respond :=
  (onResponse Date_parse JSON_parse JSON_stringify performRequest).

Lemma rewriteAndSend_pushed (variant : Variant) (C : Date)
    (requests : list UpstreamRequestOptions) (s : Store) (r : TimeRef)
    (rr : ResponseResult) :
  pushed (rewriteAndSend Date_parse JSON_stringify variant C requests s r rr) =
  match variant, deref r s with
  | MainJs, _ => []
  | _, Some tbv => updateTimeline Date_parse (name (obj s)) tbv
  | _, None => []
  end.
Proof.
  unfold rewriteAndSend.
  destruct (removeVersionsFromPackageMetadata Date_parse variant C s r).
  reflexivity.
Qed.

(** One upstream request, or two when the first answer has no [time]
    and the request asked for the compact format. *)
Lemma onResponse_shape (variant : Variant) (C : Date)
    (opts : UpstreamRequestOptions) (could : bool) (rr : ResponseResult) :
  upstream (respond variant C opts could rr) = [opts] \/
  (upstream (respond variant C opts could rr) = [opts; withAcceptJson opts] /\
   could = true /\
   exists o, JSON_parse (res_body rr) = Some o /\
             needsFullMetadata o opts = true).
Proof.
  unfold onResponse.
  destruct could; simpl; [|left; reflexivity].
  destruct (isJson (res_headers rr)); [|left; reflexivity].
  destruct (JSON_parse (res_body rr)) as [o|]; [|left; reflexivity].
  destruct (needsFullMetadata o opts) eqn:Hneed.
  - right. split; [|split; [reflexivity|exists o; auto]].
    destruct (performRequest 1 (withAcceptJson opts)) as [full|];
      [|reflexivity].
    destruct (JSON_parse (res_body full)) as [fo|]; [|reflexivity].
    apply rewriteAndSend_run.
  - left. apply rewriteAndSend_run.
Qed.

Lemma rewriteAccept_other (variant : Variant) (url : string)
    (h h' : JsObject.t string) (k : string) :
  rewriteAccept variant url h = Some h' -> String.eqb k "accept" = false ->
  JsObject.get k h' = JsObject.get k h.
Proof.
  unfold rewriteAccept. intros H Hk.
  destruct variant.
  - destruct (_ && _); injection H as <-;
      rewrite ?JsObjectFacts.get_set, ?Hk; reflexivity.
  - destruct (JsObject.get "accept" h) as [a|]; [|discriminate].
    destruct (String_includes a compactMediaType); injection H as <-;
      rewrite ?JsObjectFacts.get_set, ?Hk; reflexivity.
  - destruct (_ && _); injection H as <-;
      rewrite ?JsObjectFacts.get_set, ?Hk; reflexivity.
Qed.

(** X10.  No upstream request made for a registry host carries an
    [accept-encoding], [if-none-match] or [connection] header, whatever
    the client sent. *)
Theorem registry_requests_stripped (variant : Variant) (C : Date)
    (req : IncomingMessage) (body : string) (opts : UpstreamRequestOptions) :
  isRegistryHostname variant
    (fst (parseHostHeader (JsObject.get "host" (req_headers req)))) = true ->
  In opts (upstream (handler variant C req body)) ->
  JsObject.get "accept-encoding" (up_headers opts) = None /\
  JsObject.get "if-none-match" (up_headers opts) = None /\
  JsObject.get "connection" (up_headers opts) = None.
Proof.
  intros Hreg. unfold onRequest.
  destruct (parseHostHeader _) as [host port]. simpl in Hreg.
  unfold normalizeHeaders. rewrite Hreg.
  set (h := JsObject.delete "connection" _).
  destruct (rewriteAccept variant (req_url req) h) as [h'|] eqn:Hrw;
    [|intros []].
  assert (Hh : JsObject.get "accept-encoding" h' = None /\
               JsObject.get "if-none-match" h' = None /\
               JsObject.get "connection" h' = None).
  { rewrite !(rewriteAccept_other variant (req_url req) h h' _ Hrw)
      by reflexivity.
    subst h. rewrite !JsObjectFacts.get_delete. simpl. auto. }
  set (o1 := upstreamRequestOptions req body h' host port).
  assert (H1 : up_headers o1 = h') by reflexivity.
  assert (H2 : forall k, String.eqb k "accept" = false ->
                 JsObject.get k (up_headers (withAcceptJson o1)) =
                 JsObject.get k h').
  { intros k Hk. simpl. rewrite JsObjectFacts.get_set, Hk. reflexivity. }
  assert (Hall : forall l, l = [o1] \/ l = [o1; withAcceptJson o1] ->
                 In opts l ->
                 JsObject.get "accept-encoding" (up_headers opts) = None /\
                 JsObject.get "if-none-match" (up_headers opts) = None /\
                 JsObject.get "connection" (up_headers opts) = None).
  { intros l [->| ->] Hin; simpl in Hin.
    - destruct Hin as [<-|[]]. rewrite H1. exact Hh.
    - destruct Hin as [<-|[<-|[]]].
      + rewrite H1. exact Hh.
      + rewrite !H2 by reflexivity. exact Hh. }
  destruct (performRequest 0 o1) as [rr|].
  - apply Hall. destruct (onResponse_shape variant C o1 true rr) as [E|[E _]];
      rewrite E; auto.
  - apply Hall. left. reflexivity.
Qed.

(** X11.  A request for any other host goes upstream as it came and
    its answer comes back as it came; the rewriter is not run and
    nothing is pushed on the timeline. *)
Theorem other_hosts_pass_through (variant : Variant) (C : Date)
    (req : IncomingMessage) (body : string) :
  isRegistryHostname variant
    (fst (parseHostHeader (JsObject.get "host" (req_headers req)))) = false ->
  exists opts,
    upstream (handler variant C req body) = [opts] /\
    up_headers opts = req_headers req /\
    up_method opts = req_method req /\
    up_path opts = req_url req /\
    up_body opts = body /\
    up_encrypted opts = req_encrypted req /\
    rewriterReturned (handler variant C req body) = None /\
    pushed (handler variant C req body) = [] /\
    match performRequest 0 opts with
    | Some rr =>
        exists r, outcome (handler variant C req body) = Responded r /\
                  statusCode r = statusCode rr /\
                  res_body r = res_body rr /\
                  forall headerName,
                    JsObject.get headerName (res_headers r) =
                    JsObject.get headerName (res_headers rr)
    | None => outcome (handler variant C req body) = SocketError
    end.
Proof.
  intros Hreg. unfold onRequest.
  destruct (parseHostHeader _) as [host port]. simpl in Hreg.
  unfold normalizeHeaders. rewrite Hreg.
  set (opts := upstreamRequestOptions req body (req_headers req) host port).
  exists opts.
  destruct (performRequest 0 opts) as [rr|]; simpl.
  - repeat (split; [reflexivity|]).
    exists (sendResponse rr). split; [reflexivity|].
    split; [reflexivity|]. split; [reflexivity|].
    intros k. apply sendResponse_get.
  - repeat (split; [reflexivity|]). reflexivity.
Qed.

(** X12.  The revision [Part001] never makes a second upstream request:
    once it has rewritten the [accept] header, the fall-back on the full
    metadata cannot fire. *)
Theorem part001_single_upstream_request (C : Date)
    (req : IncomingMessage) (body : string) :
  (List.length (upstream (handler Part001 C req body)) <= 1)%nat.
Proof.
  unfold onRequest.
  destruct (parseHostHeader _) as [host port].
  unfold normalizeHeaders.
  destruct (isRegistryHostname Part001 host).
  2:{ set (opts := upstreamRequestOptions _ _ _ _ _).
      destruct (performRequest 0 opts) as [rr|]; simpl; lia. }
  set (h := JsObject.delete "connection" _).
  unfold rewriteAccept.
  destruct (JsObject.get "accept" h) as [a|] eqn:Ha; [|simpl; lia].
  assert (Hno : forall h',
                (h' = JsObject.set "accept" "application/json" h \/
                 (h' = h /\ String_includes a compactMediaType = false)) ->
                forall o, needsFullMetadata o
                            (upstreamRequestOptions req body h' host port)
                          = false).
  { intros h' Hh' o. unfold needsFullMetadata. simpl.
    destruct (time o); [reflexivity|].
    destruct Hh' as [-> |[-> Hinc]].
    - rewrite JsObjectFacts.get_set. reflexivity.
    - rewrite Ha, Hinc. apply andb_false_r. }
  assert (Hone : forall h',
                (h' = JsObject.set "accept" "application/json" h \/
                 (h' = h /\ String_includes a compactMediaType = false)) ->
                (List.length
                   (upstream
                      (match performRequest 0
                               (upstreamRequestOptions req body h' host port) with
                       | Some responseResult =>
                           respond Part001 C
                             (upstreamRequestOptions req body h' host port)
                             true responseResult
                       | None =>
                           mkHandlerRun
                             [upstreamRequestOptions req body h' host port]
                             [] None SocketError
                       end)) <= 1)%nat).
  { intros h' Hh'.
    destruct (performRequest 0 (upstreamRequestOptions req body h' host port))
      as [rr|]; [|simpl; lia].
    destruct (onResponse_shape Part001 C
                (upstreamRequestOptions req body h' host port) true rr)
      as [E|(_ & _ & o & _ & Hneed)].
    - rewrite E. simpl. lia.
    - rewrite (Hno h' Hh' o) in Hneed. discriminate. }
  destruct (String_includes a compactMediaType) eqn:Hinc.
  - apply Hone. left. reflexivity.
  - apply Hone. right. auto.
Qed.

(** X13.  When the handler makes two upstream requests, the first
    answer parsed to a document without [time], and the second request
    is the first one with [accept] set to [application/json] and nothing
    else changed. *)
Theorem second_request_is_full_metadata (variant : Variant) (C : Date)
    (req : IncomingMessage) (body : string)
    (o1 o2 : UpstreamRequestOptions) :
  upstream (handler variant C req body) = [o1; o2] ->
  JsObject.get "accept" (up_headers o2) = Some "application/json" /\
  (forall headerName, String.eqb headerName "accept" = false ->
     JsObject.get headerName (up_headers o2) =
     JsObject.get headerName (up_headers o1)) /\
  (up_method o2, up_host o2, up_port o2, up_path o2, up_body o2,
   up_encrypted o2) =
  (up_method o1, up_host o1, up_port o1, up_path o1, up_body o1,
   up_encrypted o1) /\
  exists rr o,
    performRequest 0 o1 = Some rr /\
    JSON_parse (res_body rr) = Some o /\ time o = None.
Proof.
  unfold onRequest.
  destruct (parseHostHeader _) as [host port].
  destruct (normalizeHeaders variant host req) as [[h could]|];
    [|discriminate].
  set (opts := upstreamRequestOptions req body h host port).
  destruct (performRequest 0 opts) as [rr|] eqn:Hrr; [|discriminate].
  destruct (onResponse_shape variant C opts could rr)
    as [E|(E & _ & o & Ho & Hneed)]; rewrite E; [discriminate|].
  intros H. injection H as <- <-.
  split; [simpl; rewrite JsObjectFacts.get_set; reflexivity|].
  split.
  { intros k Hk. simpl. rewrite JsObjectFacts.get_set, Hk. reflexivity. }
  split; [reflexivity|].
  exists rr, o. split; [exact Hrr|]. split; [exact Ho|].
  unfold needsFullMetadata in Hneed. destruct (time o); [discriminate|reflexivity].
Qed.

Lemma upstream_at_most_two (variant : Variant) (C : Date)
    (req : IncomingMessage) (body : string) :
  (List.length (upstream (handler variant C req body)) <= 2)%nat.
Proof.
  unfold onRequest.
  destruct (parseHostHeader _) as [host port].
  destruct (normalizeHeaders variant host req) as [[h could]|];
    [|simpl; lia].
  set (opts := upstreamRequestOptions req body h host port).
  destruct (performRequest 0 opts) as [rr|]; [|simpl; lia].
  destruct (onResponse_shape variant C opts could rr) as [E|[E _]];
    rewrite E; simpl; lia.
Qed.

(** X14.  The cutoff has no influence on the traffic or on the
    timeline: with two cutoffs the handler makes the same upstream
    requests, pushes the same publications and runs the rewriter in
    the same cases. *)
Theorem cutoff_does_not_change_traffic (variant : Variant) (C1 C2 : Date)
    (req : IncomingMessage) (body : string) :
  upstream (handler variant C1 req body) =
    upstream (handler variant C2 req body) /\
  pushed (handler variant C1 req body) =
    pushed (handler variant C2 req body) /\
  isSome (rewriterReturned (handler variant C1 req body)) =
    isSome (rewriterReturned (handler variant C2 req body)).
Proof.
  unfold onRequest.
  destruct (parseHostHeader _) as [host port].
  destruct (normalizeHeaders variant host req) as [[h could]|]; [|auto].
  set (opts := upstreamRequestOptions req body h host port).
  destruct (performRequest 0 opts) as [rr|]; [|auto].
  unfold onResponse.
  destruct (could && isJson (res_headers rr)); [|auto].
  destruct (JSON_parse (res_body rr)) as [o|]; [|auto].
  assert (Hfin : forall requests s r,
    upstream (rewriteAndSend Date_parse JSON_stringify variant C1 requests s r rr) =
    upstream (rewriteAndSend Date_parse JSON_stringify variant C2 requests s r rr) /\
    pushed (rewriteAndSend Date_parse JSON_stringify variant C1 requests s r rr) =
    pushed (rewriteAndSend Date_parse JSON_stringify variant C2 requests s r rr) /\
    isSome (rewriterReturned
              (rewriteAndSend Date_parse JSON_stringify variant C1 requests s r rr)) =
    isSome (rewriterReturned
              (rewriteAndSend Date_parse JSON_stringify variant C2 requests s r rr))).
  { intros requests s r. rewrite !rewriteAndSend_pushed.
    destruct (rewriteAndSend_run Date_parse JSON_stringify variant C1
                requests s r rr) as (-> & -> & _).
    destruct (rewriteAndSend_run Date_parse JSON_stringify variant C2
                requests s r rr) as (-> & -> & _).
    auto. }
  destruct (needsFullMetadata o opts).
  - destruct (performRequest 1 (withAcceptJson opts)) as [full|]; [|auto].
    destruct (JSON_parse (res_body full)) as [fo|]; [|auto].
    apply Hfin.
  - apply Hfin.
Qed.

(** X15.  In the revisions that collect the timeline, a registry
    answer with a [time] map puts every publication of the map on the
    timeline, those the rewriter then hides included. *)
Theorem timeline_includes_hidden_versions (variant : Variant) (C : Date)
    (req : IncomingMessage) (body : string)
    (opts : UpstreamRequestOptions) (rr : ResponseResult)
    (o : PackageMetadata) (tbv : JsObject.t string) (version : string) :
  variant <> MainJs ->
  hd_error (upstream (handler variant C req body)) = Some opts ->
  performRequest 0 opts = Some rr ->
  JSON_parse (res_body rr) = Some o ->
  time o = Some tbv ->
  rewriterReturned (handler variant C req body) <> None ->
  In version (JsObject.keys tbv) ->
  version <> "modified" -> version <> "created" ->
  In (mkPublication (name o) version
        (new_Date Date_parse (JsObject.get version tbv)))
     (pushed (handler variant C req body)).
Proof.
  intros Hvar. unfold onRequest.
  destruct (parseHostHeader _) as [host port].
  destruct (normalizeHeaders variant host req) as [[h could]|];
    [|discriminate].
  set (o1 := upstreamRequestOptions req body h host port).
  assert (Hhd : forall run, (exists rest, upstream run = o1 :: rest) ->
                hd_error (upstream run) = Some opts -> opts = o1).
  { intros run [rest E] H. rewrite E in H. simpl in H. congruence. }
  destruct (performRequest 0 o1) as [rr1|] eqn:Hrr1.
  2:{ intros _ _ _ _ H. simpl in H. congruence. }
  intros Hopts Hrr Ho Ht Hran Hin Hm Hc.
  assert (opts = o1).
  { apply (Hhd _ (onResponse_upstream Date_parse JSON_parse JSON_stringify
                    performRequest C variant o1 could rr1) Hopts). }
  subst opts. rewrite Hrr1 in Hrr. injection Hrr as ->.
  revert Hran. unfold onResponse.
  destruct (could && isJson (res_headers rr)); [|simpl; congruence].
  rewrite Ho. unfold needsFullMetadata. rewrite Ht.
  intros _. rewrite rewriteAndSend_pushed. simpl. rewrite Ht.
  assert (Hev : In (mkPublication (name o) version
                      (new_Date Date_parse (JsObject.get version tbv)))
                   (updateTimeline Date_parse (name o) tbv)).
  { unfold updateTimeline. apply in_map_iff. exists version.
    split; [reflexivity|]. apply filter_In. split; [exact Hin|].
    apply andb_true_intro. split; apply negb_true_iff, String.eqb_neq;
      assumption. }
  destruct variant; [contradiction|exact Hev|exact Hev].
Qed.

End HandlerMore.

Lemma registry_requests_stripped_witness :
  JsObject.get "accept-encoding"
    (up_headers (withAcceptJson
       (upstreamRequestOptions sampleRequest EmptyString
          [("host", "registry.npmjs.org"); ("accept", npmAcceptHeader)]
          (Some "registry.npmjs.org") None))) = None /\
  JsObject.get "if-none-match"
    (up_headers (withAcceptJson
       (upstreamRequestOptions sampleRequest EmptyString
          [("host", "registry.npmjs.org"); ("accept", npmAcceptHeader)]
          (Some "registry.npmjs.org") None))) = None /\
  JsObject.get "connection"
    (up_headers (withAcceptJson
       (upstreamRequestOptions sampleRequest EmptyString
          [("host", "registry.npmjs.org"); ("accept", npmAcceptHeader)]
          (Some "registry.npmjs.org") None))) = None.
Proof.
  apply (registry_requests_stripped Date_parse_ISO sampleParse sampleStringify
           sampleNetwork MainJs sampleCutoff sampleRequest EmptyString).
  - reflexivity.
  - vm_compute. right. left. reflexivity.
Defined.

Lemma other_hosts_pass_through_witness :
  exists opts,
    upstream (onRequest Date_parse_ISO sampleParse sampleStringify
                sampleNetwork MainJs sampleCutoff otherRequest EmptyString)
      = [opts] /\
    up_headers opts = req_headers otherRequest /\
    up_method opts = req_method otherRequest /\
    up_path opts = req_url otherRequest /\
    up_body opts = EmptyString /\
    up_encrypted opts = req_encrypted otherRequest /\
    rewriterReturned (onRequest Date_parse_ISO sampleParse sampleStringify
                        sampleNetwork MainJs sampleCutoff otherRequest
                        EmptyString) = None /\
    pushed (onRequest Date_parse_ISO sampleParse sampleStringify
              sampleNetwork MainJs sampleCutoff otherRequest EmptyString) = [] /\
    match sampleNetwork 0 opts with
    | Some rr =>
        exists r,
          outcome (onRequest Date_parse_ISO sampleParse sampleStringify
                     sampleNetwork MainJs sampleCutoff otherRequest
                     EmptyString) = Responded r /\
          statusCode r = statusCode rr /\
          res_body r = res_body rr /\
          forall headerName,
            JsObject.get headerName (res_headers r) =
            JsObject.get headerName (res_headers rr)
    | None =>
        outcome (onRequest Date_parse_ISO sampleParse sampleStringify
                   sampleNetwork MainJs sampleCutoff otherRequest EmptyString)
          = SocketError
    end.
Proof.
  apply (other_hosts_pass_through Date_parse_ISO sampleParse sampleStringify
           sampleNetwork MainJs sampleCutoff otherRequest EmptyString).
  reflexivity.
Defined.

Lemma second_request_is_full_metadata_witness :
  JsObject.get "accept" (up_headers (withAcceptJson sampleFirstUpstream))
    = Some "application/json" /\
  (forall headerName, String.eqb headerName "accept" = false ->
     JsObject.get headerName (up_headers (withAcceptJson sampleFirstUpstream)) =
     JsObject.get headerName (up_headers sampleFirstUpstream)) /\
  (up_method (withAcceptJson sampleFirstUpstream),
   up_host (withAcceptJson sampleFirstUpstream),
   up_port (withAcceptJson sampleFirstUpstream),
   up_path (withAcceptJson sampleFirstUpstream),
   up_body (withAcceptJson sampleFirstUpstream),
   up_encrypted (withAcceptJson sampleFirstUpstream)) =
  (up_method sampleFirstUpstream, up_host sampleFirstUpstream,
   up_port sampleFirstUpstream, up_path sampleFirstUpstream,
   up_body sampleFirstUpstream, up_encrypted sampleFirstUpstream) /\
  exists rr o,
    sampleNetwork 0 sampleFirstUpstream = Some rr /\
    sampleParse (res_body rr) = Some o /\ time o = None.
Proof.
  apply (second_request_is_full_metadata Date_parse_ISO sampleParse
           sampleStringify sampleNetwork MainJs sampleCutoff sampleRequest
           EmptyString sampleFirstUpstream (withAcceptJson sampleFirstUpstream)).
  vm_compute. reflexivity.
Defined.

Lemma timeline_includes_hidden_versions_witness :
  In (mkPublication (Some "a") "2.0.0"
        (new_Date Date_parse_ISO (JsObject.get "2.0.0" sampleReservedTime)))
     (pushed (onRequest Date_parse_ISO sampleParse sampleStringify
                sampleNetwork Part001 sampleCutoff sampleRequest EmptyString)).
Proof.
  apply (timeline_includes_hidden_versions Date_parse_ISO sampleParse
           sampleStringify sampleNetwork Part001 sampleCutoff sampleRequest
           EmptyString sampleJsonUpstream fullResponse sampleReserved
           sampleReservedTime "2.0.0").
  - discriminate.
  - vm_compute. reflexivity.
  - reflexivity.
  - reflexivity.
  - reflexivity.
  - vm_compute. discriminate.
  - simpl. right. right. right. right. left. reflexivity.
  - discriminate.
  - discriminate.
Defined.

(** ** Host headers and the connect hook *)







(** The targets with and without a target in the socket options. *)
Example host_header_target_samples :
  targetOfRequest noSocketTarget (Some "registry.npmjs.org:4873") true =
    (Some "registry.npmjs.org", 4873%nat) /\
  targetOfRequest noSocketTarget (Some "registry.npmjs.org") true =
    (Some "registry.npmjs.org", 443%nat) /\
  targetOfRequest noSocketTarget (Some "registry.npmjs.org:0") false =
    (Some "registry.npmjs.org", 80%nat) /\
  targetOfRequest socketTarget (Some "registry.npmjs.org:4873") true =
    (Some "104.16.0.35", 443%nat).
Proof. repeat split; reflexivity. Qed.

Lemma runEvents_guarded (variant : Variant) (events : list ProxyEvent) :
  forall flag,
    noTwoIntercepted (fst (runEvents variant flag events)) = true /\
    (flag = true ->
     hd_error (fst (runEvents variant flag events)) <> Some Intercepted).
Proof.
  induction events as [|[servername|] rest IH]; intros flag; simpl.
  - split; [reflexivity|discriminate].
  - unfold onConnect.
    destruct flag.
    + destruct (IH false) as [Hn _].
      destruct (runEvents variant false rest) as [actions final]. simpl in *.
      split; [destruct actions; exact Hn|discriminate].
    + destruct (isRegistryHostname variant servername).
      * destruct (IH true) as [Hn Hhd]. specialize (Hhd eq_refl).
        destruct (runEvents variant true rest) as [actions final]. simpl in *.
        split; [|discriminate].
        destruct actions as [|[|] actions]; auto; congruence.
      * destruct (IH false) as [Hn _].
        destruct (runEvents variant false rest) as [actions final]. simpl in *.
        split; [destruct actions; exact Hn|discriminate].
  - destruct (IH true) as [Hn Hhd]. split; [exact Hn|]. intros _.
    apply Hhd. reflexivity.
Qed.

Lemma runEvents_registry (variant : Variant) (events : list ProxyEvent) :
  forall flag i,
    nth_error (fst (runEvents variant flag events)) i = Some Intercepted ->
    exists servername,
      nth_error (connectsOf events) i = Some servername /\
      isRegistryHostname variant servername = true.
Proof.
  induction events as [|[servername|] rest IH]; intros flag i; simpl.
  - destruct i; discriminate.
  - unfold onConnect.
    destruct flag.
    + specialize (IH false).
      destruct (runEvents variant false rest) as [actions final]. simpl in *.
      destruct i as [|i]; simpl; [discriminate|apply IH].
    + destruct (isRegistryHostname variant servername) eqn:Hreg.
      * specialize (IH true).
        destruct (runEvents variant true rest) as [actions final]. simpl in *.
        destruct i as [|i]; simpl; [|apply IH].
        intros _. exists servername. auto.
      * specialize (IH false).
        destruct (runEvents variant false rest) as [actions final]. simpl in *.
        destruct i as [|i]; simpl; [discriminate|apply IH].
  - apply IH.
Qed.

(** X17.  Whatever the sequence of connection attempts and upstream
    dials, the connect hook intercepts only connections to a registry
    host, never two connections in a row, and never the connection
    that follows a dial of the handler. *)
Theorem connect_hook_discipline (variant : Variant) (flag : bool)
    (events : list ProxyEvent) :
  noTwoIntercepted (fst (runEvents variant flag events)) = true /\
  (forall i,
     nth_error (fst (runEvents variant flag events)) i = Some Intercepted ->
     exists servername,
       nth_error (connectsOf events) i = Some servername /\
       isRegistryHostname variant servername = true) /\
  (forall servername rest,
     fst (runEvents variant flag (Dial :: Connect servername :: rest)) =
     Bypassed :: fst (runEvents variant false rest)).
Proof.
  split; [apply runEvents_guarded|]. split; [apply runEvents_registry|].
  intros servername rest. simpl.
  destruct (runEvents variant false rest). reflexivity.
Qed.

(** ** More on the driver *)

Section DriverMore.

Import Driver.
Import Candidates.

Lemma item_In (timeline : list TimelineEvent) (i : Z) (e : TimelineEvent) :
  item timeline i = Some e -> In e timeline.
Proof.
  unfold item. destruct (i <? 0); [discriminate|]. apply nth_error_In.
Qed.

(** X18.  Whatever the answers, as long as every probe gives one, the
    driver ends on a non-empty timeline with the two bounds equal and
    reports an event of the timeline: no index leaves the array. *)
Theorem bisect_always_reports (probe : nat -> Z -> option bool)
    (timeline : list TimelineEvent) :
  timeline <> [] ->
  (forall n t, probe n t <> None) ->
  exists j badEvent,
    searchLoop probe (List.length timeline) 0 timeline 0
      (Z.of_nat (List.length timeline) - 1) = Exited j j /\
    item timeline j = Some badEvent /\
    bisect probe (List.length timeline) timeline = Culprit badEvent /\
    In badEvent timeline.
Proof.
  intros Hne Htotal.
  assert (Hlen : 0 < Z.of_nat (List.length timeline)).
  { destruct timeline; [contradiction|simpl; lia]. }
  destruct (searchLoop_bounds probe timeline Htotal (List.length timeline) 0%nat
              0 (Z.of_nat (List.length timeline) - 1)) as (j & Hj & Hr);
    try lia.
  destruct (item_Some timeline j ltac:(lia)) as (e & He).
  exists j, e. split; [exact Hj|]. split; [exact He|]. split.
  - unfold bisect. destruct timeline; [contradiction|].
    rewrite Hj, He. reflexivity.
  - eapply item_In. exact He.
Qed.

Lemma searchLoop_log (probe : nat -> Z -> option bool)
    (timeline : list TimelineEvent) (fuel : nat) :
  forall n g b, b - g < 2 ^ Z.of_nat fuel ->
  searchLoop probe fuel n timeline g b <> OutOfFuel.
Proof.
  induction fuel as [|fuel IH]; intros n g b Hf; simpl.
  - destruct (b >? g) eqn:Hbg; [|discriminate].
    apply Z.gtb_lt in Hbg. simpl in Hf. lia.
  - destruct (b >? g) eqn:Hbg; [|discriminate].
    apply Z.gtb_lt in Hbg.
    destruct (item timeline (tryBeforeIndex g b)); [|discriminate].
    destruct (probe n (time t - 1)) as [works|]; [|discriminate].
    rewrite Nat2Z.inj_succ, Z.pow_succ_r in Hf by lia.
    assert (Hhalf : 2 * tryBeforeIndex g b >= g + b /\
                    2 * tryBeforeIndex g b <= g + b + 1).
    { unfold tryBeforeIndex, Math_round_half.
      Z.to_euclidean_division_equations. lia. }
    unfold narrow. destruct works; apply IH; lia.
Qed.

(** X19.  The loop makes at most [floor(log2(d)) + 1] probes, where
    [d] is the difference of the two bounds it is entered with,
    whatever the oracle answers. *)
Theorem bisection_probes_logarithmic (probe : nat -> Z -> option bool)
    (timeline : list TimelineEvent) (n : nat)
    (goodBeforeIndex badAfterIndex : Z) :
  badAfterIndex > goodBeforeIndex ->
  searchLoop probe (S (Z.to_nat (Z.log2 (badAfterIndex - goodBeforeIndex))))
    n timeline goodBeforeIndex badAfterIndex <> OutOfFuel.
Proof.
  intros H. apply searchLoop_log.
  pose proof (Z.log2_spec (badAfterIndex - goodBeforeIndex) ltac:(lia)) as Hs.
  pose proof (Z.log2_nonneg (badAfterIndex - goodBeforeIndex)) as Hn.
  rewrite Nat2Z.inj_succ, Z2Nat.id by exact Hn. lia.
Qed.

Lemma sorted_cons (e : TimelineEvent) (l : list TimelineEvent) :
  (forall e', In e' l -> time e <= time e') ->
  sortedByTime l = true -> sortedByTime (e :: l) = true.
Proof.
  intros Hle Hs. destruct l as [|x l]; [reflexivity|].
  simpl. apply andb_true_intro. split; [|exact Hs].
  apply Z.leb_le. apply Hle. left. reflexivity.
Qed.

Lemma sorted_filter (p : TimelineEvent -> bool) (l : list TimelineEvent) :
  sortedByTime l = true -> sortedByTime (filter p l) = true.
Proof.
  induction l as [|e l IH]; intros Hs; [reflexivity|].
  pose proof (sorted_head_le e l Hs) as Hle.
  pose proof (IH (sorted_tail e l Hs)) as Hf.
  simpl. destruct (p e); [|exact Hf].
  apply sorted_cons; [|exact Hf].
  intros e' He'. apply Hle. apply filter_In in He'. apply He'.
Qed.

Lemma filterOnly_sorted semver_satisfies only (l : list TimelineEvent) :
  sortedByTime l = true ->
  sortedByTime (filterOnly semver_satisfies only l) = true.
Proof.
  intros Hs. unfold filterOnly. destruct only; [exact Hs|].
  apply sorted_filter. exact Hs.
Qed.

(** X20.  The filters keep the order: the candidates of a timeline in
    ascending order of time are in ascending order of time, as the
    bisection needs them. *)
Theorem candidates_stay_sorted (semver_satisfies : string -> string -> bool)
    (goodTime badTime : Date) (only ignore : list string)
    (timeline : list TimelineEvent) :
  sortedByTime timeline = true ->
  sortedByTime (candidateTimeline semver_satisfies goodTime badTime only
                  ignore timeline) = true.
Proof.
  intros Hs. unfold candidateTimeline, filterIgnore.
  apply sorted_filter, filterOnly_sorted. unfold filterWindow.
  apply sorted_filter. exact Hs.
Qed.

(** X21.  Whatever the oracle answers, the event the driver blames is
    a candidate: an event of the timeline, published after the good
    time and not after the bad time, matched by no [--ignore] entry and,
    when there are [--only] entries, matched by one of them. *)
Theorem culprit_is_a_candidate (semver_satisfies : string -> string -> bool)
    (probe : nat -> Z -> option bool) (fuel : nat)
    (goodTime badTime : Date) (only ignore : list string)
    (timeline : list TimelineEvent) (badEvent : TimelineEvent) :
  bisect probe fuel
    (candidateTimeline semver_satisfies goodTime badTime only ignore timeline)
    = Culprit badEvent ->
  In badEvent timeline /\
  Date_gt (Some (time badEvent)) goodTime = true /\
  Date_le (Some (time badEvent)) badTime = true /\
  existsb (matchesPackageSpec semver_satisfies badEvent)
          (map parsePackageAndVersionRange ignore) = false /\
  (only = [] \/
   existsb (matchesPackageSpec semver_satisfies badEvent)
           (map parsePackageAndVersionRange only) = true).
Proof.
  intros H.
  assert (Hin : In badEvent (candidateTimeline semver_satisfies goodTime
                               badTime only ignore timeline)).
  { unfold bisect in H.
    destruct (candidateTimeline _ _ _ _ _ _) as [|x l]; [discriminate|].
    destruct (searchLoop _ _ _ _ _ _) as [g b| |]; try discriminate.
    destruct (item (x :: l) g) as [e|] eqn:He; [|discriminate].
    injection H as <-. eapply item_In. exact He. }
  unfold candidateTimeline, filterIgnore in Hin.
  apply filter_In in Hin. destruct Hin as [Hin Hign].
  apply negb_true_iff in Hign.
  assert (Hwin : In badEvent (filterWindow goodTime badTime timeline) /\
                 (only = [] \/
                  existsb (matchesPackageSpec semver_satisfies badEvent)
                          (map parsePackageAndVersionRange only) = true)).
  { unfold filterOnly in Hin. destruct only as [|o only]; [auto|].
    apply filter_In in Hin. destruct Hin as [Hin Ho]. auto. }
  destruct Hwin as [Hwin Honly].
  unfold filterWindow in Hwin. apply filter_In in Hwin.
  destruct Hwin as [Htl Hw]. apply andb_prop in Hw. destruct Hw as [Hg Hb].
  auto.
Qed.

End DriverMore.

Lemma bisect_always_reports_witness :
  exists j badEvent,
    Driver.searchLoop alwaysWorks 2 0 [event_a; event_b] 0 1
      = Driver.Exited j j /\
    Driver.item [event_a; event_b] j = Some badEvent /\
    Driver.bisect alwaysWorks 2 [event_a; event_b] = Driver.Culprit badEvent /\
    In badEvent [event_a; event_b].
Proof.
  apply (bisect_always_reports alwaysWorks [event_a; event_b]).
  - discriminate.
  - intros n t. discriminate.
Defined.

Lemma bisection_probes_logarithmic_witness :
  Driver.searchLoop alwaysWorks (S (Z.to_nat (Z.log2 (3 - 0)))) 0
    sampleTimeline 0 3 <> Driver.OutOfFuel.
Proof.
  apply (bisection_probes_logarithmic alwaysWorks sampleTimeline 0 0 3).
  lia.
Defined.

(** On the four events of the sample the bound is two probes, and both
    are needed: they move [goodBeforeIndex] to 2 and then to 3. *)
Example bisection_probes_sample :
  S (Z.to_nat (Z.log2 (3 - 0))) = 2%nat /\
  Driver.searchLoop alwaysWorks 2 0 sampleTimeline 0 3 = Driver.Exited 3 3 /\
  Driver.searchLoop alwaysWorks 1 0 sampleTimeline 0 3 = Driver.OutOfFuel /\
  Driver.searchLoop (Driver.culpritOracle event_a) 2 0 sampleTimeline 0 3
    = Driver.Exited 0 0.
Proof. repeat split; reflexivity. Qed.

Lemma candidates_stay_sorted_witness :
  Driver.sortedByTime
    (Candidates.candidateTimeline anyVersion (Some 1577923200000)
       (Some 1578200000000) [] ["b"] sampleTimeline) = true.
Proof.
  apply (candidates_stay_sorted anyVersion (Some 1577923200000)
           (Some 1578200000000) [] ["b"] sampleTimeline).
  reflexivity.
Defined.

(** The candidates of the witness: the window drops [event_a],
    published at the good time, and [--ignore b] drops [event_b]; two
    events are left, in their order. *)
Example candidates_sample :
  Candidates.candidateTimeline anyVersion (Some 1577923200000)
    (Some 1578200000000) [] ["b"] sampleTimeline = [event_a_again; event_d] /\
  Candidates.candidateTimeline anyVersion (Some 1577836800000)
    (Some 1578200000000) ["a"; "d"] [] sampleTimeline
    = [event_a; event_a_again; event_d].
Proof. split; reflexivity. Qed.

Lemma culprit_is_a_candidate_witness :
  In event_a [event_a; event_b] /\
  Date_gt (Some (Driver.time event_a)) (Some 1577836800000) = true /\
  Candidates.Date_le (Some (Driver.time event_a)) (Some 1578182400000) = true /\
  existsb (Driver.matchesPackageSpec anyVersion event_a)
          (map Driver.parsePackageAndVersionRange ["b"]) = false /\
  (@nil string = [] \/
   existsb (Driver.matchesPackageSpec anyVersion event_a)
           (map Driver.parsePackageAndVersionRange []) = true).
Proof.
  apply (culprit_is_a_candidate anyVersion alwaysWorks 2
           (Some 1577836800000) (Some 1578182400000) [] ["b"]
           [event_a; event_b] event_a).
  vm_compute. reflexivity.
Defined.

(** ** The collected timeline *)

Section CollectTimeline.

Import Driver.
Import Candidates.

Lemma uniqByFrom_In {A : Type} (key : A -> string) (l : list A) :
  forall seen e, In e (uniqByFrom key seen l) ->
  In e l /\ Set_has (key e) seen = false.
Proof.
  induction l as [|x l IH]; intros seen e; simpl; [contradiction|].
  destruct (Set_has (key x) seen) eqn:Hx.
  - intros H. destruct (IH seen e H). auto.
  - intros [<-|H]; [auto|].
    destruct (IH (key x :: seen) e H) as [Hin Hs]. split; [auto|].
    unfold Set_has in *. simpl in Hs. apply orb_false_elim in Hs. apply Hs.
Qed.

Lemma uniqByFrom_NoDup {A : Type} (key : A -> string) (l : list A) :
  forall seen, NoDup (map key (uniqByFrom key seen l)).
Proof.
  induction l as [|x l IH]; intros seen; simpl; [constructor|].
  destruct (Set_has (key x) seen); [apply IH|].
  simpl. constructor; [|apply IH].
  intros Hin. apply in_map_iff in Hin. destruct Hin as (e & Hk & He).
  apply uniqByFrom_In in He. destruct He as [_ Hs].
  unfold Set_has in Hs. simpl in Hs. rewrite Hk, String.eqb_refl in Hs.
  discriminate.
Qed.

Lemma uniqByFrom_sorted (l : list TimelineEvent) :
  forall seen, sortedByTime l = true ->
  sortedByTime (uniqByFrom eventKey seen l) = true.
Proof.
  induction l as [|x l IH]; intros seen Hs; [reflexivity|].
  pose proof (sorted_head_le x l Hs) as Hle.
  pose proof (sorted_tail x l Hs) as Ht.
  simpl. destruct (Set_has (eventKey x) seen); [apply IH; exact Ht|].
  apply sorted_cons; [|apply IH; exact Ht].
  intros e' He'. apply Hle. apply uniqByFrom_In in He'. apply He'.
Qed.

Lemma uniqByFrom_first (l : list TimelineEvent) :
  forall seen e, sortedByTime l = true -> In e l ->
  Set_has (eventKey e) seen = false ->
  exists e', In e' (uniqByFrom eventKey seen l) /\
             eventKey e' = eventKey e /\ time e' <= time e.
Proof.
  induction l as [|x l IH]; intros seen e Hs Hin Hseen; [contradiction|].
  pose proof (sorted_head_le x l Hs) as Hle.
  pose proof (sorted_tail x l Hs) as Ht.
  simpl. destruct (Set_has (eventKey x) seen) eqn:Hx.
  - destruct Hin as [->|Hin]; [congruence|].
    apply (IH seen e Ht Hin Hseen).
  - destruct Hin as [->|Hin].
    + exists e. split; [left; reflexivity|]. split; [reflexivity|lia].
    + destruct (String.eqb_spec (eventKey e) (eventKey x)) as [Heq|Hne].
      * exists x. split; [left; reflexivity|]. split; [auto|].
        apply Hle. exact Hin.
      * destruct (IH (eventKey x :: seen) e Ht Hin) as (e' & He' & Hk & Hlt).
        { unfold Set_has in *. simpl. rewrite Hseen.
          apply String.eqb_neq in Hne. rewrite Hne. reflexivity. }
        exists e'. split; [right; exact He'|auto].
Qed.

Lemma insertByTime_In (e : TimelineEvent) (l : list TimelineEvent) (x : TimelineEvent) :
  In x (insertByTime e l) <-> x = e \/ In x l.
Proof.
  induction l as [|y l IH]; simpl.
  - split; intros [H|H]; auto.
  - destruct (time e <? time y); simpl.
    + split; intros [H|H]; auto.
    + rewrite IH. split; intros H; intuition.
Qed.

Lemma insertByTime_sorted (e : TimelineEvent) (l : list TimelineEvent) :
  sortedByTime l = true -> sortedByTime (insertByTime e l) = true.
Proof.
  induction l as [|y l IH]; intros Hs; [reflexivity|].
  simpl insertByTime. destruct (time e <? time y) eqn:Hlt.
  - apply Z.ltb_lt in Hlt. apply sorted_cons; [|exact Hs].
    intros e' [<-|He']; [lia|].
    pose proof (sorted_head_le y l Hs e' He'). lia.
  - apply Z.ltb_ge in Hlt. apply sorted_cons; [|apply IH, (sorted_tail y l Hs)].
    intros e' He'. apply insertByTime_In in He'. destruct He' as [->|He'].
    + exact Hlt.
    + apply (sorted_head_le y l Hs e' He').
Qed.

Lemma sortByTime_sorted (l : list TimelineEvent) :
  sortedByTime (sortByTime l) = true.
Proof.
  induction l as [|e l IH]; [reflexivity|].
  simpl. apply insertByTime_sorted. exact IH.
Qed.

Lemma sortByTime_In (l : list TimelineEvent) (x : TimelineEvent) :
  In x (sortByTime l) <-> In x l.
Proof.
  induction l as [|e l IH]; simpl; [tauto|].
  rewrite insertByTime_In, IH. split; intros [H|H]; auto.
Qed.

Variable sort : list TimelineEvent -> list TimelineEvent.
Hypothesis sort_sorted : forall l, sortedByTime (sort l) = true.
Hypothesis sort_In : forall l e, In e (sort l) <-> In e l.

(** X22.  With a sort that puts the events in ascending order of time,
    the timeline of the first probe is in ascending order, holds each
    key [name@version] once, holds only events read from the files,
    and holds for every event read one with the same key that is not
    published later. *)
Theorem collected_timeline_sorted_unique (files : list (list TimelineEvent)) :
  sortedByTime (collectTimeline sort files) = true /\
  NoDup (map eventKey (collectTimeline sort files)) /\
  (forall e, In e (collectTimeline sort files) -> In e (List.concat files)) /\
  (forall e, In e (List.concat files) ->
     exists e', In e' (collectTimeline sort files) /\
                eventKey e' = eventKey e /\ time e' <= time e).
Proof.
  unfold collectTimeline, uniqBy. split; [|split; [|split]].
  - apply uniqByFrom_sorted, sort_sorted.
  - apply uniqByFrom_NoDup.
  - intros e He. apply uniqByFrom_In in He. apply sort_In, He.
  - intros e He. apply uniqByFrom_first.
    + apply sort_sorted.
    + apply sort_In. exact He.
    + reflexivity.
Qed.

End CollectTimeline.

Lemma collected_timeline_sorted_unique_witness :
  Driver.sortedByTime
    (Candidates.collectTimeline Candidates.sortByTime
       [[event_b; event_a_again]; [event_a]]) = true /\
  NoDup (map Candidates.eventKey
           (Candidates.collectTimeline Candidates.sortByTime
              [[event_b; event_a_again]; [event_a]])) /\
  (forall e, In e (Candidates.collectTimeline Candidates.sortByTime
                     [[event_b; event_a_again]; [event_a]]) ->
             In e (List.concat [[event_b; event_a_again]; [event_a]])) /\
  (forall e, In e (List.concat [[event_b; event_a_again]; [event_a]]) ->
     exists e', In e' (Candidates.collectTimeline Candidates.sortByTime
                         [[event_b; event_a_again]; [event_a]]) /\
                Candidates.eventKey e' = Candidates.eventKey e /\
                Driver.time e' <= Driver.time e).
Proof.
  apply (collected_timeline_sorted_unique Candidates.sortByTime).
  - intros l. apply sortByTime_sorted.
  - intros l e. apply sortByTime_In.
Defined.

(** ** Plain names and the wrapper *)

Section PlainNames.

Import Driver.

Lemma parse_plain_name (entry : string) :
  isPlainName entry = true ->
  parsePackageAndVersionRange entry = mkPackageSpec entry "*".
Proof.
  unfold isPlainName. intros H. apply orb_prop in H. destruct H as [H|H].
  - apply parse_name_only. exact H.
  - destruct entry as [|c rest]; [discriminate|].
    unfold parsePackageAndVersionRange, matchVersion. simpl.
    rewrite H. reflexivity.
Qed.

Lemma existsb_map {A B : Type} (f : B -> bool) (g : A -> B) (l : list A) :
  existsb f (map g l) = existsb (fun x => f (g x)) l.
Proof.
  induction l as [|x l IH]; simpl; [reflexivity|]. rewrite IH. reflexivity.
Qed.

(** X23.  For entries that are package names, bare or scoped, and a
    timeline whose versions all satisfy the range [*], the filter on
    package specs ignores exactly the events the older filter on names
    ignores. *)
Theorem ignore_specs_agree_with_names
    (semver_satisfies : string -> string -> bool)
    (ignore : list string) (timeline : list TimelineEvent) :
  forallb isPlainName ignore = true ->
  forallb (fun event => semver_satisfies (version event) "*") timeline = true ->
  filterIgnore semver_satisfies ignore timeline =
  filterIgnoreNames ignore timeline.
Proof.
  intros Hplain Hsat. rewrite forallb_forall in Hplain, Hsat.
  unfold filterIgnore, filterIgnoreNames.
  apply filter_ext_in. intros e He. f_equal.
  rewrite existsb_map.
  induction ignore as [|entry ignore IH]; [reflexivity|].
  simpl. rewrite IH by (intros x Hx; apply Hplain; right; exact Hx).
  f_equal. rewrite parse_plain_name by (apply Hplain; left; reflexivity).
  unfold matchesPackageSpec. simpl. rewrite (Hsat e He). apply andb_true_r.
Qed.

End PlainNames.

Lemma ignore_specs_agree_with_names_witness :
  Driver.filterIgnore anyVersion ["a"; "@babel/core"] [event_a; event_b] =
  filterIgnoreNames ["a"; "@babel/core"] [event_a; event_b].
Proof.
  apply (ignore_specs_agree_with_names anyVersion ["a"; "@babel/core"]
           [event_a; event_b]); reflexivity.
Defined.

Section WrapperFacts.

Import Wrapper.

Lemma findIndex_spec {A : Type} (p : A -> bool) (l : list A) :
  forall i, findIndex p l = Some i ->
  exists before x rest,
    l = (before ++ x :: rest)%list /\ List.length before = i /\
    forallb (fun y => negb (p y)) before = true /\ p x = true.
Proof.
  induction l as [|y l IH]; intros i; simpl; [discriminate|].
  destruct (p y) eqn:Hy.
  - intros H. injection H as <-. exists [], y, l. auto.
  - destruct (findIndex p l) as [j|]; [|discriminate].
    intros H. injection H as <-.
    destruct (IH j eq_refl) as (before & x & rest & -> & Hlen & Hb & Hx).
    exists (y :: before), x, rest. simpl. rewrite Hy, Hlen. auto.
Qed.

Lemma findIndex_None {A : Type} (p : A -> bool) (l : list A) :
  findIndex p l = None <-> forallb (fun x => negb (p x)) l = true.
Proof.
  induction l as [|y l IH]; simpl; [tauto|].
  destruct (p y); simpl.
  - split; discriminate.
  - rewrite <- IH. destruct (findIndex p l); simpl; split; congruence.
Qed.

Lemma findIndex_app {A : Type} (p : A -> bool) (before : list A) (x : A)
    (rest : list A) :
  forallb (fun y => negb (p y)) before = true -> p x = true ->
  findIndex p (before ++ x :: rest)%list = Some (List.length before).
Proof.
  induction before as [|y before IH]; simpl; intros Hb Hx.
  - rewrite Hx. reflexivity.
  - apply andb_prop in Hb. destruct Hb as [Hy Hb].
    apply negb_true_iff in Hy. rewrite Hy, (IH Hb Hx). reflexivity.
Qed.

Lemma split_at_length {A : Type} (d : A) (before : list A) (x : A)
    (rest : list A) :
  firstn (List.length before) (before ++ x :: rest)%list = before /\
  nth (List.length before) (before ++ x :: rest)%list d = x /\
  skipn (S (List.length before)) (before ++ x :: rest)%list = rest.
Proof.
  induction before as [|y before IH]; simpl; [auto|].
  destruct IH as (H1 & H2 & H3). rewrite H1. auto.
Qed.

(** X24.  The wrapper throws when no argument is [npm] or a path to
    [npm]; otherwise it cuts the command line at the first such
    argument, reads [--time] in what comes before it, stops when the
    option is missing or is no date, and else spawns that argument with
    all the arguments after it and the cutoff.  Nothing of the command
    line is lost, and a command line of that shape is always run. *)
Theorem argv_split_at_first_npm (Date_parse : string -> Date)
    (yargs_time : list string -> option string)
    (before : list string) (command : string) (args : list string)
    (time : string) (cutoff : Z) :
  forallb (fun option => negb (isNpm option)) before = true ->
  isNpm command = true ->
  yargs_time before = Some time ->
  Date_parse time = Some cutoff ->
  runWrapper Date_parse yargs_time (before ++ command :: args)%list =
    Spawned cutoff command args /\
  forall argv,
    match runWrapper Date_parse yargs_time argv with
    | NpmNotFound =>
        forallb (fun option => negb (isNpm option)) argv = true
    | TimeMissing =>
        exists before' command' args',
          argv = (before' ++ command' :: args')%list /\
          forallb (fun option => negb (isNpm option)) before' = true /\
          isNpm command' = true /\
          yargs_time before' = None
    | InvalidDate time' =>
        exists before' command' args',
          argv = (before' ++ command' :: args')%list /\
          forallb (fun option => negb (isNpm option)) before' = true /\
          isNpm command' = true /\
          yargs_time before' = Some time' /\ Date_parse time' = None
    | Spawned cutoff' command' args' =>
        exists before' time',
          argv = (before' ++ command' :: args')%list /\
          forallb (fun option => negb (isNpm option)) before' = true /\
          isNpm command' = true /\
          yargs_time before' = Some time' /\
          Date_parse time' = Some cutoff'
    end.
Proof.
  intros Hb Hc Ht Hd. split.
  - unfold runWrapper. rewrite (findIndex_app isNpm before command args Hb Hc).
    destruct (split_at_length EmptyString before command args)
      as (-> & -> & ->).
    rewrite Ht, Hd. reflexivity.
  - intros argv. unfold runWrapper.
    destruct (findIndex isNpm argv) as [i|] eqn:Hi.
    2:{ apply findIndex_None. exact Hi. }
    destruct (findIndex_spec isNpm argv i Hi)
      as (b' & c' & a' & -> & <- & Hb' & Hc').
    destruct (split_at_length EmptyString b' c' a') as (-> & -> & ->).
    destruct (yargs_time b') as [t'|] eqn:Ht'.
    2:{ exists b', c', a'. auto. }
    destruct (Date_parse t') as [d'|] eqn:Hd'.
    + exists b', t'. auto.
    + exists b', c', a'. auto.
Qed.

End WrapperFacts.

Lemma rewrite_only_removes_witness :
  let D' := snd (rewriteDocument Date_parse_ISO Part001 sampleCutoff
                   sampleRegular) in
  name D' = name sampleRegular /\
  otherFields D' = otherFields sampleRegular /\
  option_map otherTags (dist_tags D') =
    option_map otherTags (dist_tags sampleRegular) /\
  (forall v x, versionOf D' v = Some x -> versionOf sampleRegular v = Some x) /\
  (forall k x, timeOf D' k = Some x -> timeOf sampleRegular k = Some x).
Proof.
  apply (rewrite_only_removes Date_parse_ISO Part001 sampleCutoff sampleRegular).
Defined.

Lemma connect_hook_discipline_witness :
  noTwoIntercepted
    (fst (runEvents Part001 false
            [Connect (Some "registry.npmjs.org"); Dial;
             Connect (Some "registry.npmjs.org");
             Connect (Some "example.com")])) = true /\
  (forall i,
     nth_error
       (fst (runEvents Part001 false
               [Connect (Some "registry.npmjs.org"); Dial;
                Connect (Some "registry.npmjs.org");
                Connect (Some "example.com")])) i = Some Intercepted ->
     exists servername,
       nth_error
         (connectsOf [Connect (Some "registry.npmjs.org"); Dial;
                      Connect (Some "registry.npmjs.org");
                      Connect (Some "example.com")]) i = Some servername /\
       isRegistryHostname Part001 servername = true) /\
  (forall servername rest,
     fst (runEvents Part001 false (Dial :: Connect servername :: rest)) =
     Bypassed :: fst (runEvents Part001 false rest)).
Proof.
  apply (connect_hook_discipline Part001 false
           [Connect (Some "registry.npmjs.org"); Dial;
            Connect (Some "registry.npmjs.org");
            Connect (Some "example.com")]).
Defined.

(** ** The handler and the rewriter together *)

Section HandlerPaths.

Variable Date_parse : string -> Date.
Variable JSON_parse : string -> option PackageMetadata.
Variable JSON_stringify : PackageMetadata -> string.
Variable performRequest : nat -> UpstreamRequestOptions -> option ResponseResult.

Local Abbreviation handler :=
  (onRequest Date_parse JSON_parse JSON_stringify performRequest).
Local Abbreviation respond :=
  (onResponse Date_parse JSON_parse JSON_stringify performRequest).

(** Once the first upstream request is answered, the run is the
    [setImmediate] callback on that answer. *)
Lemma handler_after_first (variant : Variant) (C : Date)
    (req : IncomingMessage) (body : string)
    (opts : UpstreamRequestOptions) (rr : ResponseResult) :
  hd_error (upstream (handler variant C req body)) = Some opts ->
  performRequest 0 opts = Some rr ->
  handler variant C req body =
  respond variant C opts
    (isRegistryHostname variant
       (fst (parseHostHeader (JsObject.get "host" (req_headers req))))) rr.
Proof.
  unfold onRequest.
  destruct (parseHostHeader _) as [host port]. simpl fst.
  unfold normalizeHeaders.
  assert (G : forall h could,
    hd_error
      (upstream
         (match performRequest 0 (upstreamRequestOptions req body h host port) with
          | Some responseResult =>
              respond variant C (upstreamRequestOptions req body h host port)
                could responseResult
          | None =>
              mkHandlerRun [upstreamRequestOptions req body h host port] []
                None SocketError
          end)) = Some opts ->
    performRequest 0 opts = Some rr ->
    match performRequest 0 (upstreamRequestOptions req body h host port) with
    | Some responseResult =>
        respond variant C (upstreamRequestOptions req body h host port)
          could responseResult
    | None =>
        mkHandlerRun [upstreamRequestOptions req body h host port] []
          None SocketError
    end = respond variant C opts could rr).
  { intros h could.
    destruct (performRequest 0 (upstreamRequestOptions req body h host port))
      as [rr1|] eqn:E.
    - destruct (onResponse_upstream Date_parse JSON_parse JSON_stringify
                  performRequest C variant
                  (upstreamRequestOptions req body h host port) could rr1)
        as [rest Hrest].
      rewrite Hrest. simpl. intros H. injection H as <-.
      rewrite E. intros H. injection H as <-. reflexivity.
    - simpl. intros H. injection H as <-. rewrite E. discriminate. }
  destruct (isRegistryHostname variant host).
  - destruct (rewriteAccept variant (req_url req) _) as [h'|];
      [apply G|discriminate].
  - apply G.
Qed.

(** X26.  For a registry answer in JSON that parses to a document with
    a [time] map, the handler returns what the rewriter returns on that
    document, and the body it sends is the serialization of the
    rewritten document when the rewriter reports a change, the body
    received otherwise. *)
Theorem handler_sends_rewritten_document (variant : Variant) (C : Date)
    (req : IncomingMessage) (body : string)
    (opts : UpstreamRequestOptions) (rr : ResponseResult)
    (o : PackageMetadata) (tbv : JsObject.t string) :
  isRegistryHostname variant
    (fst (parseHostHeader (JsObject.get "host" (req_headers req)))) = true ->
  hd_error (upstream (handler variant C req body)) = Some opts ->
  performRequest 0 opts = Some rr ->
  isJson (res_headers rr) = true ->
  JSON_parse (res_body rr) = Some o ->
  time o = Some tbv ->
  rewriterReturned (handler variant C req body) =
    Some (fst (rewriteDocument Date_parse variant C o)) /\
  exists r,
    outcome (handler variant C req body) = Responded r /\
    statusCode r = statusCode rr /\
    res_body r =
      if fst (rewriteDocument Date_parse variant C o)
      then JSON_stringify (snd (rewriteDocument Date_parse variant C o))
      else res_body rr.
Proof.
  intros Hreg Hhd Hrr Hjson Ho Ht.
  rewrite (handler_after_first variant C req body opts rr Hhd Hrr), Hreg.
  unfold onResponse. rewrite Hjson, Ho. simpl.
  unfold needsFullMetadata. rewrite Ht.
  destruct (rewriteAndSend_run Date_parse JSON_stringify variant C [opts]
              (mkStore o None) ObjTime rr) as (_ & Hret & Hout).
  rewrite Hret, Hout, rewriteDocument_remove. simpl fst. simpl snd.
  split; [reflexivity|].
  eexists. split; [reflexivity|].
  destruct (fst (removeVersionsFromPackageMetadata Date_parse variant C
                   (mkStore o None) ObjTime)); simpl; auto.
Qed.

(** X27.  A registry answer that is not JSON, a tarball for one, is
    not parsed: it comes back as it came, after a single upstream
    request. *)
Theorem registry_non_json_passes_through (variant : Variant) (C : Date)
    (req : IncomingMessage) (body : string)
    (opts : UpstreamRequestOptions) (rr : ResponseResult) :
  hd_error (upstream (handler variant C req body)) = Some opts ->
  performRequest 0 opts = Some rr ->
  isJson (res_headers rr) = false ->
  upstream (handler variant C req body) = [opts] /\
  rewriterReturned (handler variant C req body) = None /\
  pushed (handler variant C req body) = [] /\
  exists r,
    outcome (handler variant C req body) = Responded r /\
    statusCode r = statusCode rr /\
    res_body r = res_body rr /\
    forall headerName,
      JsObject.get headerName (res_headers r) =
      JsObject.get headerName (res_headers rr).
Proof.
  intros Hhd Hrr Hjson.
  rewrite (handler_after_first variant C req body opts rr Hhd Hrr).
  unfold onResponse. rewrite Hjson, andb_false_r. simpl.
  repeat (split; [reflexivity|]).
  exists (sendResponse rr). repeat (split; [reflexivity|]).
  intros k. apply sendResponse_get.
Qed.

(** X28.  When the body of a JSON answer of the registry does not
    parse, the handler sends nothing to the client: the exception ends
    the callback before [res.end]. *)
Theorem unparsable_json_is_not_answered (variant : Variant) (C : Date)
    (req : IncomingMessage) (body : string)
    (opts : UpstreamRequestOptions) (rr : ResponseResult) :
  isRegistryHostname variant
    (fst (parseHostHeader (JsObject.get "host" (req_headers req)))) = true ->
  hd_error (upstream (handler variant C req body)) = Some opts ->
  performRequest 0 opts = Some rr ->
  isJson (res_headers rr) = true ->
  JSON_parse (res_body rr) = None ->
  outcome (handler variant C req body) = Thrown /\
  rewriterReturned (handler variant C req body) = None.
Proof.
  intros Hreg Hhd Hrr Hjson Ho.
  rewrite (handler_after_first variant C req body opts rr Hhd Hrr), Hreg.
  unfold onResponse. rewrite Hjson, Ho. simpl. auto.
Qed.

(** X29.  A registry request without an [accept] header makes the
    revision [Part001] throw before any upstream request; the other two
    revisions send it upstream. *)
Theorem missing_accept_header (variant : Variant) (C : Date)
    (req : IncomingMessage) (body : string) :
  isRegistryHostname variant
    (fst (parseHostHeader (JsObject.get "host" (req_headers req)))) = true ->
  JsObject.get "accept" (req_headers req) = None ->
  match variant with
  | Part001 =>
      upstream (handler variant C req body) = [] /\
      outcome (handler variant C req body) = Thrown
  | MainJs | Part002 =>
      exists opts rest,
        upstream (handler variant C req body) = opts :: rest /\
        JsObject.get "accept" (up_headers opts) = None
  end.
Proof.
  intros Hreg Ha. unfold onRequest.
  destruct (parseHostHeader _) as [host port]. simpl in Hreg.
  unfold normalizeHeaders. rewrite Hreg.
  set (h := JsObject.delete "connection" _).
  assert (Hh : JsObject.get "accept" h = None).
  { subst h. rewrite !JsObjectFacts.get_delete. simpl. exact Ha. }
  unfold rewriteAccept. rewrite Hh, andb_false_r.
  assert (G : exists opts rest,
     upstream
       (match performRequest 0 (upstreamRequestOptions req body h host port) with
        | Some responseResult =>
            respond variant C (upstreamRequestOptions req body h host port)
              true responseResult
        | None =>
            mkHandlerRun [upstreamRequestOptions req body h host port] []
              None SocketError
        end) = opts :: rest /\
     JsObject.get "accept" (up_headers opts) = None).
  { destruct (performRequest 0 (upstreamRequestOptions req body h host port))
      as [rr|].
    - destruct (onResponse_upstream Date_parse JSON_parse JSON_stringify
                  performRequest C variant
                  (upstreamRequestOptions req body h host port) true rr)
        as [rest Hrest].
      eexists. exists rest. split; [exact Hrest|exact Hh].
    - eexists. exists []. split; [reflexivity|exact Hh]. }
  destruct variant; [exact G|split; reflexivity|exact G].
Qed.

End HandlerPaths.

(** X25.  When the times come from the second answer, the rewriter
    hides the versions of the first document by the dates of the
    second, and the first document's own [time] is not touched. *)
Theorem full_metadata_times_filter_versions (Date_parse : string -> Date)
    (variant : Variant) (C : Date) (o : PackageMetadata)
    (tbv vs : JsObject.t string) (v : string) :
  versions o = Some vs ->
  let result :=
    removeVersionsFromPackageMetadata Date_parse variant C
      (mkStore o (Some tbv)) FullMetadataTime in
  fst result = existsb (isNewer Date_parse variant C tbv) (JsObject.keys tbv) /\
  time (obj (snd result)) = time o /\
  (In v (versionKeys (obj (snd result))) <->
   In v (JsObject.keys vs) /\ isNewer Date_parse variant C tbv v = false).
Proof.
  intros Hv result. subst result.
  destruct (remove_spec Date_parse variant C (mkStore o (Some tbv))
              FullMetadataTime tbv vs eq_refl Hv) as (Hc & _ & Hv').
  split; [exact Hc|]. split.
  - unfold removeVersionsFromPackageMetadata. simpl. rewrite Hv. simpl.
    destruct (latestWasDeleted _ _); unfold setLatest; simpl;
      destruct (dist_tags o); reflexivity.
  - unfold versionKeys. rewrite Hv'.
    rewrite (JsObjectFacts.In_keys_filter
               (fun x => negb (isNewer Date_parse variant C tbv x))).
    rewrite negb_true_iff. tauto.
Qed.

(** X30.  An entry [name@range] whose name has no [@] is split at the
    [@], and matches an event exactly when the names are equal and the
    version satisfies the range. *)
Theorem unscoped_entry_matches (semver_satisfies : string -> string -> bool)
    (name range : string) (event : Driver.TimelineEvent) :
  allChars (fun c => negb (Driver.isAt c)) name = true ->
  truthy name = true -> truthy range = true ->
  Driver.hasLineTerminator range = false ->
  Driver.parsePackageAndVersionRange (name ++ String "@" range) =
    Driver.mkPackageSpec name range /\
  Driver.matchesPackageSpec semver_satisfies event
    (Driver.parsePackageAndVersionRange (name ++ String "@" range)) =
  String.eqb (Driver.packageName event) name &&
  semver_satisfies (Driver.version event) range.
Proof.
  intros Hn Hname Hrange Hlt.
  rewrite (parse_name_and_range name range Hn Hname Hrange Hlt).
  split; reflexivity.
Qed.

Lemma full_metadata_times_filter_versions_witness :
  let result :=
    removeVersionsFromPackageMetadata Date_parse_ISO MainJs sampleCutoff
      (mkStore sampleCompact (Some sampleReservedTime)) FullMetadataTime in
  fst result =
    existsb (isNewer Date_parse_ISO MainJs sampleCutoff sampleReservedTime)
            (JsObject.keys sampleReservedTime) /\
  time (obj (snd result)) = time sampleCompact /\
  (In "2.0.0" (versionKeys (obj (snd result))) <->
   In "2.0.0" (JsObject.keys [("1.0.0", "{}"); ("2.0.0", "{}")]) /\
   isNewer Date_parse_ISO MainJs sampleCutoff sampleReservedTime "2.0.0"
     = false).
Proof.
  apply (full_metadata_times_filter_versions Date_parse_ISO MainJs sampleCutoff
           sampleCompact sampleReservedTime
           [("1.0.0", "{}"); ("2.0.0", "{}")] "2.0.0").
  reflexivity.
Defined.

Lemma handler_sends_rewritten_document_witness :
  rewriterReturned (onRequest Date_parse_ISO sampleParse sampleStringify
                      sampleNetwork Part001 sampleCutoff sampleRequest
                      EmptyString) =
    Some (fst (rewriteDocument Date_parse_ISO Part001 sampleCutoff
                 sampleReserved)) /\
  exists r,
    outcome (onRequest Date_parse_ISO sampleParse sampleStringify
               sampleNetwork Part001 sampleCutoff sampleRequest EmptyString)
      = Responded r /\
    statusCode r = statusCode fullResponse /\
    res_body r =
      if fst (rewriteDocument Date_parse_ISO Part001 sampleCutoff sampleReserved)
      then sampleStringify
             (snd (rewriteDocument Date_parse_ISO Part001 sampleCutoff
                     sampleReserved))
      else res_body fullResponse.
Proof.
  apply (handler_sends_rewritten_document Date_parse_ISO sampleParse
           sampleStringify sampleNetwork Part001 sampleCutoff sampleRequest
           EmptyString sampleJsonUpstream fullResponse sampleReserved
           sampleReservedTime).
  - reflexivity.
  - vm_compute. reflexivity.
  - reflexivity.
  - reflexivity.
  - reflexivity.
  - reflexivity.
Defined.

Lemma registry_non_json_passes_through_witness :
  upstream (onRequest Date_parse_ISO sampleParse sampleStringify
              tarballNetwork Part001 sampleCutoff sampleRequest EmptyString)
    = [sampleJsonUpstream] /\
  rewriterReturned (onRequest Date_parse_ISO sampleParse sampleStringify
                      tarballNetwork Part001 sampleCutoff sampleRequest
                      EmptyString) = None /\
  pushed (onRequest Date_parse_ISO sampleParse sampleStringify
            tarballNetwork Part001 sampleCutoff sampleRequest EmptyString) = [] /\
  exists r,
    outcome (onRequest Date_parse_ISO sampleParse sampleStringify
               tarballNetwork Part001 sampleCutoff sampleRequest EmptyString)
      = Responded r /\
    statusCode r = statusCode tarballResponse /\
    res_body r = res_body tarballResponse /\
    forall headerName,
      JsObject.get headerName (res_headers r) =
      JsObject.get headerName (res_headers tarballResponse).
Proof.
  apply (registry_non_json_passes_through Date_parse_ISO sampleParse
           sampleStringify tarballNetwork Part001 sampleCutoff sampleRequest
           EmptyString sampleJsonUpstream tarballResponse).
  - vm_compute. reflexivity.
  - reflexivity.
  - reflexivity.
Defined.

Lemma unparsable_json_is_not_answered_witness :
  outcome (onRequest Date_parse_ISO failingParse sampleStringify
             sampleNetwork Part001 sampleCutoff sampleRequest EmptyString)
    = Thrown /\
  rewriterReturned (onRequest Date_parse_ISO failingParse sampleStringify
                      sampleNetwork Part001 sampleCutoff sampleRequest
                      EmptyString) = None.
Proof.
  apply (unparsable_json_is_not_answered Date_parse_ISO failingParse
           sampleStringify sampleNetwork Part001 sampleCutoff sampleRequest
           EmptyString sampleJsonUpstream fullResponse).
  - reflexivity.
  - vm_compute. reflexivity.
  - reflexivity.
  - reflexivity.
  - reflexivity.
Defined.

Lemma missing_accept_header_witness :
  upstream (onRequest Date_parse_ISO sampleParse sampleStringify
              sampleNetwork Part001 sampleCutoff noAcceptRequest EmptyString)
    = [] /\
  outcome (onRequest Date_parse_ISO sampleParse sampleStringify
             sampleNetwork Part001 sampleCutoff noAcceptRequest EmptyString)
    = Thrown.
Proof.
  apply (missing_accept_header Date_parse_ISO sampleParse sampleStringify
           sampleNetwork Part001 sampleCutoff noAcceptRequest EmptyString);
    reflexivity.
Defined.

Lemma unscoped_entry_matches_witness :
  Driver.parsePackageAndVersionRange ("underscore" ++ String "@" "^1.2.3") =
    Driver.mkPackageSpec "underscore" "^1.2.3" /\
  Driver.matchesPackageSpec anyVersion event_underscore
    (Driver.parsePackageAndVersionRange ("underscore" ++ String "@" "^1.2.3")) =
  String.eqb (Driver.packageName event_underscore) "underscore" &&
  anyVersion (Driver.version event_underscore) "^1.2.3".
Proof.
  apply (unscoped_entry_matches anyVersion "underscore" "^1.2.3"
           event_underscore); reflexivity.
Defined.

Lemma argv_split_at_first_npm_witness :
  Wrapper.runWrapper Date_parse_ISO sampleYargsTime
    (["/usr/bin/node"; "/usr/lib/npm-bisect/index.js"; "--time";
      "2020-01-01T00:00:00.000Z"] ++ "/usr/bin/npm" :: ["install"; "--no-audit"])%list
    = Wrapper.Spawned 1577836800000 "/usr/bin/npm" ["install"; "--no-audit"] /\
  forall argv,
    match Wrapper.runWrapper Date_parse_ISO sampleYargsTime argv with
    | Wrapper.NpmNotFound =>
        forallb (fun option => negb (Wrapper.isNpm option)) argv = true
    | Wrapper.TimeMissing =>
        exists before' command' args',
          argv = (before' ++ command' :: args')%list /\
          forallb (fun option => negb (Wrapper.isNpm option)) before' = true /\
          Wrapper.isNpm command' = true /\
          sampleYargsTime before' = None
    | Wrapper.InvalidDate time' =>
        exists before' command' args',
          argv = (before' ++ command' :: args')%list /\
          forallb (fun option => negb (Wrapper.isNpm option)) before' = true /\
          Wrapper.isNpm command' = true /\
          sampleYargsTime before' = Some time' /\ Date_parse_ISO time' = None
    | Wrapper.Spawned cutoff' command' args' =>
        exists before' time',
          argv = (before' ++ command' :: args')%list /\
          forallb (fun option => negb (Wrapper.isNpm option)) before' = true /\
          Wrapper.isNpm command' = true /\
          sampleYargsTime before' = Some time' /\
          Date_parse_ISO time' = Some cutoff'
    end.
Proof.
  apply (argv_split_at_first_npm Date_parse_ISO sampleYargsTime
           ["/usr/bin/node"; "/usr/lib/npm-bisect/index.js"; "--time";
            "2020-01-01T00:00:00.000Z"]
           "/usr/bin/npm" ["install"; "--no-audit"]
           "2020-01-01T00:00:00.000Z" 1577836800000).
  - reflexivity.
  - reflexivity.
  - reflexivity.
  - reflexivity.
Defined.

(** The wrapper on four command lines: it runs npm, the date is no
    date, [--time] is missing, npm is missing. *)
Example wrapper_samples :
  Wrapper.runWrapper Date_parse_ISO sampleYargsTime sampleArgv =
    Wrapper.Spawned 1577836800000 "/usr/bin/npm" ["install"; "--no-audit"] /\
  Wrapper.runWrapper Date_parse_ISO sampleYargsTime
    ["node"; "index.js"; "--time"; "yesterday-ish"; "npm"; "install"] =
    Wrapper.InvalidDate "yesterday-ish" /\
  Wrapper.runWrapper Date_parse_ISO sampleYargsTime
    ["node"; "index.js"; "npm"; "install"] = Wrapper.TimeMissing /\
  Wrapper.runWrapper Date_parse_ISO sampleYargsTime
    ["node"; "index.js"; "--time"; "2020-01-01T00:00:00.000Z"; "pnpm"] =
    Wrapper.NpmNotFound.
Proof. repeat split; reflexivity. Qed.
